(** * rls.common.agent: configuration of the replay buffer by [Agent]

    A shallow embedding of [src/rls/common/agent.py]: the module functions
    [ShowConfig] and [UpdateConfig] and the class [Agent] ([__init__], [pwi],
    [train], [evaluate], [run]).

    Python values are an inductive type; dictionaries and [Config] objects
    are finite maps with string keys; the code runs in a state-and-exception
    monad whose state is the agent object together with the trace of the
    calls that leave the file (other modules of the package, the operating
    system, and the builtins whose result is not computed here). *)

From Stdlib Require Import ZArith String Ascii PrimFloat Uint63.
From stdpp Require Import base option list gmap strings fin_maps.

Local Open Scope string_scope.
Local Open Scope Z_scope.

Set Warnings "-register-all".

(** ** Python values *)

(** [float] is the kernel's binary64, which is Python's [float].  A tuple is
    a [VList] (the code only unpacks and indexes them).  Objects of classes
    defined outside this file (the environment, the model, the buffer) are
    whatever value the outside returned: everything done with them is a
    recorded outside call. *)
Inductive value : Type :=
| VNone
| VBool (b : bool)
| VInt (z : Z)
| VFloat (f : float)
| VStr (s : string)
| VList (l : list value)
| VDict (d : gmap string value).

(** The exceptions the code can raise or let through.  [UserError] is any
    exception class not listed, by name; it is an [Exception]. *)
Inductive exn : Type :=
| KeyError (key : string)
| TypeError
| ValueError
| IndexError
| AttributeError (name : string)
| NameError (name : string)
| AssertionError (msg : string)
| Exception (msg : string)
| UserError (cls : string)
| SystemExit
| OutsideModel (what : string).

Inductive result (A : Type) : Type :=
| Ok (a : A)
| Raise (e : exn).
Arguments Ok {A} a.
Arguments Raise {A} e.

(** [except Exception] catches every class but the [BaseException]-only
    ones; [OutsideModel] is not a Python exception and is never caught. *)
Definition is_Exception (e : exn) : bool :=
  match e with
  | SystemExit | OutsideModel _ => false
  | _ => true
  end.

(** *** Truth value, comparisons and membership *)

Definition truthy (v : value) : bool :=
  match v with
  | VNone => false
  | VBool b => b
  | VInt z => negb (z =? 0)
  | VFloat f => negb (PrimFloat.eqb f 0%float)
  | VStr s => negb (String.eqb s "")
  | VList l => match l with [] => false | _ :: _ => true end
  | VDict d => negb (Nat.eqb (size d) 0)
  end.

(** [v == True]: [bool] is a subclass of [int], so [1] and [1.0] are equal
    to [True]. *)
Definition eq_True (v : value) : bool :=
  match v with
  | VBool b => b
  | VInt z => z =? 1
  | VFloat f => PrimFloat.eqb f 1%float
  | _ => false
  end.

(** [v == 'literal'] *)
Definition eq_str (v : value) (s : string) : bool :=
  match v with
  | VStr s' => String.eqb s' s
  | _ => false
  end.

Definition is_None (v : value) : bool :=
  match v with
  | VNone => true
  | _ => false
  end.

Fixpoint substring_of (p s : string) : bool :=
  String.prefix p s ||
  match s with
  | EmptyString => false
  | String _ s' => substring_of p s'
  end.

(** ['literal' in v] *)
Definition contains (v : value) (p : string) : result bool :=
  match v with
  | VStr s => Ok (substring_of p s)
  | VList l => Ok (existsb (fun x => eq_str x p) l)
  | VDict d => Ok (bool_decide (is_Some (d !! p)))
  | _ => Raise TypeError
  end.

(** [v > k] for an integer literal [k] *)
Definition gt_int (v : value) (k : Z) : result bool :=
  match v with
  | VBool b => Ok ((if b then 1 else 0) >? k)
  | VInt z => Ok (z >? k)
  | VFloat f => Ok (PrimFloat.ltb (PrimFloat.of_uint63 (Uint63.of_Z k)) f)
  | _ => Raise TypeError
  end.

(** [v + k] for a small natural number [k] (a loop index times ten; the
    conversion to [float] is exact below 2^53). *)
Definition add_nat (v : value) (k : nat) : result value :=
  match v with
  | VBool b => Ok (VInt ((if b then 1 else 0) + Z.of_nat k))
  | VInt z => Ok (VInt (z + Z.of_nat k))
  | VFloat f => Ok (VFloat (PrimFloat.add f (PrimFloat.of_uint63 (Uint63.of_Z (Z.of_nat k)))))
  | _ => Raise TypeError
  end.

(** *** Subscripts, [get], iteration *)

(** [o[k]] for a string [k]; a [Config] is read like a dictionary. *)
Definition getitem (o : value) (k : string) : result value :=
  match o with
  | VDict d =>
      match d !! k with
      | Some v => Ok v
      | None => Raise (KeyError k)
      end
  | _ => Raise TypeError
  end.

(** [o[k] = v] for a string [k] *)
Definition setitem (o : value) (k : string) (v : value) : result value :=
  match o with
  | VDict d => Ok (VDict (<[k := v]> d))
  | _ => Raise TypeError
  end.

(** [o.get(k, dflt)] *)
Definition get_default (o : value) (k : string) (dflt : value) : result value :=
  match o with
  | VDict d => Ok (default dflt (d !! k))
  | _ => Raise (AttributeError "get")
  end.

(** [o.name] on a [Config]: its entries are its attributes. *)
Definition getattr (o : value) (name : string) : result value :=
  match o with
  | VDict d =>
      match d !! name with
      | Some v => Ok v
      | None => Raise (AttributeError name)
      end
  | _ => Raise (AttributeError name)
  end.

(** [o.name = v] on a [Config] *)
Definition setattr (o : value) (name : string) (v : value) : result value :=
  match o with
  | VDict d => Ok (VDict (<[name := v]> d))
  | _ => Raise (AttributeError name)
  end.

(** [o.to_dict] on a [Config]: a plain-dictionary copy. *)
Definition to_dict (o : value) : result value :=
  match o with
  | VDict d => Ok (VDict d)
  | _ => Raise (AttributeError "to_dict")
  end.

(** [o[i]] for a natural number [i] *)
Definition index (o : value) (i : nat) : result value :=
  match o with
  | VList l =>
      match l !! i with
      | Some v => Ok v
      | None => Raise IndexError
      end
  | VStr s =>
      match String.get i s with
      | Some c => Ok (VStr (String c EmptyString))
      | None => Raise IndexError
      end
  | VDict _ => Raise (KeyError "")
  | _ => Raise TypeError
  end.

Fixpoint chars (s : string) : list value :=
  match s with
  | EmptyString => []
  | String c s' => VStr (String c EmptyString) :: chars s'
  end.

(** The elements [for x in o] goes through.  A dictionary yields its keys;
    the finite map gives them in its own order, not in insertion order. *)
Definition iterate (o : value) : result (list value) :=
  match o with
  | VList l => Ok l
  | VStr s => Ok (chars s)
  | VDict d => Ok ((fun kv => VStr kv.1) <$> map_to_list d)
  | _ => Raise TypeError
  end.

(** An integer subscript: [bool] counts as [int], negative numbers count
    from the end. *)
Definition as_index (key : value) : option Z :=
  match key with
  | VInt z => Some z
  | VBool b => Some (if b then 1 else 0)
  | _ => None
  end.

Definition position (n : nat) (z : Z) : option nat :=
  let i := if z <? 0 then z + Z.of_nat n else z in
  if (0 <=? i) && (i <? Z.of_nat n) then Some (Z.to_nat i) else None.

(** [o[key]] and [o[key] = v] when [key] is a value met while iterating.
    Dictionaries of this model have string keys only: reading another
    hashable key finds nothing, writing one leaves the model. *)
Definition getitem_value (o key : value) : result value :=
  match o, key with
  | VDict _, VStr k => getitem o k
  | VDict _, (VList _ | VDict _) => Raise TypeError
  | VDict _, _ => Raise (KeyError "")
  | VList l, _ =>
      match as_index key with
      | Some z =>
          match position (length l) z with
          | Some i => index o i
          | None => Raise IndexError
          end
      | None => Raise TypeError
      end
  | VStr s, _ =>
      match as_index key with
      | Some z =>
          match position (String.length s) z with
          | Some i => index o i
          | None => Raise IndexError
          end
      | None => Raise TypeError
      end
  | _, _ => Raise TypeError
  end.

Definition setitem_value (o key v : value) : result value :=
  match o, key with
  | VDict _, VStr k => setitem o k v
  | VDict _, (VList _ | VDict _) => Raise TypeError
  | VDict _, _ => Raise (OutsideModel "dictionary key that is not a string")
  | VList l, _ =>
      match as_index key with
      | Some z =>
          match position (length l) z with
          | Some i => Ok (VList (<[i := v]> l))
          | None => Raise IndexError
          end
      | None => Raise TypeError
      end
  | _, _ => Raise TypeError
  end.

(** [o.update({...})] with string keys, in the order written. *)
Definition update (o : value) (kvs : list (string * value)) : result value :=
  match o with
  | VDict d => Ok (VDict (foldl (fun m kv => <[kv.1 := kv.2]> m) d kvs))
  | _ => Raise (AttributeError "update")
  end.

(** ** The agent object and the monad *)

(** A call that leaves the file: the callee and its arguments (keyword
    arguments as one dictionary). *)
Definition call : Type := string * list value.

(** The attributes of [self].  [algo_args] is bound at line 100, [model]
    and [models] only on some paths: reading an unbound one is an
    [AttributeError].  Each configuration attribute holds the content of
    the object bound to it, and the functions of this part assign under
    one attribute at a time: this is the code for a caller who passes four
    separate objects.  [Shared], further down, gives every argument the
    identity of its object, for a caller who passes one object twice. *)
Record state : Type := mkState {
  env_args : value;
  model_args : value;
  buffer_args : value;
  train_args : value;
  algo_args : option value;
  _name : option value;
  start_time : option value;
  _allow_print : option bool;
  env : option value;
  multi_agents_training : option bool;
  model : option value;
  models : option (list value);
  trace : list call
}.

Definition set_env_args (v : value) (s : state) : state :=
  mkState v (model_args s) (buffer_args s) (train_args s) (algo_args s) (_name s)
    (start_time s) (_allow_print s) (env s) (multi_agents_training s) (model s)
    (models s) (trace s).
Definition set_model_args (v : value) (s : state) : state :=
  mkState (env_args s) v (buffer_args s) (train_args s) (algo_args s) (_name s)
    (start_time s) (_allow_print s) (env s) (multi_agents_training s) (model s)
    (models s) (trace s).
Definition set_buffer_args (v : value) (s : state) : state :=
  mkState (env_args s) (model_args s) v (train_args s) (algo_args s) (_name s)
    (start_time s) (_allow_print s) (env s) (multi_agents_training s) (model s)
    (models s) (trace s).
Definition set_train_args (v : value) (s : state) : state :=
  mkState (env_args s) (model_args s) (buffer_args s) v (algo_args s) (_name s)
    (start_time s) (_allow_print s) (env s) (multi_agents_training s) (model s)
    (models s) (trace s).
Definition set_algo_args (v : value) (s : state) : state :=
  mkState (env_args s) (model_args s) (buffer_args s) (train_args s) (Some v) (_name s)
    (start_time s) (_allow_print s) (env s) (multi_agents_training s) (model s)
    (models s) (trace s).
Definition set_name (v : value) (s : state) : state :=
  mkState (env_args s) (model_args s) (buffer_args s) (train_args s) (algo_args s) (Some v)
    (start_time s) (_allow_print s) (env s) (multi_agents_training s) (model s)
    (models s) (trace s).
Definition set_start_time (v : value) (s : state) : state :=
  mkState (env_args s) (model_args s) (buffer_args s) (train_args s) (algo_args s) (_name s)
    (Some v) (_allow_print s) (env s) (multi_agents_training s) (model s)
    (models s) (trace s).
Definition set_allow_print (b : bool) (s : state) : state :=
  mkState (env_args s) (model_args s) (buffer_args s) (train_args s) (algo_args s) (_name s)
    (start_time s) (Some b) (env s) (multi_agents_training s) (model s)
    (models s) (trace s).
Definition set_env (v : value) (s : state) : state :=
  mkState (env_args s) (model_args s) (buffer_args s) (train_args s) (algo_args s) (_name s)
    (start_time s) (_allow_print s) (Some v) (multi_agents_training s) (model s)
    (models s) (trace s).
Definition set_multi_agents_training (b : bool) (s : state) : state :=
  mkState (env_args s) (model_args s) (buffer_args s) (train_args s) (algo_args s) (_name s)
    (start_time s) (_allow_print s) (env s) (Some b) (model s)
    (models s) (trace s).
Definition set_model (v : value) (s : state) : state :=
  mkState (env_args s) (model_args s) (buffer_args s) (train_args s) (algo_args s) (_name s)
    (start_time s) (_allow_print s) (env s) (multi_agents_training s) (Some v)
    (models s) (trace s).
Definition set_models (l : list value) (s : state) : state :=
  mkState (env_args s) (model_args s) (buffer_args s) (train_args s) (algo_args s) (_name s)
    (start_time s) (_allow_print s) (env s) (multi_agents_training s) (model s)
    (Some l) (trace s).
Definition record_call (c : call) (s : state) : state :=
  mkState (env_args s) (model_args s) (buffer_args s) (train_args s) (algo_args s) (_name s)
    (start_time s) (_allow_print s) (env s) (multi_agents_training s) (model s)
    (models s) (trace s ++ [c]).

(** A computation returns or raises, and leaves a state either way: what
    was assigned before an exception stays assigned. *)
Definition M (A : Type) : Type := state -> result A * state.

#[global] Instance M_ret : MRet M := fun A a s => (Ok a, s).
#[global] Instance M_bind : MBind M := fun A B f m s =>
  match m s with
  | (Ok a, s') => f a s'
  | (Raise e, s') => (Raise e, s')
  end.

Definition raise {A} (e : exn) : M A := fun s => (Raise e, s).
Definition lift {A} (r : result A) : M A := fun s => (r, s).
Definition read {A} (f : state -> A) : M A := fun s => (Ok (f s), s).
Definition write (f : state -> state) : M unit := fun s => (Ok tt, f s).

(** [self.name] for an attribute that may be unbound. *)
Definition attr {A} (f : state -> option A) (name : string) : M A := fun s =>
  match f s with
  | Some a => (Ok a, s)
  | None => (Raise (AttributeError name), s)
  end.

(** [try: body finally: fin] *)
Definition try_finally {A} (body : M A) (fin : M unit) : M A := fun s =>
  match body s with
  | (r, s1) =>
      match fin s1 with
      | (Ok _, s2) => (r, s2)
      | (Raise e, s2) => (Raise e, s2)
      end
  end.

(** [try: body except Exception as e: handler] *)
Definition try_except {A} (body : M A) (handler : exn -> M A) : M A := fun s =>
  match body s with
  | (Ok a, s1) => (Ok a, s1)
  | (Raise e, s1) => if is_Exception e then handler e s1 else (Raise e, s1)
  end.

(** [for x in l: body x] *)
Fixpoint for_each {A} (l : list A) (body : A -> M unit) : M unit :=
  match l with
  | [] => mret tt
  | x :: l' => body x ;; for_each l' body
  end.

Definition kwargs (l : list (string * value)) : value := VDict (list_to_map l).

(** [s.ljust(28)] and [s.rjust(28)] *)
Fixpoint spaces (n : nat) : string :=
  match n with
  | O => ""
  | S n' => String " "%char (spaces n')
  end.

Definition ljust (v : value) (w : nat) : result string :=
  match v with
  | VStr s => Ok (s ++ spaces (w - String.length s))%string
  | _ => Raise (AttributeError "ljust")
  end.

Definition rjust (v : value) (w : nat) : result string :=
  match v with
  | VStr s => Ok (spaces (w - String.length s) ++ s)%string
  | _ => Raise (AttributeError "rjust")
  end.

(** ['-' * 60] *)
Fixpoint dashes (n : nat) : string :=
  match n with
  | O => ""
  | S n' => String "-"%char (dashes n')
  end.

(** [a, b, c, d = v] *)
Definition unpack4 (v : value) : result (value * value * value * value) :=
  match iterate v with
  | Ok [a; b; c; d] => Ok (a, b, c, d)
  | Ok _ => Raise ValueError
  | Raise e => Raise e
  end.

(** [copy.deepcopy]: configuration values are trees without sharing, so the
    copy is the value itself, from then on updated on its own. *)
Definition deepcopy (v : value) : value := v.

(** The text handed to the logger for a caught exception. *)
Definition describe (e : exn) : value :=
  match e with
  | KeyError k => VStr k
  | AttributeError n | NameError n => VStr n
  | AssertionError m | Exception m => VStr m
  | UserError c => VStr c
  | OutsideModel w => VStr w
  | TypeError => VStr "TypeError"
  | ValueError => VStr "ValueError"
  | IndexError => VStr "IndexError"
  | SystemExit => VStr "SystemExit"
  end.

#[global] Instance result_ret : MRet result := fun A a => Ok a.
#[global] Instance result_bind : MBind result := fun A B f r =>
  match r with
  | Ok a => f a
  | Raise e => Raise e
  end.

(** In [o[k1][k2] = v] the inner object is changed in place; in a tree the
    changed inner value is put back under [k1]. *)
Definition put_back (o : value) (k : string) (inner : value) : value :=
  match o with
  | VDict d => VDict (<[k := inner]> d)
  | _ => o
  end.

(** [o[k1][k2] = v] for a key [k1] that is itself a value *)
Definition setitem2 (o k1 : value) (k2 : string) (v : value) : result value :=
  inner ← getitem_value o k1;
  inner' ← setitem inner k2 v;
  match k1 with
  | VStr k => Ok (put_back o k inner')
  | _ => Raise (OutsideModel "dictionary key that is not a string")
  end.

(** ['Nstep' in ty or 'Episode' in ty] *)
Definition nstep_or_episode (ty : value) : result bool :=
  c ← contains ty "Nstep";
  if c : bool then Ok true else contains ty "Episode".

(** ** The module *)

Section agent.

(** What the outside answers to a call, given the calls made so far.  The
    callee names are the source's: [make_env], [get_model_info],
    [load_config], [get_buffer], [os.path.join], the methods of the model
    and of the environment, the training loops, and the builtins [pow],
    [int] and [str]. *)
Variable outside : list call -> call -> result value.

Definition ext (fn : string) (args : list value) : M value := fun s =>
  (outside (trace s) (fn, args), record_call (fn, args) s).

(** [self.field[k]] *)
Definition item (f : state -> value) (k : string) : M value :=
  o ← read f; lift (getitem o k).

(** [self.field.get(k, dflt)] *)
Definition item_default (f : state -> value) (k : string) (dflt : value) : M value :=
  o ← read f; lift (get_default o k dflt).

(** [self.field[k] = v] *)
Definition set_item (f : state -> value) (setf : value -> state -> state)
    (k : string) (v : value) : M unit :=
  o ← read f; o' ← lift (setitem o k v); write (setf o').

(** [self.field[k1][k2] = v] *)
Definition set_item2 (f : state -> value) (setf : value -> state -> state)
    (k1 : value) (k2 : string) (v : value) : M unit :=
  o ← read f; o' ← lift (setitem2 o k1 k2 v); write (setf o').

(** [self.algo_args[k]], [self.algo_args.get(k, dflt)], [self.algo_args[k] = v] *)
Definition algo_item (k : string) : M value :=
  o ← attr algo_args "algo_args"; lift (getitem o k).

Definition algo_default (k : string) (dflt : value) : M value :=
  o ← attr algo_args "algo_args"; lift (get_default o k dflt).

Definition set_algo_item (k : string) (v : value) : M unit :=
  o ← attr algo_args "algo_args"; o' ← lift (setitem o k v); write (set_algo_args o').

(** The names bound at module level by the imports and definitions of
    [agent.py] (lines 4-39, 42, 54, 75). *)
Definition module_names : list string :=
  ["os"; "sys"; "time"; "logging"; "logger"; "np"; "deepcopy"; "Path";
   "Dict"; "NoReturn"; "Optional"; "Config"; "make_env"; "save_config";
   "load_config"; "gym_train"; "gym_no_op"; "gym_inference"; "unity_train";
   "unity_no_op"; "unity_inference"; "ma_unity_no_op"; "ma_unity_train";
   "ma_unity_inference"; "get_model_info"; "get_time_hhmmss"; "get_buffer";
   "ShowConfig"; "UpdateConfig"; "Agent"].

Definition bound (name : string) : bool :=
  existsb (String.eqb name) module_names.

(** Looking a global name up: unbound names raise [NameError]. *)
Definition global (name : string) : M unit :=
  if bound name then mret tt else raise (NameError name).

(** [ShowConfig] (lines 42-51) *)
Definition ShowConfig (config : value) : M unit :=
  keys ← lift (iterate config);
  for_each keys (fun key =>
    ext "logger.info" [VStr (dashes 60)] ;;
    k ← ext "str" [key];
    kl ← lift (ljust k 28);
    v ← lift (getitem_value config key);
    sv ← ext "str" [v];
    vr ← lift (rjust sv 28);
    ext "logger.info" [VStr ("|" ++ kl ++ vr ++ "|")%string] ;;
    mret tt) ;;
  ext "logger.info" [VStr (dashes 60)] ;;
  mret tt.

(** The loop of [UpdateConfig] (lines 67-68): [config] is a local object,
    changed key after key. *)
Fixpoint update_keys (config key_values : value) (keys : list value) : result value :=
  match keys with
  | [] => Ok config
  | key :: keys' =>
      match getitem_value key_values key with
      | Ok v =>
          match setitem_value config key v with
          | Ok config' => update_keys config' key_values keys'
          | Raise e => Raise e
          end
      | Raise e => Raise e
      end
  end.

(** [UpdateConfig] (lines 54-72).  The dictionary is changed in place and
    returned; the value returned here is that same object after the call. *)
Definition UpdateConfig (config file_path : value) (key_name : string) : M value :=
  global "load_config" ;;
  _config ← ext "load_config" [file_path];
  key_values ← lift (getitem _config key_name);
  try_except
    (keys ← lift (iterate key_values);
     lift (update_keys config key_values keys))
    (fun e =>
       ext "logger.info" [describe e] ;;
       raise SystemExit).


(** ** class Agent *)

(** Lines 85-94 of [__init__]. *)
Definition init_attributes (env_args0 model_args0 buffer_args0 train_args0 : value) : M unit :=
  write (set_env_args env_args0) ;;
  write (set_model_args model_args0) ;;
  write (set_buffer_args buffer_args0) ;;
  write (set_train_args train_args0) ;;
  name ← item train_args "name";
  write (set_name name) ;;
  base_dir ← item train_args "base_dir";
  name ← item train_args "name";
  path ← ext "os.path.join" [base_dir; name];
  set_item model_args set_model_args "base_dir" path ;;
  now ← ext "time.time" [];
  write (set_start_time now) ;;
  allow ← item_default train_args "allow_print" (VBool false);
  write (set_allow_print (truthy allow)).

(** Lines 97-107: the environment and the algorithm's configuration.
    Returns the local names [Model] and [_policy_mode]. *)
Definition init_algorithm : M (value * value) :=
  global "make_env" ;;
  ea ← read env_args;
  d ← lift (to_dict ea);
  e ← ext "make_env" [d];
  write (set_env e) ;;
  global "get_model_info" ;;
  algo ← item model_args "algo";
  info ← ext "get_model_info" [algo];
  '(Model, algo_args0, _policy_mode, _policy_type) ← lift (unpack4 info);
  write (set_algo_args algo_args0) ;;
  write (set_multi_agents_training (eq_str _policy_type "multi")) ;;
  set_item train_args set_train_args "policy_mode" _policy_mode ;;
  algo_config ← item model_args "algo_config";
  (if is_None algo_config then mret tt
   else
     config ← attr algo_args "algo_args";
     file_path ← item model_args "algo_config";
     config' ← UpdateConfig config file_path "algo";
     write (set_algo_args config')) ;;
  use_rnn ← item model_args "use_rnn";
  set_algo_item "use_rnn" use_rnn ;;
  config ← attr algo_args "algo_args";
  ShowConfig config ;;
  mret (Model, _policy_mode).

(** Lines 124-128 and 132-135: the n-step branches, for the variant [ty]. *)
Definition nstep_gamma (ty : string) : M unit :=
  gamma ← algo_item "gamma";
  set_item2 buffer_args set_buffer_args (VStr ty) "gamma" gamma ;;
  gamma ← algo_item "gamma";
  sub ← item buffer_args ty;
  n ← lift (getitem sub "n");
  gamma_n ← ext "pow" [gamma; n];
  set_algo_item "gamma" gamma_n.

(** Lines 126 and 131: the priority branches, for the variant [ty]. *)
Definition priority_budget (ty : string) : M unit :=
  budget ← item train_args "max_train_step";
  set_item2 buffer_args set_buffer_args (VStr ty) "max_train_step" budget.

(** Lines 110-140: the choice of the replay buffer. *)
Definition init_buffer (_policy_mode : value) : M unit :=
  if eq_str _policy_mode "off-policy" then
    use_rnn ← algo_item "use_rnn";
    if eq_True use_rnn then
      set_item buffer_args set_buffer_args "type" (VStr "EpisodeER") ;;
      v ← algo_default "episode_batch_size" (VInt 0);
      set_item buffer_args set_buffer_args "batch_size" v ;;
      v ← algo_default "episode_buffer_size" (VInt 0);
      set_item buffer_args set_buffer_args "buffer_size" v ;;
      v ← algo_default "burn_in_time_step" (VInt 0);
      set_item2 buffer_args set_buffer_args (VStr "EpisodeER") "burn_in_time_step" v ;;
      v ← algo_default "train_time_step" (VInt 0);
      set_item2 buffer_args set_buffer_args (VStr "EpisodeER") "train_time_step" v
    else
      v ← algo_default "batch_size" (VInt 0);
      set_item buffer_args set_buffer_args "batch_size" v ;;
      v ← algo_default "buffer_size" (VInt 0);
      set_item buffer_args set_buffer_args "buffer_size" v ;;
      _use_priority ← algo_default "use_priority" (VBool false);
      _n_step ← algo_default "n_step" (VBool false);
      if truthy _use_priority && truthy _n_step then
        set_item buffer_args set_buffer_args "type" (VStr "NstepPER") ;;
        priority_budget "NstepPER" ;;
        nstep_gamma "NstepPER"
      else if truthy _use_priority then
        set_item buffer_args set_buffer_args "type" (VStr "PER") ;;
        priority_budget "PER"
      else if truthy _n_step then
        set_item buffer_args set_buffer_args "type" (VStr "NstepER") ;;
        nstep_gamma "NstepER"
      else
        set_item buffer_args set_buffer_args "type" (VStr "ER")
  else
    set_item buffer_args set_buffer_args "type" (VStr "None") ;;
    set_item train_args set_train_args "pre_fill_steps" (VInt 0).

(** [self.env.name], [self.model_args.name] *)
Definition env_attr (name : string) : M value :=
  e ← attr env "env"; ext "getattr" [e; VStr name].

Definition config_attr (f : state -> value) (name : string) : M value :=
  o ← read f; lift (getattr o name).

(** Lines 152-153 and 195-196 *)
Definition agents_num_of_env_num : M unit :=
  ty ← item buffer_args "type";
  c ← lift (nstep_or_episode ty);
  if c : bool then
    n ← item env_args "env_num";
    ty ← item buffer_args "type";
    set_item2 buffer_args set_buffer_args ty "agents_num" n
  else mret tt.

(** Lines 174-177, 216-219 and 259-262 *)
Definition begin_from (m : value) : M unit :=
  _train_info ← ext "model.get_init_training_info" [m];
  v ← lift (getitem _train_info "train_step");
  set_item train_args set_train_args "begin_train_step" v ;;
  v ← lift (getitem _train_info "frame_step");
  set_item train_args set_train_args "begin_frame_step" v ;;
  v ← lift (getitem _train_info "episode");
  set_item train_args set_train_args "begin_episode" v.

(** [self.algo_args.update({...})]: the method is looked up before the
    entries are evaluated. *)
Definition algo_update (entries : M (list (string * value))) : M unit :=
  o ← attr algo_args "algo_args";
  lift (update o []) ;;
  kvs ← entries;
  o ← attr algo_args "algo_args";
  o' ← lift (update o kvs);
  write (set_algo_args o').

(** Lines 142-188: a gym environment. *)
Definition init_gym (Model : value) : M unit :=
  use_wandb ← item train_args "use_wandb";
  (if truthy use_wandb then
     ext "import" [VStr "wandb"] ;;
     base_dir ← config_attr model_args "base_dir";
     wandb_path ← ext "os.path.join" [base_dir; VStr "wandb"];
     there ← ext "os.path.exists" [wandb_path];
     (if truthy there then mret tt
      else ext "os.makedirs" [wandb_path] ;; mret tt) ;;
     name ← item train_args "name";
     dir ← config_attr model_args "base_dir";
     project ← item train_args "wandb_project";
     ext "wandb.init" [kwargs [("sync_tensorboard", VBool true); ("name", name);
                               ("dir", dir); ("project", project)]] ;;
     mret tt
   else mret tt) ;;
  agents_num_of_env_num ;;
  global "get_buffer" ;;
  ba ← read buffer_args;
  buffer ← ext "get_buffer" [ba];
  algo_update
    (s_dim ← env_attr "s_dim";
     visual_sources ← env_attr "visual_sources";
     visual_resolution ← env_attr "visual_resolution";
     a_dim ← env_attr "a_dim";
     is_continuous ← env_attr "is_continuous";
     max_train_step ← config_attr train_args "max_train_step";
     base_dir ← config_attr model_args "base_dir";
     seed ← config_attr model_args "seed";
     n ← env_attr "n";
     mret [("s_dim", s_dim); ("visual_sources", visual_sources);
           ("visual_resolution", visual_resolution); ("a_dim", a_dim);
           ("is_continuous", is_continuous); ("max_train_step", max_train_step);
           ("base_dir", base_dir); ("seed", seed); ("n_agents", n)]) ;;
  aa ← attr algo_args "algo_args";
  m ← ext "Model" [Model; aa];
  write (set_model m) ;;
  m ← attr model "model";
  ext "model.set_buffer" [m; buffer] ;;
  m ← attr model "model";
  path ← item train_args "load_model_path";
  ext "model.init_or_restore" [m; path] ;;
  m ← attr model "model";
  begin_from m ;;
  inference ← item train_args "inference";
  if truthy inference then mret tt
  else
    e ← (o ← read env_args; lift (to_dict o));
    md ← (o ← read model_args; lift (to_dict o));
    b ← (o ← read buffer_args; lift (to_dict o));
    t ← (o ← read train_args; lift (to_dict o));
    a ← attr algo_args "algo_args";
    let records_dict :=
      kwargs [("env", e); ("model", md); ("buffer", b); ("train", t); ("algo", a)] in
    global "save_config" ;;
    base_dir ← config_attr model_args "base_dir";
    path ← ext "os.path.join" [base_dir; VStr "config"];
    ext "save_config" [path; records_dict] ;;
    use_wandb ← item train_args "use_wandb";
    if truthy use_wandb then
      ext "wandb.config.update" [records_dict] ;; mret tt
    else mret tt.

(** Lines 191-228: several agents in a Unity environment. *)
Definition init_unity_multi (Model : value) : M unit :=
  brain_num ← env_attr "brain_num";
  ok ← lift (gt_int brain_num 1);
  (if ok : bool then mret tt
   else raise (AssertionError
     "if using ma* algorithms, number of brains must larger than 1")) ;;
  agents_num_of_env_num ;;
  global "get_buffer" ;;
  ba ← read buffer_args;
  buffer ← ext "get_buffer" [ba];
  algo_update
    (s_dim ← env_attr "s_dim";
     a_dim ← env_attr "a_dim";
     visual_sources ← env_attr "visual_sources";
     visual_resolutions ← env_attr "visual_resolutions";
     is_continuous ← env_attr "is_continuous";
     max_train_step ← config_attr train_args "max_train_step";
     base_dir ← config_attr model_args "base_dir";
     seed ← config_attr model_args "seed";
     brain_agents ← env_attr "brain_agents";
     brain_controls ← env_attr "brain_controls";
     mret [("s_dim", s_dim); ("a_dim", a_dim); ("visual_sources", visual_sources);
           ("visual_resolution", visual_resolutions);
           ("is_continuous", is_continuous); ("max_train_step", max_train_step);
           ("base_dir", base_dir); ("seed", seed); ("n_agents", brain_agents);
           ("brain_controls", brain_controls)]) ;;
  aa ← attr algo_args "algo_args";
  m ← ext "Model" [Model; aa];
  write (set_model m) ;;
  m ← attr model "model";
  ext "model.set_buffer" [m; buffer] ;;
  m ← attr model "model";
  path ← item train_args "load_model_path";
  ext "model.init_or_restore" [m; path] ;;
  m ← attr model "model";
  begin_from m ;;
  inference ← item train_args "inference";
  if truthy inference then mret tt
  else
    e ← (o ← read env_args; lift (to_dict o));
    md ← (o ← read model_args; lift (to_dict o));
    b ← (o ← read buffer_args; lift (to_dict o));
    t ← (o ← read train_args; lift (to_dict o));
    a ← attr algo_args "algo_args";
    let records_dict :=
      kwargs [("env", e); ("model", md); ("buffer", b); ("train", t); ("algo", a)] in
    global "save_config" ;;
    base_dir ← config_attr model_args "base_dir";
    path ← ext "os.path.join" [base_dir; VStr "config"];
    ext "save_config" [path; records_dict] ;;
    mret tt.

(** [self.env.name[i]] *)
Definition env_attr_at (name : string) (i : nat) : M value :=
  l ← env_attr name; lift (index l i).

(** Lines 233-272: the body of the loop over the brains of a Unity
    environment, for the brain [b] at position [i]. *)
Definition init_brain (Model : value) (i : nat) (b : value) : M unit :=
  _bargs ← read (fun s => deepcopy (buffer_args s));
  _margs ← read (fun s => deepcopy (model_args s));
  _aargs ← (o ← attr algo_args "algo_args"; mret (deepcopy o));
  base_dir ← lift (getattr _margs "base_dir");
  path ← ext "os.path.join" [base_dir; b];
  _margs ← lift (setattr _margs "base_dir" path);
  given ← item train_args "load_model_path";
  _load_model_path ←
    (if truthy given then
       given ← item train_args "load_model_path";
       ext "os.path.join" [given; b]
     else item train_args "load_model_path");
  ty ← lift (getitem _bargs "type");
  c ← lift (nstep_or_episode ty);
  _bargs ←
    (if c : bool then
       n ← env_attr_at "brain_agents" i;
       ty ← lift (getitem _bargs "type");
       lift (setitem2 _bargs ty "agents_num" n)
     else mret _bargs);
  global "get_buffer" ;;
  buffer ← ext "get_buffer" [_bargs];
  seed ← lift (getitem _margs "seed");
  seed ← lift (add_nat seed (i * 10));
  _margs ← lift (setitem _margs "seed" seed);
  lift (update _aargs []) ;;
  s_dim ← env_attr_at "s_dim" i;
  a_dim ← env_attr_at "a_dim" i;
  visual_sources ← env_attr_at "visual_sources" i;
  visual_resolutions ← env_attr_at "visual_resolutions" i;
  is_continuous ← env_attr_at "is_continuous" i;
  max_train_step ← config_attr train_args "max_train_step";
  base_dir ← lift (getattr _margs "base_dir");
  seed ← lift (getattr _margs "seed");
  brain_agents ← env_attr_at "brain_agents" i;
  _aargs ← lift (update _aargs
    [("s_dim", s_dim); ("a_dim", a_dim); ("visual_sources", visual_sources);
     ("visual_resolution", visual_resolutions); ("is_continuous", is_continuous);
     ("max_train_step", max_train_step); ("base_dir", base_dir); ("seed", seed);
     ("n_agents", brain_agents)]);
  m ← ext "Model" [Model; _aargs];
  ext "model.set_buffer" [m; buffer] ;;
  ext "model.init_or_restore" [m; _load_model_path] ;;
  ms ← attr models "models";
  write (set_models (ms ++ [m])) ;;
  (if Nat.eqb i 0 then begin_from m else mret tt) ;;
  inference ← item train_args "inference";
  if truthy inference then mret tt
  else
    e ← (o ← read env_args; lift (to_dict o));
    md ← lift (to_dict _margs);
    bd ← lift (to_dict _bargs);
    t ← (o ← read train_args; lift (to_dict o));
    let records_dict :=
      kwargs [("env", e); ("model", md); ("buffer", bd); ("train", t); ("algo", _aargs)] in
    global "save_config" ;;
    base_dir ← lift (getattr _margs "base_dir");
    path ← ext "os.path.join" [base_dir; VStr "config"];
    ext "save_config" [path; records_dict] ;;
    mret tt.

Fixpoint enumerate_from {A} (i : nat) (l : list A) : list (nat * A) :=
  match l with
  | [] => []
  | x :: l' => (i, x) :: enumerate_from (S i) l'
  end.

(** Lines 230-272: one model for each brain of a Unity environment. *)
Definition init_unity_single (Model : value) : M unit :=
  write (set_models []) ;;
  names ← env_attr "fixed_brain_names";
  brains ← lift (iterate names);
  for_each (enumerate_from 0 brains) (fun ib => init_brain Model ib.1 ib.2).

(** [Agent.__init__] (lines 76-273) *)
Definition __init__ (env_args0 model_args0 buffer_args0 train_args0 : value) : M unit :=
  init_attributes env_args0 model_args0 buffer_args0 train_args0 ;;
  '(Model, _policy_mode) ← init_algorithm;
  init_buffer _policy_mode ;;
  ty ← item env_args "type";
  if eq_str ty "gym" then init_gym Model
  else
    multi ← attr multi_agents_training "multi_agents_training";
    if multi : bool then init_unity_multi Model
    else init_unity_single Model.

(** A new object, before [__init__] runs: the configuration attributes hold
    [None] until lines 85-88 bind them. *)
Definition new_agent (calls : list call) : state :=
  mkState VNone VNone VNone VNone None None None None None None None None calls.

Definition as_str (v : value) : result string :=
  match v with
  | VStr s => Ok s
  | _ => Raise TypeError
  end.

Fixpoint join (l : list value) : result string :=
  match l with
  | [] => Ok ""
  | v :: l' => s ← as_str v; r ← join l'; Ok (s ++ r)%string
  end.

(** [Agent.pwi] (lines 275-282) *)
Definition pwi (args : list value) (out_time : bool) : M unit :=
  allow ← attr _allow_print "_allow_print";
  if allow : bool then
    name ← attr _name "_name";
    shown ← ext "str" [name];
    shown ← lift (as_str shown);
    let model_info := ("| Model-" ++ shown ++ " |")%string in
    model_info ←
      (if out_time then
         global "get_time_hhmmss" ;;
         since ← attr start_time "start_time";
         passed ← ext "get_time_hhmmss" [since];
         passed ← ext "str" [passed];
         passed ← lift (as_str passed);
         mret (model_info ++ "Pass time(h:m:s) " ++ passed ++ " |")%string
       else mret model_info);
    text ← lift (join (VStr model_info :: args));
    ext "logger.info" [VStr text] ;;
    mret tt
  else mret tt.

(** The bound method [self.pwi] handed to the training loops. *)
Definition pwi_method : value := VStr "Agent.pwi".

(** How a keyword argument is computed from [self.train_args]:
    [int(...)], [bool(...)] or [str(...)] of a subscript, or of a [get]
    with a default. *)
Inductive conversion : Type := AsInt | AsBool | AsStr.

Definition convert (c : conversion) (v : value) : M value :=
  match c with
  | AsInt => ext "int" [v]
  | AsBool => mret (VBool (truthy v))
  | AsStr => ext "str" [v]
  end.

Definition train_arg (spec : string * conversion * string * option value) : M (string * value) :=
  let '(kw, c, key, dflt) := spec in
  v ← match dflt with
      | None => item train_args key
      | Some d => item_default train_args key d
      end;
  v' ← convert c v;
  mret (kw, v').

Fixpoint train_kwargs (specs : list (string * conversion * string * option value))
    : M (list (string * value)) :=
  match specs with
  | [] => mret []
  | spec :: specs' =>
      kv ← train_arg spec;
      rest ← train_kwargs specs';
      mret (kv :: rest)
  end.

Definition same (c : conversion) (key : string) : string * conversion * string * option value :=
  (key, c, key, None).

(** [fn(env=self.env, model=self.model, print_func=self.pwi, ...)] and
    [fn(env=self.env, models=self.models, print_func=self.pwi, ...)] *)
Definition call_loop (fn : string) (plural : bool)
    (specs : list (string * conversion * string * option value)) : M unit :=
  global fn ;;
  e ← attr env "env";
  m ← (if plural then ms ← attr models "models"; mret ("models", VList ms)
       else m ← attr model "model"; mret ("model", m));
  rest ← train_kwargs specs;
  ext fn [kwargs (("env", e) :: m :: ("print_func", pwi_method) :: rest)] ;;
  mret tt.

Definition close_model : M unit :=
  m ← attr model "model"; ext "model.close" [m] ;; mret tt.

Definition close_models : M unit :=
  ms ← attr models "models";
  for_each ms (fun m => ext "model.close" [m] ;; mret tt).

Definition close_env : M unit :=
  e ← attr env "env"; ext "env.close" [e] ;; mret tt.

(** [Agent.train] (lines 287-388) *)
Definition train : M unit :=
  ty ← item env_args "type";
  if eq_str ty "gym" then
    try_finally
      (call_loop "gym_no_op" false
         [same AsInt "pre_fill_steps"; same AsBool "prefill_choose"] ;;
       call_loop "gym_train" false
         [same AsInt "begin_train_step"; same AsInt "begin_frame_step";
          same AsInt "begin_episode"; same AsBool "render";
          ("render_episode", AsInt, "render_episode", Some (VInt 50000));
          same AsInt "save_frequency"; same AsInt "max_step_per_episode";
          same AsInt "max_train_episode"; same AsBool "eval_while_train";
          same AsInt "max_eval_episode"; same AsInt "off_policy_step_eval_episodes";
          same AsInt "off_policy_train_interval"; same AsStr "policy_mode";
          same AsInt "moving_average_episode"; same AsBool "add_noise2buffer";
          same AsInt "add_noise2buffer_episode_interval";
          same AsInt "add_noise2buffer_steps"; same AsInt "off_policy_eval_interval";
          same AsInt "max_train_step"; same AsInt "max_frame_step"])
      (close_model ;; close_env)
  else
    multi ← attr multi_agents_training "multi_agents_training";
    if multi : bool then
      try_finally
        (call_loop "ma_unity_no_op" false
           [same AsInt "pre_fill_steps"; same AsBool "prefill_choose";
            same AsBool "real_done"] ;;
         call_loop "ma_unity_train" false
           [same AsInt "begin_train_step"; same AsInt "begin_frame_step";
            same AsInt "begin_episode"; same AsInt "save_frequency";
            same AsInt "max_step_per_episode"; same AsInt "max_train_step";
            same AsInt "max_frame_step"; same AsInt "max_train_episode";
            same AsStr "policy_mode"; same AsInt "moving_average_episode";
            same AsBool "real_done"; same AsInt "off_policy_train_interval"])
        (close_model ;; close_env)
    else
      try_finally
        (call_loop "unity_no_op" true
           [same AsInt "pre_fill_steps"; same AsBool "prefill_choose";
            same AsBool "real_done"] ;;
         call_loop "unity_train" true
           [same AsInt "begin_train_step"; same AsInt "begin_frame_step";
            same AsInt "begin_episode"; same AsInt "save_frequency";
            same AsInt "max_step_per_episode"; same AsInt "max_train_episode";
            same AsStr "policy_mode"; same AsInt "moving_average_episode";
            same AsBool "add_noise2buffer";
            same AsInt "add_noise2buffer_episode_interval";
            same AsInt "add_noise2buffer_steps"; same AsInt "max_train_step";
            same AsInt "max_frame_step"; same AsBool "real_done";
            same AsInt "off_policy_train_interval"])
        (close_models ;; close_env).

(** [Agent.__call__] (lines 284-285) *)
Definition __call__ : M unit := train.

(** [fn(env=self.env, model=self.model, episodes=...)] and
    [fn(env=self.env, models=self.models, episodes=...)] *)
Definition call_inference (fn : string) (plural : bool) : M unit :=
  global fn ;;
  e ← attr env "env";
  m ← (if plural then ms ← attr models "models"; mret ("models", VList ms)
       else m ← attr model "model"; mret ("model", m));
  v ← item train_args "inference_episode";
  ext fn [kwargs [("env", e); m; ("episodes", v)]] ;;
  mret tt.

(** [Agent.evaluate] (lines 390-409) *)
Definition evaluate : M unit :=
  ty ← item env_args "type";
  if eq_str ty "gym" then call_inference "gym_inference" false
  else
    multi ← attr multi_agents_training "multi_agents_training";
    if multi : bool then call_inference "ma_unity_inference" false
    else call_inference "unity_inference" true.

(** [Agent.run] (lines 411-419) *)
Definition run (mode : value) : M unit :=
  if eq_str mode "worker" then
    global "ApexWorker" ;;
    e ← attr env "env";
    ms ← attr models "models";
    worker ← ext "ApexWorker" [e; VList ms];
    ext "__call__" [worker] ;;
    mret tt
  else if eq_str mode "learner" then
    global "ApexLearner" ;;
    ms ← attr models "models";
    learner ← ext "ApexLearner" [VList ms];
    ext "__call__" [learner] ;;
    mret tt
  else if eq_str mode "buffer" then
    global "ApexBuffer" ;;
    server ← ext "ApexBuffer" [];
    ext "__call__" [server] ;;
    mret tt
  else raise (Exception "unknown mode").

End agent.

(** * Properties *)

Local Open Scope list_scope.

(** ** Reasoning about computations *)

(** [m] leaves the observation [f] of the state as it found it, whether it
    returns or raises. *)
Definition keeps {X A} (f : state → X) (m : M A) : Prop :=
  ∀ s, f (m s).2 = f s.

(** [m] only adds calls to the trace, and each satisfies [P]. *)
Definition emits {A} (P : call → Prop) (m : M A) : Prop :=
  ∀ s, ∃ l, trace (m s).2 = trace s ++ l ∧ Forall P l.

(** The attributes of the object, the trace apart. *)
Definition attributes (s : state) : state :=
  mkState (env_args s) (model_args s) (buffer_args s) (train_args s) (algo_args s)
    (_name s) (start_time s) (_allow_print s) (env s) (multi_agents_training s)
    (model s) (models s) [].

Section keeps.
Context {X : Type} (f : state → X).

Lemma keeps_ret {A} (a : A) : keeps f (mret a).
Proof. by intros s. Qed.

Lemma keeps_bind {A B} (m : M A) (k : A → M B) :
  keeps f m → (∀ a, keeps f (k a)) → keeps f (m ≫= k).
Proof.
  intros Hm Hk s. unfold mbind, M_bind. specialize (Hm s).
  destruct (m s) as [[a|e] s1]; cbn in *; [|done]. by rewrite Hk.
Qed.

Lemma keeps_lift {A} (r : result A) : keeps f (lift r).
Proof. by intros s. Qed.

Lemma keeps_raise {A} (e : exn) : keeps f (raise e : M A).
Proof. by intros s. Qed.

Lemma keeps_read {A} (g : state → A) : keeps f (read g).
Proof. by intros s. Qed.

Lemma keeps_attr {A} (g : state → option A) name : keeps f (attr g name).
Proof. intros s. unfold attr. by destruct (g s). Qed.

Lemma keeps_global name : keeps f (global name).
Proof. intros s. unfold global. by destruct (bound name). Qed.

Lemma keeps_write (g : state → state) : (∀ s, f (g s) = f s) → keeps f (write g).
Proof. intros Hg s. apply Hg. Qed.

Lemma keeps_try_finally {A} (body : M A) (fin : M unit) :
  keeps f body → keeps f fin → keeps f (try_finally body fin).
Proof.
  intros Hb Hf s. unfold try_finally. specialize (Hb s).
  destruct (body s) as [r s1]. specialize (Hf s1).
  destruct (fin s1) as [[[]|e] s2]; cbn in *; congruence.
Qed.

Lemma keeps_try_except {A} (body : M A) (handler : exn → M A) :
  keeps f body → (∀ e, keeps f (handler e)) → keeps f (try_except body handler).
Proof.
  intros Hb Hh s. unfold try_except. specialize (Hb s).
  destruct (body s) as [[a|e] s1]; cbn in *; [done|].
  destruct (is_Exception e); [|done]. by rewrite Hh.
Qed.

Lemma keeps_for_each {A} (l : list A) (body : A → M unit) :
  (∀ a, keeps f (body a)) → keeps f (for_each l body).
Proof.
  intros Hb. induction l as [|a l IH]; cbn [for_each].
  - apply keeps_ret.
  - apply keeps_bind; [apply Hb | intros _; apply IH].
Qed.

Hypothesis f_trace : ∀ c s, f (record_call c s) = f s.

Lemma keeps_ext outside fn args : keeps f (ext outside fn args).
Proof. intros s. apply f_trace. Qed.

End keeps.

Section emits.
Context (P : call → Prop).

Lemma emits_same {A} (m : M A) : (∀ s, trace (m s).2 = trace s) → emits P m.
Proof. intros H s. exists []. by rewrite app_nil_r. Qed.

Lemma emits_ret {A} (a : A) : emits P (mret a).
Proof. by apply emits_same. Qed.

Lemma emits_bind {A B} (m : M A) (k : A → M B) :
  emits P m → (∀ a, emits P (k a)) → emits P (m ≫= k).
Proof.
  intros Hm Hk s. unfold mbind, M_bind. destruct (Hm s) as (l1 & E1 & F1).
  destruct (m s) as [[a|e] s1]; cbn in *; [|by exists l1].
  destruct (Hk a s1) as (l2 & E2 & F2). exists (l1 ++ l2).
  rewrite E2, E1, app_assoc. split; [done|]. by apply Forall_app.
Qed.

Lemma emits_lift {A} (r : result A) : emits P (lift r).
Proof. by apply emits_same. Qed.

Lemma emits_raise {A} (e : exn) : emits P (raise e : M A).
Proof. by apply emits_same. Qed.

Lemma emits_read {A} (g : state → A) : emits P (read g).
Proof. by apply emits_same. Qed.

Lemma emits_attr {A} (g : state → option A) name : emits P (attr g name).
Proof. apply emits_same. intros s. unfold attr. by destruct (g s). Qed.

Lemma emits_global name : emits P (global name).
Proof. apply emits_same. intros s. unfold global. by destruct (bound name). Qed.

Lemma emits_write (g : state → state) : (∀ s, trace (g s) = trace s) → emits P (write g).
Proof. intros Hg. by apply emits_same. Qed.

Lemma emits_ext outside fn args : P (fn, args) → emits P (ext outside fn args).
Proof. intros HP s. exists [(fn, args)]. split; [done|]. by constructor. Qed.

Lemma emits_try_finally {A} (body : M A) (fin : M unit) :
  emits P body → emits P fin → emits P (try_finally body fin).
Proof.
  intros Hb Hf s. unfold try_finally. destruct (Hb s) as (l1 & E1 & F1).
  destruct (body s) as [r s1]. destruct (Hf s1) as (l2 & E2 & F2).
  exists (l1 ++ l2). split; [|by apply Forall_app].
  destruct (fin s1) as [[[]|e] s2]; cbn in *; by rewrite E2, E1, app_assoc.
Qed.

Lemma emits_try_except {A} (body : M A) (handler : exn → M A) :
  emits P body → (∀ e, emits P (handler e)) → emits P (try_except body handler).
Proof.
  intros Hb Hh s. unfold try_except. destruct (Hb s) as (l1 & E1 & F1).
  destruct (body s) as [[a|e] s1]; cbn in *; [by exists l1|].
  destruct (is_Exception e); [|by exists l1].
  destruct (Hh e s1) as (l2 & E2 & F2). exists (l1 ++ l2).
  rewrite E2, E1, app_assoc. split; [done|]. by apply Forall_app.
Qed.

Lemma emits_for_each {A} (l : list A) (body : A → M unit) :
  (∀ a, emits P (body a)) → emits P (for_each l body).
Proof.
  intros Hb. induction l as [|a l IH]; cbn [for_each].
  - apply emits_ret.
  - apply emits_bind; [apply Hb | intros _; apply IH].
Qed.

End emits.

Lemma attributes_record_call c s : attributes (record_call c s) = attributes s.
Proof. done. Qed.

(** One step through a computation built from the combinators. *)
Ltac keeps_step :=
  lazymatch goal with
  | |- keeps _ (mbind _ _) => apply keeps_bind; [|intros]
  | |- keeps _ (mret _) => apply keeps_ret
  | |- keeps _ (lift _) => apply keeps_lift
  | |- keeps _ (raise _) => apply keeps_raise
  | |- keeps _ (read _) => apply keeps_read
  | |- keeps _ (attr _ _) => apply keeps_attr
  | |- keeps _ (global _) => apply keeps_global
  | |- keeps _ (ext _ _ _) => apply keeps_ext; try done
  | |- keeps _ (try_finally _ _) => apply keeps_try_finally
  | |- keeps _ (try_except _ _) => apply keeps_try_except; [|intros]
  | |- keeps _ (for_each _ _) => apply keeps_for_each; intros
  | |- keeps _ (if ?b then _ else _) => destruct b
  | |- keeps _ (match ?x with _ => _ end) => destruct x
  | |- keeps _ (let '_ := ?x in _) => destruct x
  end.

Ltac emits_step :=
  lazymatch goal with
  | |- emits _ (mbind _ _) => apply emits_bind; [|intros]
  | |- emits _ (mret _) => apply emits_ret
  | |- emits _ (lift _) => apply emits_lift
  | |- emits _ (raise _) => apply emits_raise
  | |- emits _ (read _) => apply emits_read
  | |- emits _ (attr _ _) => apply emits_attr
  | |- emits _ (global _) => apply emits_global
  | |- emits _ (ext _ _ _) => apply emits_ext
  | |- emits _ (try_finally _ _) => apply emits_try_finally
  | |- emits _ (try_except _ _) => apply emits_try_except; [|intros]
  | |- emits _ (for_each _ _) => apply emits_for_each; intros
  | |- emits _ (if ?b then _ else _) => destruct b
  | |- emits _ (match ?x with _ => _ end) => destruct x
  end.

Ltac open_reads :=
  unfold env_attr_at;
  unfold item, item_default, algo_item, algo_default, env_attr, env_attr_at, config_attr,
    convert, close_model, close_models, close_env.


(** ** Running the code on a known state *)

(** Reduction of the record and of the monad only: the keys of the maps
    stay as they are written. *)
Ltac sstate :=
  cbn [env_args model_args buffer_args train_args algo_args _name start_time
       _allow_print env multi_agents_training model models trace
       set_env_args set_model_args set_buffer_args set_train_args set_algo_args
       set_name set_start_time set_allow_print set_env set_multi_agents_training
       set_model set_models record_call fst snd getitem setitem get_default
       getitem_value mbind mret result_bind result_ret M_bind M_ret
       fmap list_fmap default].

Lemma set_buffer_args_twice v w s :
  set_buffer_args v (set_buffer_args w s) = set_buffer_args v s.
Proof. by destruct s. Qed.

Lemma bind_ok {A B} (m : M A) (k : A → M B) s a s' :
  m s = (Ok a, s') → (m ≫= k) s = k a s'.
Proof. intros H. unfold mbind, M_bind. by rewrite H. Qed.

Lemma algo_item_ok s a k v :
  algo_args s = Some (VDict a) → a !! k = Some v → algo_item k s = (Ok v, s).
Proof.
  intros Ha Hk. unfold algo_item, attr, lift, mbind, M_bind, getitem. by rewrite Ha, Hk.
Qed.

Lemma algo_default_ok s a k d :
  algo_args s = Some (VDict a) → algo_default k d s = (Ok (default d (a !! k)), s).
Proof.
  intros Ha. unfold algo_default, attr, lift, mbind, M_bind, get_default. by rewrite Ha.
Qed.

Lemma set_item_buffer_ok s b k v :
  buffer_args s = VDict b →
  set_item buffer_args set_buffer_args k v s =
    (Ok tt, set_buffer_args (VDict (<[k := v]> b)) s).
Proof. intros Hb. unfold set_item, read, lift, write, mbind, M_bind, setitem. by rewrite Hb. Qed.

(** The selected variant, as read from the object. *)
Definition selected (s : state) : result value := getitem (buffer_args s) "type".

Lemma selected_record_call c s : selected (record_call c s) = selected s.
Proof. done. Qed.

Lemma set_item_buffer_keeps_selected k v :
  k ≠ "type" → keeps selected (set_item buffer_args set_buffer_args k v).
Proof.
  intros Hk s. unfold set_item, read, lift, write, mbind, M_bind, setitem, selected.
  destruct (buffer_args s) as [| | | | | |b] eqn:E; cbn; rewrite ?E; try done.
  cbn. by rewrite lookup_insert_ne.
Qed.

Lemma setitem2_keeps_type o k1 k2 v o' :
  k1 ≠ VStr "type" → setitem2 o k1 k2 v = Ok o' → getitem o' "type" = getitem o "type".
Proof.
  intros Hk. unfold setitem2. cbn [mbind result_bind].
  destruct (getitem_value o k1) as [inner|]; [|done]. cbn.
  destruct (setitem inner k2 v) as [inner'|]; [|done]. cbn.
  destruct k1 as [| | | |k| |]; try done. intros [= <-].
  destruct o; cbn; try done. rewrite lookup_insert_ne; [done|congruence].
Qed.

Lemma set_item2_buffer_keeps_selected k1 k2 v :
  k1 ≠ VStr "type" → keeps selected (set_item2 buffer_args set_buffer_args k1 k2 v).
Proof.
  intros Hk s. unfold set_item2, read, lift, write, mbind, M_bind, selected.
  destruct (setitem2 (buffer_args s) k1 k2 v) as [o'|] eqn:E; cbn; [|done].
  by eapply setitem2_keeps_type.
Qed.

Ltac selected_step :=
  first
    [ apply set_item_buffer_keeps_selected; done
    | apply set_item2_buffer_keeps_selected; done
    | apply keeps_write; done
    | keeps_step ].

Lemma set_algo_item_keeps_selected k v : keeps selected (set_algo_item k v).
Proof. unfold set_algo_item. repeat selected_step. Qed.

Lemma nstep_gamma_keeps_selected outside ty :
  ty ≠ "type" → keeps selected (nstep_gamma outside ty).
Proof.
  intros Hty. unfold nstep_gamma. open_reads.
  repeat first [apply set_algo_item_keeps_selected
               | apply set_item2_buffer_keeps_selected; congruence | selected_step].
Qed.

Lemma priority_budget_keeps_selected ty :
  ty ≠ "type" → keeps selected (priority_budget ty).
Proof.
  intros Hty. unfold priority_budget. open_reads.
  repeat first [apply set_item2_buffer_keeps_selected; congruence | selected_step].
Qed.

Lemma keeps_selected_rest {A} (m : M A) s : keeps selected m → selected (m s).2 = selected s.
Proof. intros H. apply H. Qed.

Ltac exec :=
  first
    [ erewrite bind_ok by (eapply algo_item_ok; cbn; [reflexivity || eassumption | eassumption])
    | erewrite bind_ok by (eapply algo_default_ok; cbn; reflexivity || eassumption)
    | erewrite bind_ok by (apply set_item_buffer_ok; cbn; reflexivity || eassumption) ].


Section properties.
Variable outside : list call → call → result value.

(** The callees of [train], [evaluate] and [run]. *)
Definition loop_callees : list string :=
  ["gym_no_op"; "gym_train"; "ma_unity_no_op"; "ma_unity_train"; "unity_no_op";
   "unity_train"; "gym_inference"; "ma_unity_inference"; "unity_inference";
   "int"; "str"; "model.close"; "env.close"; "ApexWorker"; "ApexLearner";
   "ApexBuffer"; "__call__"].

Definition loop_call (c : call) : Prop := c.1 ∈ loop_callees.

Ltac loop_name :=
  unfold loop_call; cbn [fst];
  lazymatch goal with
  | |- ?x ∈ ?l => exact (@bool_decide_unpack (x ∈ l) _ I)
  end.

Lemma train_kwargs_keeps specs : keeps attributes (train_kwargs outside specs).
Proof.
  induction specs as [|[[[kw c] key] dflt] specs IH]; cbn [train_kwargs].
  - apply keeps_ret.
  - apply keeps_bind; [|intros; apply keeps_bind; [apply IH | intros; apply keeps_ret]].
    unfold train_arg. open_reads. repeat keeps_step.
Qed.

Lemma train_kwargs_emits specs : emits loop_call (train_kwargs outside specs).
Proof.
  induction specs as [|[[[kw c] key] dflt] specs IH]; cbn [train_kwargs].
  - apply emits_ret.
  - apply emits_bind; [|intros; apply emits_bind; [apply IH | intros; apply emits_ret]].
    unfold train_arg. open_reads. repeat emits_step; loop_name.
Qed.

Lemma call_loop_keeps fn plural specs :
  keeps attributes (call_loop outside fn plural specs).
Proof.
  unfold call_loop. repeat first [apply train_kwargs_keeps | keeps_step].
Qed.

Lemma call_loop_emits fn plural specs :
  fn ∈ loop_callees → emits loop_call (call_loop outside fn plural specs).
Proof.
  intros Hfn. unfold call_loop. repeat first [apply train_kwargs_emits | emits_step]. done.
Qed.

Lemma train_keeps : keeps attributes (train outside).
Proof.
  unfold train. open_reads.
  repeat first [apply call_loop_keeps | keeps_step].
Qed.

Lemma train_emits : emits loop_call (train outside).
Proof.
  unfold train. open_reads.
  repeat first [apply call_loop_emits; loop_name | emits_step]; loop_name.
Qed.


Lemma call_inference_keeps fn plural :
  keeps attributes (call_inference outside fn plural).
Proof. unfold call_inference. open_reads. repeat keeps_step. Qed.

Lemma call_inference_emits fn plural :
  fn ∈ loop_callees → emits loop_call (call_inference outside fn plural).
Proof. intros Hfn. unfold call_inference. open_reads. repeat emits_step. done. Qed.

Lemma evaluate_keeps : keeps attributes (evaluate outside).
Proof.
  unfold evaluate. open_reads.
  repeat first [apply call_inference_keeps | keeps_step].
Qed.

Lemma evaluate_emits : emits loop_call (evaluate outside).
Proof.
  unfold evaluate. open_reads.
  repeat first [apply call_inference_emits; loop_name | emits_step].
Qed.

Lemma run_keeps mode : keeps attributes (run outside mode).
Proof. unfold run. open_reads. repeat keeps_step. Qed.

Lemma run_emits mode : emits loop_call (run outside mode).
Proof. unfold run. open_reads. repeat emits_step; loop_name. Qed.

(** What stays fixed through a method call: the configuration of the
    buffer and the models that hold the buffers, and no call builds a
    buffer, a model, or hands a buffer to a model. *)
Definition variant_fixed (m : M unit) (st : state) : Prop :=
  buffer_args (m st).2 = buffer_args st ∧
  selected (m st).2 = selected st ∧
  model (m st).2 = model st ∧
  models (m st).2 = models st ∧
  ∃ l, trace (m st).2 = trace st ++ l ∧
       ∀ c, c ∈ l → c.1 ≠ "get_buffer" ∧ c.1 ≠ "model.set_buffer" ∧ c.1 ≠ "Model".

Lemma loop_callees_apart (name : string) :
  name ∈ loop_callees →
  name ≠ "get_buffer" ∧ name ≠ "model.set_buffer" ∧ name ≠ "Model" ∧ name ≠ "pow".
Proof.
  unfold loop_callees. rewrite !elem_of_cons, elem_of_nil.
  intros H. repeat split; intros ->; intuition discriminate.
Qed.

Lemma variant_fixed_intro (m : M unit) st :
  keeps attributes m → emits loop_call m → variant_fixed m st.
Proof.
  intros Hk He. specialize (Hk st). destruct (He st) as (l & Hl & HP).
  unfold variant_fixed, selected.
  assert (buffer_args (m st).2 = buffer_args st) as Hb
    by exact (f_equal buffer_args Hk).
  rewrite Hb. repeat split.
  - exact (f_equal model Hk).
  - exact (f_equal models Hk).
  - exists l. split; [done|]. intros c Hc.
    rewrite Forall_forall in HP. specialize (HP c Hc).
    apply loop_callees_apart in HP. tauto.
Qed.

(** C10. [run] raises [Exception('unknown mode')] for every mode string
    other than 'worker', 'learner' and 'buffer', and changes nothing. *)
Theorem run_unknown_mode_raises (mode : string) (st : state) :
  mode ≠ "worker" → mode ≠ "learner" → mode ≠ "buffer" →
  run outside (VStr mode) st = (Raise (Exception "unknown mode"), st).
Proof.
  intros H1 H2 H3. unfold run, eq_str.
  rewrite !(proj2 (String.eqb_neq _ _)) by done. reflexivity.
Qed.

(** A mode that is not a string is unknown as well. *)
Lemma run_not_a_string (mode : value) (st : state) :
  (∀ s, mode ≠ VStr s) →
  run outside mode st = (Raise (Exception "unknown mode"), st).
Proof. intros H. destruct mode; try done. by destruct (H s). Qed.

(** The three known modes name classes that no import of the file binds. *)
Lemma run_known_mode_unbound (st : state) :
  run outside (VStr "worker") st = (Raise (NameError "ApexWorker"), st) ∧
  run outside (VStr "learner") st = (Raise (NameError "ApexLearner"), st) ∧
  run outside (VStr "buffer") st = (Raise (NameError "ApexBuffer"), st).
Proof. done. Qed.

(** C8. For an on-policy algorithm (a policy mode other than
    'off-policy') the buffer type becomes 'None' and
    [train_args['pre_fill_steps']] becomes 0, whatever it was. *)
Theorem on_policy_no_buffer (_policy_mode : value) (st : state)
    (b t : gmap string value) :
  eq_str _policy_mode "off-policy" = false →
  buffer_args st = VDict b → train_args st = VDict t →
  init_buffer outside _policy_mode st =
    (Ok tt, set_train_args (VDict (<["pre_fill_steps" := VInt 0]> t))
              (set_buffer_args (VDict (<["type" := VStr "None"]> b)) st)).
Proof.
  intros Hpm Hb Ht. unfold init_buffer. rewrite Hpm.
  unfold set_item, read, write, lift, mbind, M_bind. rewrite Hb. sstate. by rewrite Ht.
Qed.

(** C1. For an off-policy algorithm the variant is EpisodeER when
    [use_rnn == True]; otherwise NstepPER when [use_priority] and [n_step]
    are both set (true in a condition), PER when only [use_priority] is,
    NstepER when only [n_step] is, and ER when neither is.  The type is
    assigned before anything that can raise, so it holds of the state the
    call leaves in every case. *)
Theorem init_buffer_selects_variant (st : state) (a b : gmap string value) (u : value) :
  algo_args st = Some (VDict a) → buffer_args st = VDict b → a !! "use_rnn" = Some u →
  let use_priority := truthy (default (VBool false) (a !! "use_priority")) in
  let n_step := truthy (default (VBool false) (a !! "n_step")) in
  let after := (init_buffer outside (VStr "off-policy") st).2 in
  (eq_True u = true → selected after = Ok (VStr "EpisodeER")) ∧
  (eq_True u = false → use_priority = true → n_step = true →
     selected after = Ok (VStr "NstepPER")) ∧
  (eq_True u = false → use_priority = true → n_step = false →
     selected after = Ok (VStr "PER")) ∧
  (eq_True u = false → use_priority = false → n_step = true →
     selected after = Ok (VStr "NstepER")) ∧
  (eq_True u = false → use_priority = false → n_step = false →
     selected after = Ok (VStr "ER")).
Proof.
  intros Ha Hb Hu use_priority n_step after.
  subst after use_priority n_step. unfold init_buffer.
  cbn [eq_str String.eqb Ascii.eqb Bool.eqb].
  erewrite bind_ok by by eapply algo_item_ok.
  repeat split; intros Hrnn; rewrite Hrnn; intros; repeat exec.
  all: try (rewrite H, H0; cbn [andb]).
  all: try (rewrite H; cbn [andb]).
  all: try rewrite H0.
  all: repeat exec.
  all: try erewrite set_item_buffer_ok by (cbn; reflexivity).
  all: try (rewrite keeps_selected_rest;
            [|open_reads;
              repeat first [ apply nstep_gamma_keeps_selected; done
                           | apply priority_budget_keeps_selected; done
                           | selected_step ]]).
  all: unfold selected; cbn; by simplify_map_eq.
Qed.

Lemma update_keys_dict (kv : gmap string value) (l : list (string * value)) :
  ∀ d : gmap string value,
  (∀ k v, (k, v) ∈ l → kv !! k = Some v) →
  ∃ d' : gmap string value,
    update_keys (VDict d) (VDict kv) ((λ p, VStr p.1) <$> l) = Ok (VDict d') ∧
    ∀ k, d' !! k = if decide (k ∈ l.*1) then kv !! k else d !! k.
Proof.
  induction l as [|[k0 v0] l IH]; intros d Hl.
  - exists d. split; [done|]. intros k. by rewrite decide_False by set_solver.
  - destruct (IH (<[k0 := v0]> d)) as (d' & Hrun & Hd').
    { intros k v Hin. apply Hl. by right. }
    exists d'. split.
    + cbn. rewrite (Hl k0 v0) by left. cbn. exact Hrun.
    + intros k. rewrite Hd'. cbn [fmap list_fmap fst].
      destruct (decide (k ∈ l.*1)) as [Hin|Hnin].
      * rewrite decide_True; [done|]. by right.
      * destruct (decide (k = k0)) as [->|Hne].
        -- rewrite decide_True by left. rewrite lookup_insert_eq. symmetry. apply Hl. left.
        -- rewrite lookup_insert_ne by done. rewrite decide_False; [done|].
           intros [->|?]%elem_of_cons; done.
Qed.

(** C9. When the loaded file has the section [key_name] and it is a
    mapping [kv], [UpdateConfig] returns the dictionary it was given with
    the keys of [kv] set to the file's values and every other key as it
    was. *)
Theorem UpdateConfig_overwrites_section_keys (d content kv : gmap string value)
    (file_path : value) (key_name : string) (st : state) :
  outside (trace st) ("load_config", [file_path]) = Ok (VDict content) →
  content !! key_name = Some (VDict kv) →
  UpdateConfig outside (VDict d) file_path key_name st =
    (Ok (VDict (kv ∪ d)), record_call ("load_config", [file_path]) st) ∧
  (∀ k v, kv !! k = Some v → (kv ∪ d) !! k = Some v) ∧
  (∀ k, kv !! k = None → (kv ∪ d) !! k = d !! k).
Proof.
  intros Hload Hsec. split; [|split].
  - unfold UpdateConfig, ext, try_except.
    change (global "load_config") with (mret tt : M unit).
    cbv beta iota zeta delta [mbind mret M_bind M_ret lift getitem]. rewrite Hload, Hsec.
    cbv beta iota zeta delta [iterate].
    destruct (update_keys_dict kv (map_to_list kv) d) as (d' & Hrun & Hd').
    { intros k v. apply elem_of_map_to_list. }
    rewrite Hrun. do 3 f_equal. apply map_eq. intros k. rewrite Hd'.
    rewrite lookup_union. destruct (decide (k ∈ (map_to_list kv).*1)) as [Hin|Hnin].
    + apply list_elem_of_fmap in Hin as ([k' v] & -> & Hin). apply elem_of_map_to_list in Hin.
      cbn. rewrite Hin. by destruct (d !! k').
    + assert (kv !! k = None) as ->.
      { destruct (kv !! k) as [v|] eqn:E; [|done]. exfalso. apply Hnin.
        apply list_elem_of_fmap. exists (k, v). split; [done|]. by apply elem_of_map_to_list. }
      by destruct (d !! k).
  - intros k v Hk. by apply lookup_union_Some_l.
  - intros k Hk. by apply lookup_union_r.
Qed.

Lemma item_ok (f : state → value) s d k v :
  f s = VDict d → d !! k = Some v → item f k s = (Ok v, s).
Proof. intros Hf Hk. unfold item, read, lift, mbind, M_bind, getitem. by rewrite Hf, Hk. Qed.

Lemma set_item2_buffer_ok s b k sub k2 v :
  buffer_args s = VDict b → b !! k = Some (VDict sub) →
  set_item2 buffer_args set_buffer_args (VStr k) k2 v s =
    (Ok tt, set_buffer_args (VDict (<[k := VDict (<[k2 := v]> sub)]> b)) s).
Proof.
  intros Hb Hk. unfold set_item2, read, lift, write, mbind, M_bind.
  rewrite Hb. unfold setitem2. cbn. by rewrite Hk.
Qed.

Lemma set_algo_item_ok s a k v :
  algo_args s = Some (VDict a) →
  set_algo_item k v s = (Ok tt, set_algo_args (VDict (<[k := v]> a)) s).
Proof.
  intros Ha. unfold set_algo_item, attr, lift, write, mbind, M_bind. by rewrite Ha.
Qed.

Lemma ext_ok fn args s r :
  outside (trace s) (fn, args) = Ok r →
  ext outside fn args s = (Ok r, record_call (fn, args) s).
Proof. intros H. unfold ext. by rewrite H. Qed.

Lemma priority_budget_ok s b t ty sub budget :
  buffer_args s = VDict b → train_args s = VDict t →
  t !! "max_train_step" = Some budget → b !! ty = Some (VDict sub) →
  priority_budget ty s =
    (Ok tt, set_buffer_args (VDict (<[ty := VDict (<["max_train_step" := budget]> sub)]> b)) s).
Proof.
  intros Hb Ht Hm Hs. unfold priority_budget.
  erewrite bind_ok by by eapply item_ok. by apply set_item2_buffer_ok.
Qed.

Lemma nstep_gamma_ok s a b ty sub gamma n gamma_n :
  algo_args s = Some (VDict a) → buffer_args s = VDict b →
  a !! "gamma" = Some gamma → b !! ty = Some (VDict sub) → sub !! "n" = Some n →
  outside (trace s) ("pow", [gamma; n]) = Ok gamma_n →
  nstep_gamma outside ty s =
    (Ok tt,
     set_algo_args (VDict (<["gamma" := gamma_n]> a))
       (record_call ("pow", [gamma; n])
          (set_buffer_args (VDict (<[ty := VDict (<["gamma" := gamma]> sub)]> b)) s))).
Proof.
  intros Ha Hb Hg Hs Hn Hpow. unfold nstep_gamma.
  erewrite bind_ok by by eapply algo_item_ok.
  erewrite bind_ok by by eapply set_item2_buffer_ok.
  erewrite bind_ok by by eapply algo_item_ok.
  erewrite bind_ok by (eapply item_ok; [reflexivity|apply lookup_insert_eq]).
  cbn [lift getitem]. rewrite lookup_insert_ne by done. rewrite Hn.
  erewrite bind_ok by reflexivity.
  erewrite bind_ok by by apply ext_ok.
  by apply set_algo_item_ok.
Qed.

(** C5. For an off-policy algorithm with [use_rnn == True] (and a
    buffer configuration that has its 'EpisodeER' section) construction
    returns with the type 'EpisodeER', the batch size and buffer size taken
    from [episode_batch_size] and [episode_buffer_size], and the section's
    [burn_in_time_step] and [train_time_step] taken from the keys of the
    same names of the algorithm's configuration, 0 where a key is
    missing. *)
Theorem episode_variant_configured (st : state) (a b e : gmap string value) (u : value) :
  algo_args st = Some (VDict a) → buffer_args st = VDict b →
  a !! "use_rnn" = Some u → eq_True u = true →
  b !! "EpisodeER" = Some (VDict e) →
  init_buffer outside (VStr "off-policy") st =
    (Ok tt,
     set_buffer_args
       (VDict (<["EpisodeER" :=
                  VDict (<["train_time_step" := default (VInt 0) (a !! "train_time_step")]>
                        (<["burn_in_time_step" := default (VInt 0) (a !! "burn_in_time_step")]> e))]>
               (<["buffer_size" := default (VInt 0) (a !! "episode_buffer_size")]>
               (<["batch_size" := default (VInt 0) (a !! "episode_batch_size")]>
               (<["type" := VStr "EpisodeER"]> b))))) st).
Proof.
  intros Ha Hb Hu Hrnn He. unfold init_buffer.
  cbn [eq_str String.eqb Ascii.eqb Bool.eqb].
  erewrite bind_ok by by eapply algo_item_ok. rewrite Hrnn.
  repeat exec.
  erewrite bind_ok by (eapply set_item2_buffer_ok; [reflexivity|by simplify_map_eq]).
  repeat exec.
  erewrite set_item2_buffer_ok; [|reflexivity|apply lookup_insert_eq].
  rewrite !set_buffer_args_twice, insert_insert_eq.
  lazymatch goal with |- ?x = ?x => reflexivity end.
Qed.


(** The state an n-step choice leaves (lines 119-128 and 132-135). *)
Lemma init_buffer_nstep (st : state) (a b t sub : gmap string value)
    (u gamma n gamma_n budget : value) :
  let priority := truthy (default (VBool false) (a !! "use_priority")) in
  let ty := if priority then "NstepPER" else "NstepER" in
  algo_args st = Some (VDict a) → buffer_args st = VDict b → train_args st = VDict t →
  a !! "use_rnn" = Some u → eq_True u = false →
  truthy (default (VBool false) (a !! "n_step")) = true →
  (priority = true → t !! "max_train_step" = Some budget) →
  a !! "gamma" = Some gamma → b !! ty = Some (VDict sub) → sub !! "n" = Some n →
  outside (trace st) ("pow", [gamma; n]) = Ok gamma_n →
  init_buffer outside (VStr "off-policy") st =
    (Ok tt,
     set_algo_args (VDict (<["gamma" := gamma_n]> a))
       (record_call ("pow", [gamma; n])
          (set_buffer_args
             (VDict (<[ty := VDict (<["gamma" := gamma]>
                                     (if priority then <["max_train_step" := budget]> sub
                                      else sub))]>
                     (<["type" := VStr ty]>
                     (<["buffer_size" := default (VInt 0) (a !! "buffer_size")]>
                     (<["batch_size" := default (VInt 0) (a !! "batch_size")]> b)))))
             st))).
Proof.
  intros priority ty Ha Hb Ht Hu Hrnn Hn Hbudget Hg Hsub Hsn Hpow.
  unfold init_buffer. cbn [eq_str String.eqb Ascii.eqb Bool.eqb].
  erewrite bind_ok by by eapply algo_item_ok. rewrite Hrnn.
  repeat exec. rewrite Hn. fold priority.
  subst ty. destruct priority eqn:Hp; cbn [andb].
  - exec.
    erewrite bind_ok.
    2:{ eapply priority_budget_ok; [reflexivity | exact Ht | by apply Hbudget |].
        by simplify_map_eq. }
    erewrite nstep_gamma_ok; [|exact Ha|reflexivity|exact Hg|apply lookup_insert_eq| |exact Hpow].
    2:{ by rewrite lookup_insert_ne. }
    rewrite !set_buffer_args_twice, !insert_insert_eq.
    lazymatch goal with |- ?x = ?x => reflexivity end.
  - exec.
    erewrite nstep_gamma_ok; [|exact Ha|reflexivity|exact Hg| |exact Hsn|exact Hpow].
    2:{ by simplify_map_eq. }
    rewrite !set_buffer_args_twice.
    lazymatch goal with |- ?x = ?x => reflexivity end.
Qed.

(** What an n-step choice leaves, read back from the object. *)
Lemma init_buffer_nstep_gamma (st : state) (a b t sub : gmap string value)
    (u gamma n gamma_n budget : value) :
  let priority := truthy (default (VBool false) (a !! "use_priority")) in
  let ty := if priority then "NstepPER" else "NstepER" in
  algo_args st = Some (VDict a) → buffer_args st = VDict b → train_args st = VDict t →
  a !! "use_rnn" = Some u → eq_True u = false →
  truthy (default (VBool false) (a !! "n_step")) = true →
  (priority = true → t !! "max_train_step" = Some budget) →
  a !! "gamma" = Some gamma → b !! ty = Some (VDict sub) → sub !! "n" = Some n →
  outside (trace st) ("pow", [gamma; n]) = Ok gamma_n →
  let done := init_buffer outside (VStr "off-policy") st in
  done.1 = Ok tt ∧
  selected done.2 = Ok (VStr ty) ∧
  (inner ← getitem (buffer_args done.2) ty; getitem inner "gamma") = Ok gamma ∧
  (o ← default (Raise (AttributeError "algo_args")) (Ok <$> algo_args done.2);
   getitem o "gamma") = Ok gamma_n ∧
  trace done.2 = trace st ++ [("pow", [gamma; n])].
Proof.
  intros priority ty Ha Hb Ht Hu Hrnn Hn Hbudget Hg Hsub Hsn Hpow done.
  subst done. erewrite init_buffer_nstep by eassumption.
  fold priority. fold ty. unfold selected. cbn.
  rewrite !lookup_insert_eq. cbn. rewrite !lookup_insert_eq.
  repeat split; try done.
  subst ty. destruct priority; by simplify_map_eq.
Qed.




(** The training budget recorded for the variant [k], if any. *)
Definition budget_of (ba : value) (k : string) : option value :=
  match ba with
  | VDict d =>
      match d !! k with
      | Some (VDict sub) => sub !! "max_train_step"
      | _ => None
      end
  | _ => None
  end.

Definition variants : list string := ["ER"; "PER"; "NstepER"; "NstepPER"; "EpisodeER"].

Definition budget_at (k : string) (s : state) : option value := budget_of (buffer_args s) k.

Lemma variants_apart k :
  k ∈ variants → k ≠ "type" ∧ k ≠ "batch_size" ∧ k ≠ "buffer_size".
Proof.
  unfold variants. rewrite !elem_of_cons, elem_of_nil.
  intros H. repeat split; intros ->; intuition discriminate.
Qed.

Lemma set_item_buffer_keeps_budget k k' v :
  k' ≠ k → keeps (budget_at k) (set_item buffer_args set_buffer_args k' v).
Proof.
  intros Hk s. unfold set_item, read, lift, write, mbind, M_bind, setitem, budget_at.
  destruct (buffer_args s) as [| | | | | |b] eqn:E; cbn; rewrite ?E; try done.
  cbn. by rewrite lookup_insert_ne.
Qed.

Lemma setitem2_keeps_budget o k1 k2 v o' k :
  k2 ≠ "max_train_step" → setitem2 o k1 k2 v = Ok o' → budget_of o' k = budget_of o k.
Proof.
  intros Hk. unfold setitem2. cbn [mbind result_bind].
  destruct (getitem_value o k1) as [inner|] eqn:Ei; [|done]. cbn.
  destruct (setitem inner k2 v) as [inner'|] eqn:Es; [|done]. cbn.
  destruct k1 as [| | | |k1| |]; try done. intros [= <-].
  destruct o as [| | | | | |d]; try done. cbn in *.
  destruct (d !! k1) as [x|] eqn:Ek; [|done]. injection Ei as ->.
  destruct inner as [| | | | | |sub]; try done. injection Es as <-.
  destruct (decide (k1 = k)) as [->|Hne].
  - rewrite lookup_insert_eq, Ek. by rewrite lookup_insert_ne.
  - by rewrite lookup_insert_ne.
Qed.

Lemma set_item2_buffer_keeps_budget k k1 k2 v :
  k2 ≠ "max_train_step" → keeps (budget_at k) (set_item2 buffer_args set_buffer_args k1 k2 v).
Proof.
  intros Hk s. unfold set_item2, read, lift, write, mbind, M_bind, budget_at.
  destruct (setitem2 (buffer_args s) k1 k2 v) as [o'|] eqn:E; cbn; [|done].
  by eapply setitem2_keeps_budget.
Qed.

Lemma setitem2_other_budget o k1 k2 v o' k :
  VStr k ≠ k1 → setitem2 o k1 k2 v = Ok o' → budget_of o' k = budget_of o k.
Proof.
  intros Hk. unfold setitem2. cbn [mbind result_bind].
  destruct (getitem_value o k1) as [inner|] eqn:Ei; [|done]. cbn.
  destruct (setitem inner k2 v) as [inner'|] eqn:Es; [|done]. cbn.
  destruct k1 as [| | | |k1| |]; try done. intros [= <-].
  destruct o as [| | | | | |d]; try done. cbn in *.
  rewrite lookup_insert_ne; [done|congruence].
Qed.

Lemma set_item2_buffer_other_budget k k1 k2 v :
  VStr k ≠ k1 → keeps (budget_at k) (set_item2 buffer_args set_buffer_args k1 k2 v).
Proof.
  intros Hk s. unfold set_item2, read, lift, write, mbind, M_bind, budget_at.
  destruct (setitem2 (buffer_args s) k1 k2 v) as [o'|] eqn:E; cbn; [|done].
  by eapply setitem2_other_budget.
Qed.

Ltac budget_step :=
  first
    [ apply set_item_buffer_keeps_budget; done
    | apply set_item2_buffer_keeps_budget; done
    | apply set_item2_buffer_other_budget; congruence
    | apply keeps_write; done
    | keeps_step ].

Lemma nstep_gamma_keeps_budget k ty : keeps (budget_at k) (nstep_gamma outside ty).
Proof.
  unfold nstep_gamma, set_algo_item. open_reads. repeat budget_step.
Qed.

Lemma priority_budget_other k ty : k ≠ ty → keeps (budget_at k) (priority_budget ty).
Proof.
  intros Hk. unfold priority_budget. open_reads. repeat budget_step.
Qed.

Lemma keeps_rest {X A} (f : state → X) (m : M A) s : keeps f m → f (m s).2 = f s.
Proof. intros H. apply H. Qed.

(** C7. [max_train_step] of the training configuration is written into
    the selected variant's section exactly when the variant is PER or
    NstepPER (an off-policy algorithm without [use_rnn == True] and with
    [use_priority] set); in every other case, and for every other
    variant's section, the recorded budget is what it was. *)
Theorem budget_for_priority_variants_only (_policy_mode : value) (st : state)
    (a b t : gmap string value) (u : value) :
  algo_args st = Some (VDict a) → buffer_args st = VDict b → train_args st = VDict t →
  a !! "use_rnn" = Some u →
  let after := (init_buffer outside _policy_mode st).2 in
  let priority :=
    eq_str _policy_mode "off-policy" && negb (eq_True u) &&
    truthy (default (VBool false) (a !! "use_priority")) in
  let ty := if truthy (default (VBool false) (a !! "n_step")) then "NstepPER" else "PER" in
  (priority = true →
     selected after = Ok (VStr ty) ∧
     (∀ budget sub, t !! "max_train_step" = Some budget → b !! ty = Some (VDict sub) →
        budget_at ty after = Some budget) ∧
     (∀ k, k ∈ variants → k ≠ ty → budget_at k after = budget_at k st)) ∧
  (priority = false →
     ∀ k, k ∈ variants → budget_at k after = budget_at k st).
Proof.
  intros Ha Hb Ht Hu after priority ty. subst after priority.
  unfold init_buffer. split.
  - intros Hp. apply andb_prop in Hp as [Hp Hpri]. apply andb_prop in Hp as [Hoff Hrnn].
    apply negb_true_iff in Hrnn. rewrite Hoff.
    erewrite bind_ok by by eapply algo_item_ok. rewrite Hrnn.
    repeat exec. rewrite Hpri. cbn [andb]. subst ty.
    destruct (truthy (default (VBool false) (a !! "n_step"))) eqn:Hn.
    + exec. split; [|split].
      * rewrite (keeps_rest selected);
          [|repeat first [ apply nstep_gamma_keeps_selected; done
                         | apply priority_budget_keeps_selected; done | selected_step ]].
        unfold selected. cbn. by simplify_map_eq.
      * intros budget sub Hbud Hsub.
        erewrite bind_ok.
        2:{ eapply priority_budget_ok; [reflexivity|exact Ht|exact Hbud|by simplify_map_eq]. }
        rewrite (keeps_rest (budget_at "NstepPER")) by apply nstep_gamma_keeps_budget.
        unfold budget_at. cbn. by simplify_map_eq.
      * intros k Hk Hne. apply variants_apart in Hk as (? & ? & ?).
        rewrite (keeps_rest (budget_at k));
          [|repeat first [ apply nstep_gamma_keeps_budget
                         | apply priority_budget_other; done | budget_step ]].
        unfold budget_at. rewrite Hb. cbn. by simplify_map_eq.
    + exec. split; [|split].
      * rewrite (keeps_rest selected) by (apply priority_budget_keeps_selected; done).
        unfold selected. cbn. by simplify_map_eq.
      * intros budget sub Hbud Hsub.
        erewrite priority_budget_ok; [|reflexivity|exact Ht|exact Hbud|by simplify_map_eq].
        unfold budget_at. cbn. by simplify_map_eq.
      * intros k Hk Hne. apply variants_apart in Hk as (? & ? & ?).
        rewrite (keeps_rest (budget_at k)) by (apply priority_budget_other; done).
        unfold budget_at. rewrite Hb. cbn. by simplify_map_eq.
  - intros Hp k Hk. apply variants_apart in Hk as (? & ? & ?).
    destruct (eq_str _policy_mode "off-policy") eqn:Hoff.
    + erewrite bind_ok by by eapply algo_item_ok.
      destruct (eq_True u) eqn:Hrnn.
      * apply keeps_rest. open_reads. repeat budget_step.
      * cbn in Hp. repeat exec. rewrite Hp. cbn [andb].
        rewrite (keeps_rest (budget_at k));
          [|repeat first [ apply nstep_gamma_keeps_budget | budget_step ]].
        unfold budget_at. rewrite Hb. cbn. by simplify_map_eq.
    + apply keeps_rest. repeat budget_step. unfold set_item. repeat budget_step.
Qed.


End properties.

(** ** What [get_buffer] receives *)

Lemma emits_mono {A} (P Q : call → Prop) (m : M A) :
  (∀ c, P c → Q c) → emits P m → emits Q m.
Proof.
  intros HPQ Hm s. destruct (Hm s) as (l & E & F). exists l. split; [done|].
  by eapply Forall_impl.
Qed.

Ltac emits_more :=
  first
    [ apply emits_write; done
    | emits_step ].

Ltac open_writes :=
  unfold algo_update, begin_from; unfold set_item, set_algo_item.

Section building.
Variable outside : list call → call → result value.

(** A call that does not build a buffer. *)
Definition not_get_buffer (c : call) : Prop := c.1 ≠ "get_buffer".

(** What [get_buffer] is handed, given the buffer configuration [ba] the
    stage started from: [ba] itself when its type contains neither 'Nstep'
    nor 'Episode'; otherwise [ba] with [agents_num] set, in the section
    named by the type, to a number [n_of] accepts. *)
Definition handed (n_of : value → Prop) (ba : value) (args : list value) : Prop :=
  ∃ ty, getitem ba "type" = Ok ty ∧
    ((nstep_or_episode ty = Ok false ∧ args = [ba]) ∨
     (nstep_or_episode ty = Ok true ∧
      ∃ k sub n b,
        ty = VStr k ∧ ba = VDict b ∧ b !! k = Some (VDict sub) ∧ n_of n ∧
        args = [VDict (<[k := VDict (<["agents_num" := n]> sub)]> b)])).

Lemma setitem2_agents_num ba ty n o' :
  setitem2 ba ty "agents_num" n = Ok o' →
  ∃ k sub b, ty = VStr k ∧ ba = VDict b ∧ b !! k = Some (VDict sub) ∧
    o' = VDict (<[k := VDict (<["agents_num" := n]> sub)]> b).
Proof.
  unfold setitem2. cbn [mbind result_bind].
  destruct (getitem_value ba ty) as [inner|] eqn:Ei; [|done]. cbn.
  destruct (setitem inner "agents_num" n) as [inner'|] eqn:Es; [|done]. cbn.
  destruct ty as [| | | |k| |]; try done. intros [= <-].
  destruct ba as [| | | | | |b]; try done. cbn in *.
  destruct (b !! k) as [x|] eqn:Ek; [|done]. injection Ei as ->.
  destruct inner as [| | | | | |sub]; try done. injection Es as <-.
  by exists k, sub, b.
Qed.

(** Lines 152-153 and 195-196 on a known state. *)
Lemma agents_num_of_env_num_spec s :
  trace (agents_num_of_env_num s).2 = trace s ∧
  env_args (agents_num_of_env_num s).2 = env_args s ∧
  ((agents_num_of_env_num s).1 = Ok tt →
   handed (λ n, getitem (env_args s) "env_num" = Ok n) (buffer_args s)
     [buffer_args (agents_num_of_env_num s).2]).
Proof.
  unfold agents_num_of_env_num, item, set_item2, read, write, lift, mbind, M_bind.
  destruct (getitem (buffer_args s) "type") as [ty|] eqn:Ety; [|done].
  destruct (nstep_or_episode ty) as [[]|] eqn:Ec; [| |done].
  - destruct (getitem (env_args s) "env_num") as [n|] eqn:En; [|done].
    rewrite Ety.
    destruct (setitem2 (buffer_args s) ty "agents_num" n) as [o'|] eqn:Es; [|done].
    repeat split. intros _. exists ty. split; [done|]. right. split; [done|].
    apply setitem2_agents_num in Es as (k & sub & b & -> & Hb & Hk & ->).
    by exists k, sub, n, b.
  - repeat split. intros _. exists ty. split; [done|]. left. by split.
Qed.

Lemma handed_mono (P Q : value → Prop) (ba : value) (args : list value) :
  (∀ n, P n → Q n) → handed P ba args → handed Q ba args.
Proof.
  intros HPQ (ty & Hty & H). exists ty. split; [done|].
  destruct H as [H|(Hc & k & sub & n & b & H1 & H2 & H3 & Hn & H4)]; [by left|].
  right. split; [done|]. exists k, sub, n, b.
  exact (conj H1 (conj H2 (conj H3 (conj (HPQ n Hn) H4)))).
Qed.

(** The arguments of the [get_buffer] calls among [l], in order. *)
Definition buffer_calls (l : list call) : list (list value) :=
  omap (λ c : call, if String.eqb c.1 "get_buffer" then Some c.2 else None) l.

Lemma buffer_calls_app (l1 l2 : list call) :
  buffer_calls (l1 ++ l2) = buffer_calls l1 ++ buffer_calls l2.
Proof. apply omap_app. Qed.

Lemma buffer_calls_none (l : list call) : Forall not_get_buffer l → buffer_calls l = [].
Proof.
  induction 1 as [|c l Hc _ IH]; [done|]. cbn [buffer_calls omap list_omap].
  destruct (String.eqb_spec c.1 "get_buffer") as [E|_]; [by destruct Hc|]. exact IH.
Qed.

(** *** Whether a computation returns or raises *)

(** [Q] holds of what [m] gives from [s] and of the state it leaves. *)
Definition outcome {A} (m : M A) (Q : result A → state → Prop) (s : state) : Prop :=
  Q (m s).1 (m s).2.

Lemma outcome_bind {A B} (m : M A) (k : A → M B) (Q : result B → state → Prop) s :
  outcome m (λ r s1, match r with
                     | Ok a => outcome (k a) Q s1
                     | Raise e => Q (Raise e) s1
                     end) s →
  outcome (m ≫= k) Q s.
Proof. unfold outcome, mbind, M_bind. by destruct (m s) as [[a|e] s1]. Qed.

Lemma outcome_mono {A} (m : M A) (Q1 Q2 : result A → state → Prop) s :
  outcome m Q1 s → (∀ r s', Q1 r s' → Q2 r s') → outcome m Q2 s.
Proof. intros H HQ. by apply HQ. Qed.

Lemma outcome_ret {A} (a : A) (Q : result A → state → Prop) s :
  Q (Ok a) s → outcome (mret a) Q s.
Proof. done. Qed.

Lemma outcome_lift {A} (r : result A) (Q : result A → state → Prop) s :
  Q r s → outcome (lift r) Q s.
Proof. done. Qed.

Lemma outcome_lifted {A} (r : result A) (Q : result A → state → Prop) s :
  (∀ a, r = Ok a → Q (Ok a) s) → (∀ e, Q (Raise e) s) → outcome (lift r) Q s.
Proof. intros H1 H2. unfold outcome, lift. destruct r; [by apply H1 | apply H2]. Qed.

Lemma outcome_read {A} (f : state → A) (Q : result A → state → Prop) s :
  Q (Ok (f s)) s → outcome (read f) Q s.
Proof. done. Qed.

Lemma outcome_write (g : state → state) (Q : result unit → state → Prop) s :
  Q (Ok tt) (g s) → outcome (write g) Q s.
Proof. done. Qed.

Lemma outcome_attr {A} (f : state → option A) name (Q : result A → state → Prop) s :
  (∀ a, f s = Some a → Q (Ok a) s) → (∀ e, Q (Raise e) s) → outcome (attr f name) Q s.
Proof. intros H1 H2. unfold outcome, attr. destruct (f s); [by apply H1 | apply H2]. Qed.

Lemma outcome_ext fn args (Q : result value → state → Prop) s :
  Q (outside (trace s) (fn, args)) (record_call (fn, args) s) →
  outcome (ext outside fn args) Q s.
Proof. done. Qed.

Lemma outcome_quiet {X A} (P : call → Prop) (f : state → X) (m : M A)
    (Q : result A → state → Prop) s :
  emits P m → keeps f m →
  (∀ r s' l, trace s' = trace s ++ l → Forall P l → f s' = f s → Q r s') →
  outcome m Q s.
Proof.
  intros He Hk H. destruct (He s) as (l & Hl & HP). by apply (H _ _ l).
Qed.

(** *** Up to the buffer *)

(** What the paths read when they build the buffer. *)
Definition observed (s : state) : value * value * option value :=
  (buffer_args s, env_args s, env s).

(** From [st] to [s] no buffer was built, and [s] shows what [st]
    showed. *)
Definition unbuilt (st s : state) : Prop :=
  ∃ l, trace s = trace st ++ l ∧ Forall not_get_buffer l ∧ observed s = observed st.

Lemma unbuilt_start st : unbuilt st st.
Proof. exists []. by rewrite app_nil_r. Qed.

Lemma unbuilt_later st s s' l :
  unbuilt st s → trace s' = trace s ++ l → Forall not_get_buffer l →
  observed s' = observed s → unbuilt st s'.
Proof.
  intros (l0 & Hl0 & HP0 & Ho) Hl HP Ho'. exists (l0 ++ l).
  split; [by rewrite Hl, Hl0, app_assoc|]. split; [by apply Forall_app|]. congruence.
Qed.

Lemma unbuilt_prefix st s : unbuilt st s → trace st `prefix_of` trace s.
Proof. intros (l & Hl & _). by exists l. Qed.

Lemma unbuilt_buffer_args st s : unbuilt st s → buffer_args s = buffer_args st.
Proof. by intros (l & _ & _ & [= -> _ _]). Qed.

Lemma unbuilt_env_args st s : unbuilt st s → env_args s = env_args st.
Proof. by intros (l & _ & _ & [= _ -> _]). Qed.

Lemma unbuilt_env st s : unbuilt st s → env s = env st.
Proof. by intros (l & _ & _ & [= _ _ ->]). Qed.

Lemma outcome_unbuilt {A} (m : M A) (Q : result A → state → Prop) st s :
  unbuilt st s → emits not_get_buffer m → keeps observed m →
  (∀ r s', unbuilt st s' → Q r s') → outcome m Q s.
Proof.
  intros Hs He Hk H. apply (outcome_quiet not_get_buffer observed); [done..|].
  intros r s' l Hl HP Ho. apply H. by eapply unbuilt_later.
Qed.

Ltac quiet :=
  open_reads; open_writes;
  repeat emits_more;
  try (unfold not_get_buffer; cbn [fst]; discriminate).

Ltac kept := open_reads; open_writes; repeat first [apply keeps_write; done | keeps_step].

(** *** One buffer: a gym environment, or several agents in Unity *)

(** The path stopped before a buffer was built, or [get_buffer] was
    called once, with the configuration [handed] describes, which the
    agent holds from then on. *)
Definition one_buffer (n_of : value → Prop) (st : state) {A} (r : result A)
    (s' : state) : Prop :=
  ∃ l, trace s' = trace st ++ l ∧
    ((buffer_calls l = [] ∧ ∃ e, r = Raise e) ∨
     (∃ cfg, buffer_calls l = [[cfg]] ∧ handed n_of (buffer_args st) [cfg] ∧
             buffer_args s' = cfg)).

Lemma one_buffer_stopped n_of st {A} (e : exn) s :
  unbuilt st s → one_buffer n_of st (Raise e : result A) s.
Proof.
  intros (l & Hl & HP & _). exists l. split; [done|]. left.
  split; [by apply buffer_calls_none | by exists e].
Qed.

(** Lines 152-154 and 195-197, and what follows them. *)
Lemma agents_num_then_buffer {A} (post : value → M A) (st s : state) :
  unbuilt st s →
  (∀ buffer, emits not_get_buffer (post buffer)) →
  (∀ buffer, keeps buffer_args (post buffer)) →
  outcome
    (agents_num_of_env_num ;;
     global "get_buffer" ;;
     ba ← read buffer_args;
     buffer ← ext outside "get_buffer" [ba];
     post buffer)
    (one_buffer (λ n, getitem (env_args st) "env_num" = Ok n) st) s.
Proof.
  intros Hs Hquiet Hkept.
  destruct (agents_num_of_env_num_spec s) as (Ht & He & Hh).
  rewrite (unbuilt_env_args _ _ Hs), (unbuilt_buffer_args _ _ Hs) in Hh.
  destruct Hs as (l0 & Hl0 & HP0 & _).
  apply outcome_bind. unfold outcome at 1.
  destruct (agents_num_of_env_num s) as [[[]|e] s1]; cbn [fst snd] in *.
  2:{ exists l0. split; [congruence|]. left.
      split; [by apply buffer_calls_none | by exists e]. }
  specialize (Hh eq_refl).
  change (global "get_buffer") with (mret tt : M unit).
  apply outcome_bind, outcome_ret. apply outcome_bind, outcome_read.
  apply outcome_bind, outcome_ext.
  destruct (outside (trace s1) ("get_buffer", [buffer_args s1])) as [buffer|e].
  - apply (outcome_quiet not_get_buffer buffer_args); [done..|].
    intros r s' l E F Hb.
    exists (l0 ++ [("get_buffer", [buffer_args s1])] ++ l). split.
    + rewrite E. cbn [trace record_call]. rewrite Ht, Hl0. by rewrite <- !app_assoc.
    + right. exists (buffer_args s1). split; [|split; [exact Hh | exact Hb]].
      by rewrite !buffer_calls_app, (buffer_calls_none l0), (buffer_calls_none l).
  - exists (l0 ++ [("get_buffer", [buffer_args s1])]). split.
    + cbn [snd trace record_call]. by rewrite Ht, Hl0, <- app_assoc.
    + right. exists (buffer_args s1). split; [|split; [exact Hh | reflexivity]].
      by rewrite buffer_calls_app, (buffer_calls_none l0).
Qed.

(** A step before the buffer: it is gone through, or the path stops
    there. *)
Ltac before_buffer Hs :=
  apply outcome_bind;
  apply (outcome_unbuilt _ _ _ _ Hs); [quiet | kept |];
  clear Hs; intros [?|?] ? Hs; [|by apply one_buffer_stopped].

(** It is enough to go on from a state in which no buffer is built. *)
Ltac from_start st :=
  lazymatch goal with
  | |- outcome ?m ?Q st =>
      let H := fresh "H" in
      enough (∀ s, unbuilt st s → outcome m Q s) as H by (apply H, unbuilt_start)
  end.

Lemma init_gym_one_buffer (Model : value) (st : state) :
  outcome (init_gym outside Model)
    (one_buffer (λ n, getitem (env_args st) "env_num" = Ok n) st) st.
Proof.
  from_start st. intros s Hs.
  unfold init_gym.
  do 2 before_buffer Hs.
  apply agents_num_then_buffer; [done | intros; quiet | intros; kept].
Qed.

Lemma init_unity_multi_one_buffer (Model : value) (st : state) :
  outcome (init_unity_multi outside Model)
    (one_buffer (λ n, getitem (env_args st) "env_num" = Ok n) st) st.
Proof.
  from_start st. intros s Hs.
  unfold init_unity_multi.
  do 3 before_buffer Hs.
  apply agents_num_then_buffer; [done | intros; quiet | intros; kept].
Qed.

(** *** One buffer for each brain *)

(** The request that line 238 makes of the agent's environment. *)
Definition ask_brain_agents (e : value) : call := ("getattr", [e; VStr "brain_agents"]).

(** The last call up to [s] asked the agent's environment for
    [brain_agents], and [n] is entry [i] of the answer. *)
Definition asked (st s : state) (i : nat) (n : value) : Prop :=
  ∃ e h reported,
    env st = Some e ∧ trace st `prefix_of` h ∧
    trace s = h ++ [ask_brain_agents e] ∧
    outside h (ask_brain_agents e) = Ok reported ∧
    index reported i = Ok n.

(** On the way from [st] to [s'], the agent's environment was asked for
    [brain_agents] right before [get_buffer] was called with [args], and
    [n] is entry [i] of its answer. *)
Definition brain_agents_at (st s' : state) (i : nat) (args : list value) (n : value)
    : Prop :=
  ∃ e h reported rest,
    env st = Some e ∧ trace st `prefix_of` h ∧
    trace s' = h ++ [ask_brain_agents e; ("get_buffer", args)] ++ rest ∧
    outside h (ask_brain_agents e) = Ok reported ∧
    index reported i = Ok n.

Lemma asked_then_built st s s' i args l n :
  asked st s i n → trace s' = trace (record_call ("get_buffer", args) s) ++ l →
  brain_agents_at st s' i args n.
Proof.
  intros (e & h & reported & He & H1 & H2 & Hr & Hn) Hl.
  exists e, h, reported, l. repeat split; try done.
  rewrite Hl. cbn [trace record_call]. rewrite H2. by rewrite <- !app_assoc.
Qed.

Lemma brain_agents_at_later st s s' i args n :
  brain_agents_at st s i args n → trace s `prefix_of` trace s' →
  brain_agents_at st s' i args n.
Proof.
  intros (e & h & reported & rest & He & H1 & H2 & Hr & Hn) [l Hl].
  exists e, h, reported, (rest ++ l). repeat split; try done.
  rewrite Hl, H2. by rewrite <- !app_assoc.
Qed.

Lemma brain_agents_at_since st s s' i args n :
  env s = env st → trace st `prefix_of` trace s →
  brain_agents_at s s' i args n → brain_agents_at st s' i args n.
Proof.
  intros Henv Hs (e & h & reported & rest & He & H1 & H2 & Hr & Hn).
  exists e, h, reported, rest. rewrite <- Henv. repeat split; try done. by etrans.
Qed.

(** Lines 237-238, for the copy [ba] of the buffer configuration. *)
Lemma agents_num_of_brain (i : nat) (ba ty : value) (c : bool) (st s : state) :
  unbuilt st s → getitem ba "type" = Ok ty → nstep_or_episode ty = Ok c →
  outcome
    (if c
     then n ← env_attr_at outside "brain_agents" i;
          ty ← lift (getitem ba "type");
          lift (setitem2 ba ty "agents_num" n)
     else mret ba)
    (λ r s', unbuilt st s' ∧
             ∀ cfg, r = Ok cfg → handed (asked st s' i) ba [cfg]) s.
Proof.
  intros Hs Hty Hc. destruct c.
  - unfold env_attr_at, env_attr.
    apply outcome_bind, outcome_bind, outcome_bind, outcome_attr.
    2:{ intros x. by split. }
    intros e He. apply outcome_ext. fold (ask_brain_agents e).
    assert (unbuilt st (record_call (ask_brain_agents e) s)) as Hs'.
    { apply (unbuilt_later st s _ [ask_brain_agents e]); [done | done | | done].
      constructor; [discriminate | constructor]. }
    destruct (outside (trace s) (ask_brain_agents e)) as [reported|x] eqn:Hrep;
      [|by split].
    apply outcome_lift.
    destruct (index reported i) as [n|x] eqn:Hn; [|by split].
    apply outcome_bind, outcome_lift. rewrite Hty. apply outcome_lift.
    destruct (setitem2 ba ty "agents_num" n) as [cfg|x] eqn:Hset; [|by split].
    split; [done|]. intros ? [= <-]. exists ty. split; [done|]. right. split; [done|].
    apply setitem2_agents_num in Hset as (k & sub & b & -> & -> & Hk & ->).
    exists k, sub, n, b. repeat split; try done.
    exists e, (trace s), reported. rewrite <- (unbuilt_env _ _ Hs).
    repeat split; try done. by apply unbuilt_prefix.
  - apply outcome_ret. split; [done|]. intros ? [= <-]. exists ty. split; [done|]. by left.
Qed.

(** One turn of the loop, for the brain at position [i]: it stopped
    before a buffer was built, or [get_buffer] was called once, with a
    copy of the agent's buffer configuration in which [agents_num] is
    the [brain_agents[i]] asked for right before; the agent's own
    configuration stays. *)
Definition one_round (i : nat) (st : state) (r : result unit) (s' : state) : Prop :=
  ∃ l, trace s' = trace st ++ l ∧ observed s' = observed st ∧
    ((buffer_calls l = [] ∧ ∃ e, r = Raise e) ∨
     (∃ cfg, buffer_calls l = [[cfg]] ∧
             handed (brain_agents_at st s' i [cfg]) (buffer_args st) [cfg])).

Lemma one_round_stopped i st e s : unbuilt st s → one_round i st (Raise e) s.
Proof.
  intros (l & Hl & HP & Ho). exists l. split; [done|]. split; [done|]. left.
  split; [by apply buffer_calls_none | by exists e].
Qed.

Lemma one_round_built i st s cfg r s' l :
  unbuilt st s → handed (asked st s i) (buffer_args st) [cfg] →
  trace s' = trace (record_call ("get_buffer", [cfg]) s) ++ l →
  Forall not_get_buffer l → observed s' = observed s →
  one_round i st r s'.
Proof.
  intros (l0 & Hl0 & HP0 & Ho0) Hh Hl HP Ho.
  exists (l0 ++ [("get_buffer", [cfg])] ++ l). split; [|split; [congruence|]].
  - rewrite Hl. cbn [trace record_call]. by rewrite Hl0, <- !app_assoc.
  - right. exists cfg. split.
    + by rewrite !buffer_calls_app, (buffer_calls_none l0), (buffer_calls_none l).
    + eapply handed_mono; [|exact Hh]. intros n Hn. by eapply asked_then_built.
Qed.

Ltac before_round Hs :=
  apply outcome_bind;
  apply (outcome_unbuilt _ _ _ _ Hs); [quiet | kept |];
  clear Hs; intros [?|?] ? Hs; [|by apply one_round_stopped].

(** Lines 233-272. *)
Lemma init_brain_round (Model : value) (i : nat) (b : value) (st : state) :
  outcome (init_brain outside Model i b) (one_round i st) st.
Proof.
  from_start st. intros s Hs. unfold init_brain.
  apply outcome_bind, outcome_read. unfold deepcopy.
  rewrite (unbuilt_buffer_args _ _ Hs).
  do 7 before_round Hs.
  apply outcome_bind, outcome_lifted; [intros ty Hty | by intros; apply one_round_stopped].
  apply outcome_bind, outcome_lifted; [intros c Hc | by intros; apply one_round_stopped].
  apply outcome_bind.
  refine (outcome_mono _ _ _ _ (agents_num_of_brain i _ ty c st _ Hs Hty Hc) _).
  clear Hs. intros [cfg|x] s1 [Hs Hh]; [|by apply one_round_stopped].
  specialize (Hh cfg eq_refl).
  change (global "get_buffer") with (mret tt : M unit).
  apply outcome_bind, outcome_ret. apply outcome_bind, outcome_ext.
  destruct (outside (trace s1) ("get_buffer", [cfg])) as [buffer|x].
  - apply (outcome_quiet not_get_buffer observed); [quiet | kept |].
    intros r after l Hl HP Ho. by eapply one_round_built.
  - by apply (one_round_built i st s1 cfg _ _ []); [| |rewrite app_nil_r| |].
Qed.

(** The loop from the brain at position [i] on, over [n] brains: the
    [get_buffer] calls follow the brains, one for each turn that got that
    far. *)
Definition one_round_each (i n : nat) (st : state) (r : result unit) (s' : state) : Prop :=
  ∃ l, trace s' = trace st ++ l ∧ observed s' = observed st ∧
    (∀ j args, buffer_calls l !! j = Some args →
       handed (brain_agents_at st s' (i + j) args) (buffer_args st) args) ∧
    (r = Ok tt → length (buffer_calls l) = n).

Lemma brains_rounds (Model : value) (brains : list value) :
  ∀ (i : nat) (st : state),
  outcome (for_each (enumerate_from i brains) (λ ib, init_brain outside Model ib.1 ib.2))
    (one_round_each i (length brains) st) st.
Proof.
  induction brains as [|b brains IH]; intros i st.
  - apply outcome_ret. exists []. rewrite app_nil_r. by repeat split.
  - cbn [enumerate_from for_each fst snd]. apply outcome_bind.
    refine (outcome_mono _ _ _ _ (init_brain_round Model i b st) _).
    intros [[]|e] s1 (l1 & Hl1 & Ho1 & Hcases).
    + destruct Hcases as [[_ [e [=]]]|(cfg & Hb1 & Hh1)].
      refine (outcome_mono _ _ _ _ (IH (S i) s1) _).
      intros r s2 (l2 & Hl2 & Ho2 & Hall & Hlen).
      assert (trace s1 `prefix_of` trace s2) as Hpre by (by exists l2).
      exists (l1 ++ l2). split; [by rewrite Hl2, Hl1, app_assoc|].
      split; [congruence|]. rewrite buffer_calls_app, Hb1. split.
      * intros [|j] args Hj.
        -- injection Hj as <-. rewrite Nat.add_0_r.
           eapply handed_mono; [|exact Hh1]. intros n Hn.
           by eapply brain_agents_at_later.
        -- specialize (Hall j args Hj). injection Ho1 as Hba _ Henv.
           rewrite Hba in Hall. rewrite Nat.add_succ_r.
           eapply handed_mono; [|exact Hall]. intros n Hn.
           eapply brain_agents_at_since; [exact Henv | by exists l1 | exact Hn].
      * intros Hr. cbn [app length]. by rewrite (Hlen Hr).
    + exists l1. split; [done|]. split; [done|]. split; [|done].
      intros j args Hj.
      destruct Hcases as [[Hb1 _]|(cfg & Hb1 & Hh1)]; rewrite Hb1 in Hj; [done|].
      destruct j; [|done]. injection Hj as <-. by rewrite Nat.add_0_r.
Qed.

(** One model for each brain: the agent's buffer configuration stays as
    it is; the [get_buffer] calls follow the brains, the call at position
    [i] receiving a copy of that configuration with [agents_num] set to
    [brain_agents[i]] when the type contains 'Nstep' or 'Episode'; and a
    loop that returns has made one call for each brain the environment
    names. *)
Definition buffer_per_brain (st : state) (r : result unit) (s' : state) : Prop :=
  ∃ l, trace s' = trace st ++ l ∧ buffer_args s' = buffer_args st ∧
    (∀ i args, buffer_calls l !! i = Some args →
       handed (brain_agents_at st s' i args) (buffer_args st) args) ∧
    (r = Ok tt →
     ∃ e names brains,
       env st = Some e ∧
       outside (trace st) ("getattr", [e; VStr "fixed_brain_names"]) = Ok names ∧
       iterate names = Ok brains ∧
       length (buffer_calls l) = length brains).

(** Lines 230-272. *)
Lemma init_unity_single_buffers (Model : value) (st : state) :
  outcome (init_unity_single outside Model) (buffer_per_brain st) st.
Proof.
  assert (∀ (r : result unit) s' l, trace s' = trace st ++ l → Forall not_get_buffer l →
            buffer_args s' = buffer_args st → (∃ e, r = Raise e) →
            buffer_per_brain st r s') as Hstop.
  { intros r s' l Ht HP Hb [e ->]. exists l. rewrite (buffer_calls_none l HP).
    by repeat split. }
  unfold init_unity_single, env_attr.
  apply outcome_bind, outcome_write.
  apply outcome_bind, outcome_bind, outcome_attr.
  2:{ intros x. apply (Hstop _ _ []); [by rewrite app_nil_r | done | done | by exists x]. }
  intros e He. cbn [env set_models] in He. apply outcome_ext. cbn [trace set_models].
  set (c := ("getattr", [e; VStr "fixed_brain_names"]) : call).
  assert (Forall not_get_buffer [c]) as Hc by (constructor; [discriminate | constructor]).
  destruct (outside (trace st) c) as [names|x] eqn:Hnames.
  2:{ apply (Hstop _ _ [c]); [done | done | done | by exists x]. }
  apply outcome_bind, outcome_lifted.
  2:{ intros x. apply (Hstop _ _ [c]); [done | done | done | by exists x]. }
  intros brains Hbrains.
  refine (outcome_mono _ _ _ _ (brains_rounds Model brains 0 _) _).
  intros r s2 (l2 & Hl2 & Ho2 & Hall & Hlen).
  exists (c :: l2).
  split; [rewrite Hl2; cbn [trace record_call set_models]; by rewrite <- app_assoc|].
  injection Ho2 as Hba _ Henv.
  split; [exact Hba|]. split.
  - intros i args Hi. change (buffer_calls (c :: l2)) with (buffer_calls l2) in Hi.
    specialize (Hall i args Hi). cbn [buffer_args record_call set_models] in Hall.
    eapply handed_mono; [|exact Hall]. intros n Hn.
    eapply brain_agents_at_since; [| |exact Hn]; [done | by exists [c]].
  - intros Hr. exists e, names, brains. repeat split; try done.
    exact (Hlen Hr).
Qed.

End building.

(** ** How often a power is computed *)

(** The number of [pow] calls in a list of calls. *)
Definition pow_calls (l : list call) : nat :=
  length (filter (λ c, c.1 = "pow") l).

(** [m] makes at most [n] calls of [pow]. *)
Definition pows_at_most {A} (n : nat) (m : M A) : Prop :=
  ∀ s, ∃ l, trace (m s).2 = trace s ++ l ∧ (pow_calls l ≤ n)%nat.

Definition not_pow (c : call) : Prop := c.1 ≠ "pow".

Lemma pow_calls_app l1 l2 : pow_calls (l1 ++ l2) = (pow_calls l1 + pow_calls l2)%nat.
Proof. unfold pow_calls. by rewrite filter_app, length_app. Qed.

Lemma pow_calls_none l : Forall not_pow l → pow_calls l = 0%nat.
Proof.
  unfold pow_calls. induction 1 as [|c l Hc _ IH]; [done|].
  rewrite filter_cons_False; done.
Qed.

Lemma pows_none {A} (m : M A) : emits not_pow m → pows_at_most 0 m.
Proof.
  intros Hm s. destruct (Hm s) as (l & E & F). exists l. split; [done|].
  by rewrite pow_calls_none.
Qed.

Lemma pows_mono {A} (n n' : nat) (m : M A) :
  (n ≤ n')%nat → pows_at_most n m → pows_at_most n' m.
Proof.
  intros Hn Hm s. destruct (Hm s) as (l & E & F). exists l. split; [done|]. lia.
Qed.

Lemma pows_bind {A B} (n1 n2 : nat) (m : M A) (k : A → M B) :
  pows_at_most n1 m → (∀ a, pows_at_most n2 (k a)) → pows_at_most (n1 + n2) (m ≫= k).
Proof.
  intros Hm Hk s. unfold mbind, M_bind. destruct (Hm s) as (l1 & E1 & F1).
  destruct (m s) as [[a|e] s1]; cbn [fst snd] in *.
  - destruct (Hk a s1) as (l2 & E2 & F2). exists (l1 ++ l2).
    rewrite E2, E1, app_assoc, pow_calls_app. split; [done|]. lia.
  - exists l1. split; [done|]. lia.
Qed.

Lemma pows_ext outside fn args : pows_at_most 1 (ext outside fn args).
Proof.
  intros s. exists [(fn, args)]. split; [done|]. unfold pow_calls.
  etrans; [apply length_filter|]. done.
Qed.

Ltac no_pow :=
  open_reads; open_writes;
  repeat emits_more;
  try (unfold not_pow; cbn [fst]; discriminate).

Section pow.
Variable outside : list call → call → result value.

Lemma nstep_gamma_pows ty : pows_at_most 1 (nstep_gamma outside ty).
Proof.
  unfold nstep_gamma.
  do 5 (apply (pows_bind 0 1); [apply pows_none; unfold set_item2; no_pow | intros ?]).
  apply (pows_bind 1 0); [apply pows_ext | intros ?]. apply pows_none. no_pow.
Qed.

Lemma init_buffer_pows _policy_mode : pows_at_most 1 (init_buffer outside _policy_mode).
Proof.
  unfold init_buffer. destruct (eq_str _policy_mode "off-policy").
  - apply (pows_bind 0 1); [apply pows_none; no_pow | intros use_rnn].
    destruct (eq_True use_rnn).
    { apply (pows_mono 0); [lia|]. apply pows_none. unfold set_item2. no_pow. }
    do 6 (apply (pows_bind 0 1); [apply pows_none; no_pow | intros ?]).
    destruct (truthy _ && truthy _); [|destruct (truthy _); [|destruct (truthy _)]].
    + do 2 (apply (pows_bind 0 1);
            [apply pows_none; unfold priority_budget, set_item2; no_pow | intros ?]).
      apply nstep_gamma_pows.
    + apply (pows_mono 0); [lia|]. apply pows_none.
      unfold priority_budget, set_item2. no_pow.
    + apply (pows_bind 0 1); [apply pows_none; no_pow | intros ?].
      apply nstep_gamma_pows.
    + apply (pows_mono 0); [lia|]. apply pows_none. no_pow.
  - apply (pows_mono 0); [lia|]. apply pows_none. no_pow.
Qed.

Lemma init_attributes_no_pow ea ma ba ta :
  emits not_pow (init_attributes outside ea ma ba ta).
Proof. unfold init_attributes. no_pow. Qed.

Lemma init_algorithm_no_pow : emits not_pow (init_algorithm outside).
Proof. unfold init_algorithm, UpdateConfig, ShowConfig. no_pow. Qed.

Lemma init_gym_no_pow Model : emits not_pow (init_gym outside Model).
Proof. unfold init_gym, agents_num_of_env_num, set_item2. no_pow. Qed.

Lemma init_unity_multi_no_pow Model : emits not_pow (init_unity_multi outside Model).
Proof. unfold init_unity_multi, agents_num_of_env_num, set_item2. no_pow. Qed.

Lemma init_unity_single_no_pow Model : emits not_pow (init_unity_single outside Model).
Proof. unfold init_unity_single, init_brain. no_pow. Qed.

Lemma loop_call_not_pow c : loop_call c → not_pow c.
Proof. intros H. by apply loop_callees_apart in H as (_ & _ & _ & H). Qed.

(** The whole of [__init__] computes a power at most once. *)
Lemma init_pows ea ma ba ta : pows_at_most 1 (__init__ outside ea ma ba ta).
Proof.
  unfold __init__.
  apply (pows_bind 0 1); [apply pows_none, init_attributes_no_pow | intros _].
  apply (pows_bind 0 1); [apply pows_none, init_algorithm_no_pow | intros [Model pm]].
  apply (pows_bind 1 0); [apply init_buffer_pows | intros _].
  apply pows_none.
  apply emits_bind; [no_pow | intros ty].
  destruct (eq_str ty "gym"); [apply init_gym_no_pow|].
  apply emits_bind; [no_pow | intros [|]].
  - apply init_unity_multi_no_pow.
  - apply init_unity_single_no_pow.
Qed.

End pow.

(** ** Which exceptions construction raises itself *)

(** A result that is not an exception of a class the file does not name. *)
Definition own {A} (r : result A) : Prop := ∀ cls, r ≠ Raise (UserError cls).

Ltac own_cases :=
  intros cls; repeat (cbn [mbind mret result_bind result_ret]; case_match);
  try discriminate.

Lemma own_getitem o k : own (getitem o k).
Proof. unfold getitem. own_cases. Qed.
Lemma own_setitem o k v : own (setitem o k v).
Proof. unfold setitem. own_cases. Qed.
Lemma own_get_default o k d : own (get_default o k d).
Proof. unfold get_default. own_cases. Qed.
Lemma own_getattr o k : own (getattr o k).
Proof. unfold getattr. own_cases. Qed.
Lemma own_setattr o k v : own (setattr o k v).
Proof. unfold setattr. own_cases. Qed.
Lemma own_to_dict o : own (to_dict o).
Proof. unfold to_dict. own_cases. Qed.
Lemma own_index o i : own (index o i).
Proof. unfold index. own_cases. Qed.
Lemma own_iterate o : own (iterate o).
Proof. unfold iterate. own_cases. Qed.
Lemma own_unpack4 o : own (unpack4 o).
Proof.
  unfold unpack4. intros cls. pose proof (own_iterate o cls).
  repeat case_match; congruence.
Qed.
Lemma own_getitem_value o k : own (getitem_value o k).
Proof.
  unfold getitem_value. intros cls.
  repeat case_match; first [discriminate | apply own_getitem | apply own_index].
Qed.
Lemma own_setitem_value o k v : own (setitem_value o k v).
Proof.
  unfold setitem_value. intros cls.
  repeat case_match; first [discriminate | apply own_setitem].
Qed.
Lemma own_setitem2 o k1 k2 v : own (setitem2 o k1 k2 v).
Proof.
  unfold setitem2. intros cls. unfold mbind, result_bind.
  pose proof (own_getitem_value o k1 cls).
  destruct (getitem_value o k1) as [inner|]; [|done].
  pose proof (own_setitem inner k2 v cls).
  destruct (setitem inner k2 v); [|done]. by destruct k1.
Qed.
Lemma own_update o kvs : own (update o kvs).
Proof. unfold update. own_cases. Qed.
Lemma own_contains o p : own (contains o p).
Proof. unfold contains. own_cases. Qed.
Lemma own_nstep_or_episode ty : own (nstep_or_episode ty).
Proof.
  unfold nstep_or_episode. intros cls. unfold mbind, result_bind.
  pose proof (own_contains ty "Nstep" cls).
  destruct (contains ty "Nstep") as [[]|]; [done| |done]. apply own_contains.
Qed.
Lemma own_gt_int v k : own (gt_int v k).
Proof. unfold gt_int. own_cases. Qed.
Lemma own_add_nat v k : own (add_nat v k).
Proof. unfold add_nat. own_cases. Qed.
Lemma own_ljust v w : own (ljust v w).
Proof. unfold ljust. own_cases. Qed.
Lemma own_rjust v w : own (rjust v w).
Proof. unfold rjust. own_cases. Qed.
Lemma own_update_keys config key_values keys : own (update_keys config key_values keys).
Proof.
  revert config. induction keys as [|key keys IH]; intros config cls; cbn [update_keys].
  - done.
  - pose proof (own_getitem_value key_values key cls).
    destruct (getitem_value key_values key) as [v|]; [|done].
    pose proof (own_setitem_value config key v cls).
    destruct (setitem_value config key v); [|done]. apply IH.
Qed.

Create HintDb own.

#[local] Hint Resolve own_getitem own_setitem own_get_default own_getattr own_setattr
  own_to_dict own_index own_iterate own_unpack4 own_getitem_value own_setitem_value
  own_setitem2 own_update own_contains own_nstep_or_episode own_gt_int own_add_nat
  own_ljust own_rjust own_update_keys : own.

Section passes.
Variable outside : list call → call → result value.
















End passes.

(** ** The type after the choice *)

Section later.
Variable outside : list call → call → result value.

Lemma agents_num_keeps_selected : keeps selected agents_num_of_env_num.
Proof.
  intros s.
  unfold agents_num_of_env_num, item, set_item2, read, write, lift, mbind, M_bind.
  destruct (getitem (buffer_args s) "type") as [ty|] eqn:Ety; [|done].
  destruct (nstep_or_episode ty) as [[]|] eqn:Ec; [| done | done].
  destruct (getitem (env_args s) "env_num") as [n|]; [|done].
  rewrite Ety.
  destruct (setitem2 (buffer_args s) ty "agents_num" n) as [o'|] eqn:Es; [|done].
  unfold selected. cbn [snd buffer_args set_buffer_args].
  eapply setitem2_keeps_type; [|exact Es].
  intros ->. vm_compute in Ec. discriminate.
Qed.

Ltac stays :=
  open_reads; open_writes;
  repeat first [ apply agents_num_keeps_selected | apply keeps_write; done | keeps_step ].

Lemma init_gym_keeps_selected Model : keeps selected (init_gym outside Model).
Proof. unfold init_gym. stays. Qed.

Lemma init_unity_multi_keeps_selected Model :
  keeps selected (init_unity_multi outside Model).
Proof. unfold init_unity_multi. stays. Qed.

Lemma init_unity_single_keeps_selected Model :
  keeps selected (init_unity_single outside Model).
Proof. unfold init_unity_single, init_brain. stays. Qed.

End later.


(** ** The claims about the lifetime of the variant, n-step returns,
    validation and [agents_num] *)

Section claims.
Variable outside : list call → call → result value.

(** C4. The variant is chosen once, in the choice of the buffer, and stays:
    the rest of [__init__] keeps the type it finds on each of its three
    paths, and once [__init__] has returned, [train], [evaluate] and [run]
    leave the selected variant as it is -- whatever the state and whatever
    the outside answers, and whether they return or raise, [buffer_args]
    (so its ['type']) and the models are the same afterwards, and none of
    the calls they make is [get_buffer], [Model] or [model.set_buffer], so
    no buffer is built or attached after construction. *)
Theorem variant_fixed_after_init (st : state) (mode Model : value) :
  (keeps selected (init_gym outside Model) ∧
   keeps selected (init_unity_multi outside Model) ∧
   keeps selected (init_unity_single outside Model)) ∧
  variant_fixed (train outside) st ∧
  variant_fixed (evaluate outside) st ∧
  variant_fixed (run outside mode) st.
Proof.
  split.
  - auto using init_gym_keeps_selected, init_unity_multi_keeps_selected,
      init_unity_single_keeps_selected.
  - repeat split; apply variant_fixed_intro;
      auto using train_keeps, train_emits, evaluate_keeps, evaluate_emits,
        run_keeps, run_emits.
Qed.

(** C2. For NstepER and NstepPER (with the keys the branch reads present
    and [pow] returning) construction returns, having stored the original
    [gamma] in the variant's section and replaced the algorithm's [gamma]
    by the result of [pow(gamma, n)] for the section's [n].  That call is
    the only outside call of the stage; the whole of [__init__] calls
    [pow] at most once, and [train], [evaluate] and [run] never do. *)
Theorem nstep_gamma_folded_once (st : state) (a b t sub : gmap string value)
    (u gamma n gamma_n budget : value) :
  let priority := truthy (default (VBool false) (a !! "use_priority")) in
  let ty := if priority then "NstepPER" else "NstepER" in
  algo_args st = Some (VDict a) → buffer_args st = VDict b → train_args st = VDict t →
  a !! "use_rnn" = Some u → eq_True u = false →
  truthy (default (VBool false) (a !! "n_step")) = true →
  (priority = true → t !! "max_train_step" = Some budget) →
  a !! "gamma" = Some gamma → b !! ty = Some (VDict sub) → sub !! "n" = Some n →
  outside (trace st) ("pow", [gamma; n]) = Ok gamma_n →
  let done := init_buffer outside (VStr "off-policy") st in
  (done.1 = Ok tt ∧
   selected done.2 = Ok (VStr ty) ∧
   (inner ← getitem (buffer_args done.2) ty; getitem inner "gamma") = Ok gamma ∧
   (o ← default (Raise (AttributeError "algo_args")) (Ok <$> algo_args done.2);
    getitem o "gamma") = Ok gamma_n ∧
   trace done.2 = trace st ++ [("pow", [gamma; n])]) ∧
  (∀ ea ma ba ta, pows_at_most 1 (__init__ outside ea ma ba ta)) ∧
  (∀ mode, emits not_pow (train outside) ∧ emits not_pow (evaluate outside) ∧
           emits not_pow (run outside mode)).
Proof.
  intros priority ty Ha Hb Ht Hu Hrnn Hn Hbudget Hg Hsub Hsn Hpow done.
  split; [|split].
  - by eapply init_buffer_nstep_gamma.
  - apply init_pows.
  - intros mode. repeat split;
      (eapply emits_mono; [apply loop_call_not_pow|]);
      auto using train_emits, evaluate_emits, run_emits.
Qed.


(** What [get_buffer] raises leaves the constructing call as it is. *)
Lemma get_buffer_error_passed_on {A} (post : value → M A) (s : state) (e : exn) :
  outside (trace s) ("get_buffer", [buffer_args s]) = Raise e →
  (global "get_buffer" ;;
   ba ← read buffer_args;
   buffer ← ext outside "get_buffer" [ba];
   post buffer) s = (Raise e, record_call ("get_buffer", [buffer_args s]) s).
Proof.
  intros H. change (global "get_buffer") with (mret tt : M unit).
  unfold ext, read, mbind, mret, M_bind, M_ret. by rewrite H.
Qed.

(** C6.  [agents_num] is written before the buffer is built, and only
    for a type that contains 'Nstep' or 'Episode'.  Whatever the state, a
    gym agent and an agent that trains several agents at once either stop
    before any buffer is built or call [get_buffer] exactly once, with the
    buffer configuration they started from, [agents_num] set in the
    section named by the type to [env_args['env_num']] for such a type
    and nothing changed otherwise (ER, PER, 'None'); the agent holds that
    configuration from then on.  With one model for each brain, the
    [get_buffer] calls follow the brains: the call at position [i]
    receives a copy of the agent's buffer configuration with [agents_num]
    set to entry [i] of the [brain_agents] that the agent's environment
    gave right before that call, untouched for the other types; the
    agent's own configuration stays; and when the loop returns there is
    one call for each brain. *)
Theorem agents_num_set_before_get_buffer (Model : value) (st : state) :
  outcome (init_gym outside Model)
    (one_buffer (λ n, getitem (env_args st) "env_num" = Ok n) st) st ∧
  outcome (init_unity_multi outside Model)
    (one_buffer (λ n, getitem (env_args st) "env_num" = Ok n) st) st ∧
  outcome (init_unity_single outside Model) (buffer_per_brain outside st) st.
Proof.
  split; [|split].
  - apply init_gym_one_buffer.
  - apply init_unity_multi_one_buffer.
  - apply init_unity_single_buffers.
Qed.

End claims.

(** ** Runs on sample configurations *)


Definition dict (l : list (string * value)) : gmap string value := list_to_map l.

(** A power by repeated multiplication, for the sample runs. *)
Definition sample_pow (g n : value) : result value :=
  match g, n with
  | VFloat x, VInt k =>
      if (0 <=? k)%Z then Ok (VFloat (Z.iter k (PrimFloat.mul x) 1%float))
      else Raise ValueError
  | _, _ => Raise TypeError
  end.

(** An outside for the sample runs: [get_model_info] answers with the
    given algorithm configuration and policy mode, [load_config] with the
    given file content, [pow] multiplies, the model reports a fresh
    training, [str] gives some text, and every other call returns [None]. *)
Definition sample_outside (algo file : gmap string value) (policy_mode : string)
    : list call → call → result value :=
  fun _ c =>
    if String.eqb c.1 "get_model_info" then
      Ok (VList [VStr "Model"; VDict algo; VStr policy_mode; VStr "single"])
    else if String.eqb c.1 "load_config" then Ok (VDict file)
    else if String.eqb c.1 "pow" then
      match c.2 with
      | [g; n] => sample_pow g n
      | _ => Raise TypeError
      end
    else if String.eqb c.1 "model.get_init_training_info" then
      Ok (VDict (dict [("train_step", VInt 0); ("frame_step", VInt 0); ("episode", VInt 0)]))
    else if String.eqb c.1 "str" then Ok (VStr "text")
    else Ok VNone.

Definition configured (algo buffer train : gmap string value) : state :=
  mkState (VDict ∅) (VDict ∅) (VDict buffer) (VDict train) (Some (VDict algo))
    None None None None None None None [].

Definition nstep_algo : gmap string value :=
  dict [("use_rnn", VBool false); ("n_step", VBool true); ("gamma", VFloat 0.5%float);
        ("batch_size", VInt 32); ("buffer_size", VInt 1)].

Definition zero_step_buffer : gmap string value :=
  dict [("NstepER", VDict (dict [("n", VInt 0)])); ("NstepPER", VDict (dict [("n", VInt 0)]));
        ("ER", VDict ∅); ("PER", VDict ∅); ("EpisodeER", VDict ∅)].

Definition gym_env : gmap string value := dict [("type", VStr "gym"); ("env_num", VInt 4)].

Definition sample_model : gmap string value :=
  dict [("algo", VStr "dqn"); ("algo_config", VNone); ("use_rnn", VBool false);
        ("seed", VInt 0)].

Definition sample_train : gmap string value :=
  dict [("name", VStr "run"); ("base_dir", VStr "out"); ("use_wandb", VBool false);
        ("max_train_step", VInt 1000); ("load_model_path", VNone);
        ("inference", VBool true)].

(** The construction of a gym agent on a configuration with [n = 0],
    every call that leaves the file returning. *)
Definition zero_step_run : result unit * state :=
  __init__ (sample_outside nstep_algo ∅ "off-policy")
    (VDict gym_env) (VDict sample_model) (VDict zero_step_buffer) (VDict sample_train)
    (new_agent []).


Definition priority_nstep_algo : gmap string value :=
  dict [("use_rnn", VBool false); ("use_priority", VBool true); ("n_step", VInt 3);
        ("gamma", VFloat 0.5%float); ("batch_size", VInt 32); ("buffer_size", VInt 1000)].

Definition priority_algo : gmap string value :=
  dict [("use_rnn", VBool false); ("use_priority", VBool true);
        ("batch_size", VInt 32); ("buffer_size", VInt 1000)].

Definition recurrent_algo : gmap string value :=
  dict [("use_rnn", VBool true); ("episode_batch_size", VInt 8);
        ("episode_buffer_size", VInt 100); ("burn_in_time_step", VInt 20);
        ("train_time_step", VInt 40)].

Definition three_step_buffer : gmap string value :=
  dict [("NstepER", VDict (dict [("n", VInt 3)])); ("NstepPER", VDict (dict [("n", VInt 3)]));
        ("ER", VDict ∅); ("PER", VDict ∅); ("EpisodeER", VDict ∅)].

Definition sample_budget : gmap string value :=
  dict [("max_train_step", VInt 1000); ("pre_fill_steps", VInt 500)].

Definition sample_file : gmap string value :=
  dict [("algo", VDict (dict [("gamma", VFloat 0.5%float); ("lr", VFloat 0.25%float)]))].

Definition sample_config : gmap string value :=
  dict [("gamma", VFloat 0.75%float); ("batch_size", VInt 32)].


(** C1 on a configuration with both [use_priority] and [n_step] set. *)
Lemma init_buffer_selects_variant_witness :
  selected
    (init_buffer (sample_outside priority_nstep_algo ∅ "off-policy") (VStr "off-policy")
       (configured priority_nstep_algo three_step_buffer sample_budget)).2 =
  Ok (VStr "NstepPER").
Proof.
  refine (proj1 (proj2 (init_buffer_selects_variant
            (sample_outside priority_nstep_algo ∅ "off-policy")
            (configured priority_nstep_algo three_step_buffer sample_budget)
            priority_nstep_algo three_step_buffer (VBool false) _ _ _)) _ _ _);
    reflexivity.
Defined.

(** C2 with [gamma = 0.5] and [n = 3]: the algorithm goes on with 0.125. *)
Lemma nstep_gamma_folded_once_witness :
  let done :=
    init_buffer (sample_outside priority_nstep_algo ∅ "off-policy") (VStr "off-policy")
      (configured priority_nstep_algo three_step_buffer sample_budget) in
  (inner ← getitem (buffer_args done.2) "NstepPER"; getitem inner "gamma")
    = Ok (VFloat 0.5%float) ∧
  (o ← default (Raise (AttributeError "algo_args")) (Ok <$> algo_args done.2);
   getitem o "gamma") = Ok (VFloat 0.125%float) ∧
  trace done.2 = [("pow", [VFloat 0.5%float; VInt 3])].
Proof.
  destruct (nstep_gamma_folded_once
              (sample_outside priority_nstep_algo ∅ "off-policy")
              (configured priority_nstep_algo three_step_buffer sample_budget)
              priority_nstep_algo three_step_buffer sample_budget (dict [("n", VInt 3)])
              (VBool false) (VFloat 0.5%float) (VInt 3) (VFloat 0.125%float) (VInt 1000))
    as [(_ & _ & Hgamma & Hfolded & Hcalls) _]; try reflexivity.
  exact (conj Hgamma (conj Hfolded Hcalls)).
Defined.


(** C5 on a recurrent configuration. *)
Lemma episode_variant_configured_witness :
  ∃ after,
    init_buffer (sample_outside recurrent_algo ∅ "off-policy") (VStr "off-policy")
      (configured recurrent_algo three_step_buffer sample_budget) = (Ok tt, after) ∧
    selected after = Ok (VStr "EpisodeER") ∧
    getitem (buffer_args after) "batch_size" = Ok (VInt 8) ∧
    getitem (buffer_args after) "buffer_size" = Ok (VInt 100) ∧
    getitem (buffer_args after) "EpisodeER" =
      Ok (VDict (dict [("burn_in_time_step", VInt 20); ("train_time_step", VInt 40)])).
Proof.
  eexists. split.
  - apply (episode_variant_configured
             (sample_outside recurrent_algo ∅ "off-policy")
             (configured recurrent_algo three_step_buffer sample_budget)
             recurrent_algo three_step_buffer ∅ (VBool true)); reflexivity.
  - repeat split; vm_compute; reflexivity.
Defined.

(** A Unity environment with two brains, of three and of five agents;
    every other attribute of the environment is a list of two. *)
Definition two_brains : list call → call → result value :=
  fun h c =>
    if String.eqb c.1 "getattr" then
      match c.2 with
      | [_; VStr name] =>
          if String.eqb name "brain_num" then Ok (VInt 2)
          else if String.eqb name "brain_agents" then Ok (VList [VInt 3; VInt 5])
          else Ok (VList [VStr "brain 0"; VStr "brain 1"])
      | _ => Raise TypeError
      end
    else sample_outside nstep_algo ∅ "off-policy" h c.

(** An agent at line 230, about to build one model for each brain, with
    the variant NstepER chosen. *)
Definition nstep_brains_ready : state :=
  mkState (VDict (dict [("type", VStr "unity"); ("env_num", VInt 4)]))
    (VDict (dict [("base_dir", VStr "out"); ("seed", VInt 7)]))
    (VDict (dict [("type", VStr "NstepER"); ("NstepER", VDict (dict [("n", VInt 3)]))]))
    (VDict sample_train)
    (Some (VDict nstep_algo)) (Some (VStr "run")) (Some (VInt 0)) (Some false)
    (Some (VStr "env")) (Some false) None None [].

(** The [agents_num] a [get_buffer] call was given for NstepER. *)
Definition agents_num_given (args : list value) : result value :=
  match args with
  | [cfg] => inner ← getitem cfg "NstepER"; getitem inner "agents_num"
  | _ => Raise TypeError
  end.

(** C6 on two brains of three and five agents: the loop returns, having
    built two buffers, the first for three agents and the second for
    five, from copies of a configuration that itself has no [agents_num]. *)
Lemma agents_num_set_before_get_buffer_witness :
  let run := init_unity_single two_brains (VStr "Model") nstep_brains_ready in
  run.1 = Ok tt ∧
  (∃ l, trace run.2 = l ∧ length (buffer_calls l) = 2%nat ∧
        ∀ i args, buffer_calls l !! i = Some args →
          handed (brain_agents_at two_brains nstep_brains_ready run.2 i args)
            (buffer_args nstep_brains_ready) args) ∧
  agents_num_given <$> buffer_calls (trace run.2) = [Ok (VInt 3); Ok (VInt 5)] ∧
  agents_num_given [buffer_args run.2] = Raise (KeyError "agents_num").
Proof.
  cbv zeta.
  assert ((init_unity_single two_brains (VStr "Model") nstep_brains_ready).1 = Ok tt)
    as Hret by (vm_compute; reflexivity).
  split; [exact Hret|]. split; [|split; vm_compute; reflexivity].
  destruct (agents_num_set_before_get_buffer two_brains (VStr "Model") nstep_brains_ready)
    as (_ & _ & l & Hl & _ & Hall & Hlen).
  exists l. split; [exact Hl|]. split; [|exact Hall].
  destruct (Hlen Hret) as (e & names & brains & [= <-] & Hnames & Hbrains & ->).
  injection Hnames as <-. by injection Hbrains as <-.
Defined.

(** The same for several agents trained at once: one buffer, for the
    four environments of the configuration. *)
Example multi_agents_buffer_sees_agents_num :
  let run := init_unity_multi two_brains (VStr "Model") nstep_brains_ready in
  run.1 = Ok tt ∧
  agents_num_given <$> buffer_calls (trace run.2) = [Ok (VInt 4)] ∧
  agents_num_given [buffer_args run.2] = Ok (VInt 4).
Proof. cbv zeta. repeat split; vm_compute; reflexivity. Qed.

(** A gym agent on a configuration that selects NstepER, everything
    outside returning: [get_buffer] is called once, and sees [agents_num]
    set to the four environments. *)
Example get_buffer_sees_agents_num :
  zero_step_run.1 = Ok tt ∧
  agents_num_given <$> buffer_calls (trace zero_step_run.2) = [Ok (VInt 4)].
Proof. split; vm_compute; reflexivity. Qed.

(** C7 on a configuration with [use_priority] only. *)
Lemma budget_for_priority_variants_only_witness :
  let after :=
    (init_buffer (sample_outside priority_algo ∅ "off-policy") (VStr "off-policy")
       (configured priority_algo three_step_buffer sample_budget)).2 in
  selected after = Ok (VStr "PER") ∧
  budget_at "PER" after = Some (VInt 1000) ∧
  budget_at "NstepPER" after = None.
Proof.
  destruct (budget_for_priority_variants_only
              (sample_outside priority_algo ∅ "off-policy") (VStr "off-policy")
              (configured priority_algo three_step_buffer sample_budget)
              priority_algo three_step_buffer sample_budget (VBool false))
    as [Hpriority _]; try reflexivity.
  destruct (Hpriority eq_refl) as (Hselected & Hbudget & Hothers).
  split; [exact Hselected|]. split.
  - exact (Hbudget (VInt 1000) ∅ eq_refl eq_refl).
  - rewrite (Hothers "NstepPER"); [reflexivity | | discriminate].
    apply (bool_decide_unpack _). vm_compute. exact I.
Defined.

(** C8 on a configuration that asked for 500 steps of prefill. *)
Lemma on_policy_no_buffer_witness :
  let after :=
    (init_buffer (sample_outside ∅ ∅ "on-policy") (VStr "on-policy")
       (configured ∅ three_step_buffer sample_budget)).2 in
  getitem (train_args (configured ∅ three_step_buffer sample_budget)) "pre_fill_steps"
    = Ok (VInt 500) ∧
  getitem (train_args after) "pre_fill_steps" = Ok (VInt 0) ∧
  selected after = Ok (VStr "None").
Proof.
  cbv zeta.
  rewrite (on_policy_no_buffer (sample_outside ∅ ∅ "on-policy") (VStr "on-policy")
             (configured ∅ three_step_buffer sample_budget)
             three_step_buffer sample_budget eq_refl eq_refl eq_refl).
  repeat split; vm_compute; reflexivity.
Defined.

(** C9 on a file whose section sets [gamma] and adds [lr]. *)
Lemma UpdateConfig_overwrites_section_keys_witness :
  let after :=
    (UpdateConfig (sample_outside ∅ sample_file "off-policy") (VDict sample_config)
       (VStr "algo.yaml") "algo" (new_agent [])).1 in
  (o ← after; getitem o "gamma") = Ok (VFloat 0.5%float) ∧
  (o ← after; getitem o "lr") = Ok (VFloat 0.25%float) ∧
  (o ← after; getitem o "batch_size") = Ok (VInt 32).
Proof.
  cbv zeta.
  rewrite (proj1 (UpdateConfig_overwrites_section_keys
             (sample_outside ∅ sample_file "off-policy") sample_config sample_file
             (dict [("gamma", VFloat 0.5%float); ("lr", VFloat 0.25%float)])
             (VStr "algo.yaml") "algo" (new_agent []) eq_refl eq_refl)).
  repeat split; vm_compute; reflexivity.
Defined.

(** C10 on the mode 'actor'. *)
Lemma run_unknown_mode_raises_witness :
  run (sample_outside ∅ ∅ "off-policy") (VStr "actor") (new_agent []) =
    (Raise (Exception "unknown mode"), new_agent []).
Proof. apply run_unknown_mode_raises; discriminate. Defined.


(** * The rest of the module

    What follows covers the two functions of the module, the whole of
    [__init__] and the methods, beyond the statements above. *)

(** ** More ways to reason about computations *)

Lemma bind_raise {A B} (m : M A) (k : A → M B) s e s' :
  m s = (Raise e, s') → (m ≫= k) s = (Raise e, s').
Proof. intros H. unfold mbind, M_bind. by rewrite H. Qed.

Lemma bind_assoc {A B C} (m : M A) (k : A → M B) (k' : B → M C) (s : state) :
  ((m ≫= k) ≫= k') s = (m ≫= (λ a, k a ≫= k')) s.
Proof. unfold mbind, M_bind. by destruct (m s) as [[a|e] s1]. Qed.

Lemma attr_ok {A} (f : state → option A) (name : string) (s : state) (a : A) :
  f s = Some a → attr f name s = (Ok a, s).
Proof. intros H. unfold attr. by rewrite H. Qed.

Lemma item_run (f : state → value) (k : string) (s : state) :
  item f k s = (getitem (f s) k, s).
Proof. done. Qed.

Lemma setitem_getitem (o : value) (k : string) (v o' : value) :
  setitem o k v = Ok o' → getitem o' k = Ok v.
Proof. destruct o; try done. intros [= <-]. cbn. by rewrite lookup_insert_eq. Qed.

Lemma setitem_other (o : value) (k k' : string) (v o' : value) :
  setitem o k v = Ok o' → k' ≠ k → getitem o' k' = getitem o k'.
Proof.
  destruct o; try done. intros [= <-] Hk. cbn. by rewrite lookup_insert_ne.
Qed.

Ltac head_of t :=
  lazymatch t with
  | ?f _ => head_of f
  | _ => t
  end.

Ltac key_in :=
  lazymatch goal with
  | |- ?x ∈ ?l => exact (@bool_decide_unpack (x ∈ l) _ I)
  end.

(** One step for [keeps]: a combinator is taken apart, anything else is
    opened. *)
Ltac kept_step :=
  first
    [ apply keeps_write; intros; reflexivity
    | keeps_step
    | lazymatch goal with
      | |- keeps _ ?m => let h := head_of m in unfold h
      end ].

(** *** From a state to a related one *)

(** [m] takes every state to one related to it by [R], whether it returns
    or raises. *)
Definition moves {A} (R : relation state) (m : M A) : Prop :=
  ∀ s, R s (m s).2.

Section moves.
Context (R : relation state) `{!PreOrder R}.

Lemma moves_same {A} (m : M A) : (∀ s, (m s).2 = s) → moves R m.
Proof. intros H s. by rewrite H. Qed.

Lemma moves_ret {A} (a : A) : moves R (mret a).
Proof. by apply moves_same. Qed.

Lemma moves_bind {A B} (m : M A) (k : A → M B) :
  moves R m → (∀ a, moves R (k a)) → moves R (m ≫= k).
Proof.
  intros Hm Hk s. unfold mbind, M_bind. specialize (Hm s).
  destruct (m s) as [[a|e] s1]; cbn [snd] in *; [|done].
  etrans; [exact Hm | apply Hk].
Qed.

Lemma moves_lift {A} (r : result A) : moves R (lift r).
Proof. by apply moves_same. Qed.

Lemma moves_raise {A} (e : exn) : moves R (raise e : M A).
Proof. by apply moves_same. Qed.

Lemma moves_read {A} (g : state → A) : moves R (read g).
Proof. by apply moves_same. Qed.

Lemma moves_attr {A} (g : state → option A) name : moves R (attr g name).
Proof. apply moves_same. intros s. unfold attr. by destruct (g s). Qed.

Lemma moves_global name : moves R (global name).
Proof. apply moves_same. intros s. unfold global. by destruct (bound name). Qed.

Lemma moves_write (g : state → state) : (∀ s, R s (g s)) → moves R (write g).
Proof. intros Hg s. apply Hg. Qed.

Lemma moves_try_except {A} (body : M A) (handler : exn → M A) :
  moves R body → (∀ e, moves R (handler e)) → moves R (try_except body handler).
Proof.
  intros Hb Hh s. unfold try_except. specialize (Hb s).
  destruct (body s) as [[a|e] s1]; cbn [snd] in *; [done|].
  destruct (is_Exception e); [|done]. etrans; [exact Hb | apply Hh].
Qed.

Lemma moves_for_each {A} (l : list A) (body : A → M unit) :
  (∀ a, moves R (body a)) → moves R (for_each l body).
Proof.
  intros Hb. induction l as [|a l IH]; cbn [for_each].
  - apply moves_ret.
  - apply moves_bind; [apply Hb | intros _; apply IH].
Qed.

Hypothesis R_call : ∀ c s, R s (record_call c s).

Lemma moves_ext outside fn args : moves R (ext outside fn args).
Proof. intros s. apply R_call. Qed.

End moves.

Ltac moves_step :=
  lazymatch goal with
  | |- moves _ (mbind _ _) => apply moves_bind; [try apply _| |intros]
  | |- moves _ (mret _) => apply moves_ret; try apply _
  | |- moves _ (lift _) => apply moves_lift; try apply _
  | |- moves _ (raise _) => apply moves_raise; try apply _
  | |- moves _ (read _) => apply moves_read; try apply _
  | |- moves _ (attr _ _) => apply moves_attr; try apply _
  | |- moves _ (global _) => apply moves_global; try apply _
  | |- moves _ (try_except _ _) => apply moves_try_except; [try apply _| |intros]
  | |- moves _ (for_each _ _) => apply moves_for_each; [try apply _|intros]
  | |- moves _ (if ?b then _ else _) => destruct b
  | |- moves _ (match ?x with _ => _ end) => destruct x
  | |- moves _ (let '_ := ?x in _) => destruct x
  end.

(** Reading [f] at a key outside [keys] gives what it gave before: the
    same value, or the same error. *)
Definition untouched (f : state → value) (keys : list string) : relation state :=
  λ s s', ∀ k, k ∉ keys → getitem (f s') k = getitem (f s) k.

#[local] Instance untouched_preorder f keys : PreOrder (untouched f keys).
Proof.
  split.
  - by intros s k _.
  - intros s1 s2 s3 H12 H23 k Hk. by rewrite H23, H12.
Qed.

Lemma untouched_same f keys s s' : f s' = f s → untouched f keys s s'.
Proof. intros H k _. by rewrite H. Qed.

Lemma moves_set_item (f : state → value) (setf : value → state → state)
    (keys : list string) (k : string) (v : value) :
  (∀ o s, f (setf o s) = o) → k ∈ keys →
  moves (untouched f keys) (set_item f setf k v).
Proof.
  intros Hset Hk s k' Hk'. unfold set_item, read, lift, write, mbind, M_bind.
  destruct (f s) as [| | | | | |d] eqn:E; cbn [setitem snd]; rewrite ?E; try done.
  rewrite Hset. cbn [getitem]. rewrite lookup_insert_ne; [done|]. by intros ->.
Qed.

(** One step for the attribute [f], assigned by [setf]: an assignment to
    one of its keys is taken as a whole, anything else is opened. *)
Ltac frame_step f setf :=
  first
    [ apply (moves_set_item f setf); [intros; reflexivity | key_in]
    | apply moves_write; intros; apply untouched_same; reflexivity
    | apply moves_ext; intros; apply untouched_same; reflexivity
    | moves_step
    | lazymatch goal with
      | |- moves _ ?m => let h := head_of m in unfold h
      end ].

Ltac frame f setf := repeat frame_step f setf.

(** Reading [self.algo_args] at a key outside [keys] gives what it gave
    before. *)
Definition untouched_algo (keys : list string) : relation state :=
  λ s s', ∀ k, k ∉ keys → (algo_item k s').1 = (algo_item k s).1.

#[local] Instance untouched_algo_preorder keys : PreOrder (untouched_algo keys).
Proof.
  split.
  - by intros s k _.
  - intros s1 s2 s3 H12 H23 k Hk. by rewrite H23, H12.
Qed.

Lemma algo_item_run (k : string) (s : state) :
  (algo_item k s).1 =
    match algo_args s with
    | Some o => getitem o k
    | None => Raise (AttributeError "algo_args")
    end.
Proof. unfold algo_item, attr, lift, mbind, M_bind. by destruct (algo_args s). Qed.

Lemma untouched_algo_same keys s s' : algo_args s' = algo_args s → untouched_algo keys s s'.
Proof. intros H k _. by rewrite !algo_item_run, H. Qed.

Lemma moves_set_algo_item (keys : list string) (k : string) (v : value) :
  k ∈ keys → moves (untouched_algo keys) (set_algo_item k v).
Proof.
  intros Hk s k' Hk'. rewrite !algo_item_run.
  unfold set_algo_item, attr, lift, write, mbind, M_bind.
  destruct (algo_args s) as [o|] eqn:E; cbn [snd]; rewrite ?E; [|done].
  destruct o; cbn [setitem snd]; rewrite ?E; try done.
  cbn [algo_args set_algo_args getitem]. rewrite lookup_insert_ne; [done|]. by intros ->.
Qed.

Lemma update_other_keys (o o' : value) (kvs : list (string * value)) (k : string) :
  update o kvs = Ok o' → k ∉ kvs.*1 → getitem o' k = getitem o k.
Proof.
  destruct o as [| | | | | |d]; try done. intros [= <-]. cbn [getitem].
  revert d. induction kvs as [|[k0 v0] kvs IH]; intros d Hk; [done|].
  cbn [foldl fst snd]. rewrite IH.
  - rewrite lookup_insert_ne; [done|]. intros ->. apply Hk. left.
  - intros H. apply Hk. by right.
Qed.

(** *** Once a computation has returned *)

(** [Q] holds of the result and the state whenever [m] returns from [s]. *)
Definition wp {A} (m : M A) (Q : A → state → Prop) (s : state) : Prop :=
  ∀ a s', m s = (Ok a, s') → Q a s'.

Lemma wp_ret {A} (a : A) (Q : A → state → Prop) s : Q a s → wp (mret a) Q s.
Proof. by intros H ? ? [= <- <-]. Qed.

Lemma wp_bind {A B} (m : M A) (k : A → M B) (Q : B → state → Prop) s :
  wp m (λ a s1, wp (k a) Q s1) s → wp (m ≫= k) Q s.
Proof.
  intros H b s'. unfold mbind, M_bind.
  destruct (m s) as [[a|e] s1] eqn:E; [|done]. by apply H.
Qed.

Lemma wp_lift {A} (r : result A) (Q : A → state → Prop) s :
  (∀ a, r = Ok a → Q a s) → wp (lift r) Q s.
Proof. intros H a s' [= -> <-]. by apply H. Qed.

Lemma wp_read {A} (f : state → A) (Q : A → state → Prop) s : Q (f s) s → wp (read f) Q s.
Proof. by intros H ? ? [= <- <-]. Qed.

Lemma wp_write (g : state → state) (Q : unit → state → Prop) s :
  Q tt (g s) → wp (write g) Q s.
Proof. by intros H ? ? [= <- <-]. Qed.

Lemma wp_attr {A} (f : state → option A) name (Q : A → state → Prop) s :
  (∀ a, f s = Some a → Q a s) → wp (attr f name) Q s.
Proof.
  intros H a s'. unfold attr. destruct (f s) as [a'|]; [|done].
  intros [= <- <-]. by apply H.
Qed.

Lemma wp_ext outside fn args (Q : value → state → Prop) s :
  (∀ r, outside (trace s) (fn, args) = Ok r → Q r (record_call (fn, args) s)) →
  wp (ext outside fn args) Q s.
Proof. intros H r s'. unfold ext. intros [= Hr <-]. by apply H. Qed.

Lemma wp_item (f : state → value) k (Q : value → state → Prop) s :
  (∀ v, getitem (f s) k = Ok v → Q v s) → wp (item f k) Q s.
Proof. intros H v s'. rewrite item_run. intros [= Hv <-]. by apply H. Qed.

Lemma wp_set_item (f : state → value) (setf : value → state → state) k v
    (Q : unit → state → Prop) s :
  (∀ o', setitem (f s) k v = Ok o' → Q tt (setf o' s)) → wp (set_item f setf k v) Q s.
Proof.
  intros H a s'. unfold set_item, read, lift, write, mbind, M_bind.
  destruct (setitem (f s) k v) as [o'|] eqn:E; [|done]. intros [= <- <-]. by apply H.
Qed.

Lemma wp_set_algo_item k v (Q : unit → state → Prop) s :
  (∀ o o', algo_args s = Some o → setitem o k v = Ok o' → Q tt (set_algo_args o' s)) →
  wp (set_algo_item k v) Q s.
Proof.
  intros H a s'. unfold set_algo_item, attr, lift, write, mbind, M_bind.
  destruct (algo_args s) as [o|] eqn:Eo; [|done].
  destruct (setitem o k v) as [o'|] eqn:E; [|done]. intros [= <- <-]. by eapply H.
Qed.

Lemma wp_keeps {X A} (f : state → X) (m : M A) (Q : A → state → Prop) s :
  keeps f m → (∀ a s', f s' = f s → Q a s') → wp m Q s.
Proof. intros Hk H a s' E. apply H. specialize (Hk s). by rewrite E in Hk. Qed.

Lemma wp_moves {A} (R : relation state) (m : M A) (Q : A → state → Prop) s :
  moves R m → (∀ a s', R s s' → Q a s') → wp m Q s.
Proof. intros Hm H a s' E. apply H. specialize (Hm s). by rewrite E in Hm. Qed.

Lemma wp_and {A} (m : M A) (Q1 Q2 : A → state → Prop) s :
  wp m Q1 s → wp m Q2 s → wp m (λ a s', Q1 a s' ∧ Q2 a s') s.
Proof. intros H1 H2 a s' E. split; [by apply H1 | by apply H2]. Qed.

Lemma wp_mono {A} (m : M A) (Q1 Q2 : A → state → Prop) s :
  wp m Q1 s → (∀ a s', Q1 a s' → Q2 a s') → wp m Q2 s.
Proof. intros H1 H a s' E. by apply H, H1. Qed.


Lemma wp_quiet {X A} (P : call → Prop) (f : state → X) (m : M A)
    (Q : A → state → Prop) s :
  emits P m → keeps f m →
  (∀ a s' l, trace s' = trace s ++ l → Forall P l → f s' = f s → Q a s') →
  wp m Q s.
Proof.
  intros He Hk H a s' E. destruct (He s) as (l & Hl & HP). specialize (Hk s).
  rewrite E in Hl, Hk. by eapply H.
Qed.

(** What a method that returned leaves, from what holds whenever it
    returns. *)
Lemma wp_returned {A} (m : M A) (Q : A → state → Prop) (s : state) (a : A) :
  wp m Q s → (m s).1 = Ok a → Q a (m s).2.
Proof. intros H E. apply H. destruct (m s) as [r s']. cbn in E. by subst. Qed.

Ltac wp_pairs :=
  repeat lazymatch goal with
  | |- wp (let '_ := ?x in _) _ _ => destruct x
  end.

(** A step whose result and effect do not matter. *)
Ltac wp_forget := apply wp_bind; intros ? ? _; wp_pairs.

(** A step that leaves [f] as it was. *)
Ltac wp_over f :=
  apply wp_bind; apply (wp_keeps f);
  [ repeat kept_step
  | let a := fresh "a" in
    let s' := fresh "s" in
    let H := fresh "Hf" in
    intros a s' H; try rewrite <- H in *; clear H; wp_pairs ].

Lemma filter_none {A} (P : A → Prop) `{!∀ x, Decision (P x)} (l : list A) :
  Forall (λ x, ¬ P x) l → filter P l = [].
Proof.
  induction 1 as [|x l Hx _ IH]; [done|]. by rewrite filter_cons_False.
Qed.

(** ** Text *)

Lemma length_append (s t : string) :
  String.length (s ++ t)%string = (String.length s + String.length t)%nat.
Proof. induction s as [|c s IH]; simpl; [done|]. by rewrite IH. Qed.

Lemma length_spaces (n : nat) : String.length (spaces n) = n.
Proof. induction n as [|n IH]; cbn; [done|]. by rewrite IH. Qed.

Lemma join_not_strings (args : list value) :
  Exists (λ v, ∀ t, v ≠ VStr t) args → join args = Raise TypeError.
Proof.
  induction 1 as [v args Hv|v args _ IH]; cbn [join].
  - destruct v; try done. by destruct (Hv s).
  - rewrite IH. by destruct v.
Qed.

(** The arguments of the [logger.info] calls among [l], in order. *)
Definition logged (l : list call) : list (list value) :=
  omap (λ c : call, if String.eqb c.1 "logger.info" then Some c.2 else None) l.

(** The lines of a table of [rows]: a rule before each row and one at the
    end. *)
Definition table (rows : list string) : list (list value) :=
  flat_map (λ row, [[VStr (dashes 60)]; [VStr row]]) rows ++ [[VStr (dashes 60)]].

(** A section the loop of [UpdateConfig] cannot go through: a scalar, or a
    string that is not empty. *)
Definition unusable (section : value) : bool :=
  match section with
  | VNone | VBool _ | VInt _ | VFloat _ => true
  | VStr s => negb (String.eqb s "")
  | VList _ | VDict _ => false
  end.

(** The variant lines 111-137 select for the algorithm configuration
    [a] of an off-policy algorithm. *)
Definition variant_of (a : gmap string value) : string :=
  if eq_True (default VNone (a !! "use_rnn")) then "EpisodeER"
  else
    let use_priority := truthy (default (VBool false) (a !! "use_priority")) in
    let n_step := truthy (default (VBool false) (a !! "n_step")) in
    if use_priority && n_step then "NstepPER"
    else if use_priority then "PER"
    else if n_step then "NstepER"
    else "ER".

(** The keys of [train_args] that construction assigns. *)
Definition assigned_train_keys : list string :=
  ["policy_mode"; "pre_fill_steps"; "begin_train_step"; "begin_frame_step";
   "begin_episode"].

(** The keys of [algo_args] that lines 110-272 assign. *)
Definition assigned_algo_keys : list string :=
  ["gamma"; "s_dim"; "visual_sources"; "visual_resolution"; "a_dim"; "is_continuous";
   "max_train_step"; "base_dir"; "seed"; "n_agents"; "brain_controls"].

Ltac key_out keys :=
  unfold keys; rewrite !elem_of_cons, elem_of_nil;
  intros ?; intuition discriminate.

(** The calls that build the buffer and the model and attach one to the
    other. *)
Definition wiring_calls : list string :=
  ["get_buffer"; "Model"; "model.set_buffer"; "model.init_or_restore";
   "model.get_init_training_info"].

Definition wiring (c : call) : Prop := c.1 ∈ wiring_calls.

#[local] Instance wiring_dec c : Decision (wiring c).
Proof. unfold wiring. apply _. Defined.

Definition not_wiring (c : call) : Prop := ¬ wiring c.

(** From [st], the wiring calls made up to [s] are [L], in this order. *)
Definition wired (st : state) (L : list call) (s : state) : Prop :=
  ∃ l, trace s = trace st ++ l ∧ filter wiring l = L.

Lemma wired_start st : wired st [] st.
Proof. exists []. by rewrite app_nil_r. Qed.

Lemma wired_skip st L s s' l :
  wired st L s → trace s' = trace s ++ l → Forall not_wiring l → wired st L s'.
Proof.
  intros (l0 & Hl0 & HL) Hl HP. exists (l0 ++ l). split; [by rewrite Hl, Hl0, app_assoc|].
  by rewrite filter_app, HL, (filter_none _ l), app_nil_r.
Qed.

Lemma wired_call st L s c :
  wired st L s → wiring c → wired st (L ++ [c]) (record_call c s).
Proof.
  intros (l0 & Hl0 & HL) Hc. exists (l0 ++ [c]). split.
  - cbn [trace record_call]. by rewrite Hl0, app_assoc.
  - rewrite filter_app, HL. f_equal. by rewrite filter_cons_True.
Qed.

Lemma wired_then st L1 s L2 s' :
  wired st L1 s → wired s L2 s' → wired st (L1 ++ L2) s'.
Proof.
  intros (l1 & Hl1 & HL1) (l2 & Hl2 & HL2). exists (l1 ++ l2).
  split; [by rewrite Hl2, Hl1, app_assoc|]. by rewrite filter_app, HL1, HL2.
Qed.


(** What the [try] part of [train] calls: a loop, and [int] and [str] for
    its arguments. *)
Definition loop_part : list string :=
  ["gym_no_op"; "gym_train"; "ma_unity_no_op"; "ma_unity_train"; "unity_no_op";
   "unity_train"; "int"; "str"].

Definition in_loop_part (c : call) : Prop := c.1 ∈ loop_part.

Definition inference_functions : list string :=
  ["gym_inference"; "ma_unity_inference"; "unity_inference"].

(** The agent has one model: its environment is a gym one, or it trains
    several agents at once. *)
Definition one_model (st : state) : Prop :=
  ∃ ty, getitem (env_args st) "type" = Ok ty ∧
        (eq_str ty "gym" = true ∨ multi_agents_training st = Some true).

(** The state in which line 90 starts. *)
Definition bound_arguments (env_args0 model_args0 buffer_args0 train_args0 : value)
    (s : state) : state :=
  set_train_args train_args0
    (set_buffer_args buffer_args0 (set_model_args model_args0 (set_env_args env_args0 s))).

Section functions.
Variable outside : list call → call → result value.

(** [str] gives text and [logger.info] returns, whatever was called
    before. *)
Definition printing : Prop :=
  (∀ h v, ∃ t, outside h ("str", [v]) = Ok (VStr t)) ∧
  (∀ h line, ∃ r, outside h ("logger.info", [line]) = Ok r).

(** *** UpdateConfig *)

(** The run of [UpdateConfig] on a file whose section is a mapping. *)
Lemma UpdateConfig_section (d content kv : gmap string value)
    (file_path : value) (key_name : string) (st : state) :
  outside (trace st) ("load_config", [file_path]) = Ok (VDict content) →
  content !! key_name = Some (VDict kv) →
  UpdateConfig outside (VDict d) file_path key_name st =
    (Ok (VDict (kv ∪ d)), record_call ("load_config", [file_path]) st).
Proof.
  intros Hload Hsec. unfold UpdateConfig, ext, try_except.
  change (global "load_config") with (mret tt : M unit).
  cbv beta iota zeta delta [mbind mret M_bind M_ret lift getitem]. rewrite Hload, Hsec.
  cbv beta iota zeta delta [iterate].
  destruct (update_keys_dict kv (map_to_list kv) d) as (d' & Hrun & Hd').
  { intros k v. apply elem_of_map_to_list. }
  rewrite Hrun. do 3 f_equal. apply map_eq. intros k. rewrite Hd'.
  rewrite lookup_union. destruct (decide (k ∈ (map_to_list kv).*1)) as [Hin|Hnin].
  - apply list_elem_of_fmap in Hin as ([k' v] & -> & Hin). apply elem_of_map_to_list in Hin.
    cbn [fst]. rewrite Hin. by destruct (d !! k').
  - assert (kv !! k = None) as ->.
    { destruct (kv !! k) as [v|] eqn:E; [|done]. exfalso. apply Hnin.
      apply list_elem_of_fmap. exists (k, v). split; [done|]. by apply elem_of_map_to_list. }
    by destruct (d !! k).
Qed.

(** X1. A file without the section [key_name] makes [UpdateConfig] raise
    [KeyError]: the section is looked up before the [try], so the error is
    neither logged nor turned into an exit. *)
Theorem UpdateConfig_missing_section (config file_path : value)
    (content : gmap string value) (key_name : string) (st : state) :
  outside (trace st) ("load_config", [file_path]) = Ok (VDict content) →
  content !! key_name = None →
  UpdateConfig outside config file_path key_name st =
    (Raise (KeyError key_name), record_call ("load_config", [file_path]) st).
Proof.
  intros Hload Hsec. unfold UpdateConfig, ext, try_except.
  change (global "load_config") with (mret tt : M unit).
  cbv beta iota zeta delta [mbind mret M_bind M_ret lift getitem]. by rewrite Hload, Hsec.
Qed.

(** X2. A section that is a scalar or a string that is not empty makes
    [UpdateConfig] log the [TypeError] once and leave by [sys.exit()],
    whatever the dictionary to update. *)
Theorem UpdateConfig_unusable_section_exits (config file_path section logged_as : value)
    (content : gmap string value) (key_name : string) (st : state) :
  outside (trace st) ("load_config", [file_path]) = Ok (VDict content) →
  content !! key_name = Some section → unusable section = true →
  outside (trace st ++ [("load_config", [file_path])]) ("logger.info", [VStr "TypeError"])
    = Ok logged_as →
  UpdateConfig outside config file_path key_name st =
    (Raise SystemExit,
     record_call ("logger.info", [VStr "TypeError"])
       (record_call ("load_config", [file_path]) st)).
Proof.
  intros Hload Hsec Hun Hlog. unfold UpdateConfig, ext, try_except.
  change (global "load_config") with (mret tt : M unit).
  cbv beta iota zeta delta [mbind mret M_bind M_ret lift getitem]. rewrite Hload, Hsec.
  destruct section as [| | | |s| |]; try done; [..|destruct s as [|c s]; [done|]];
    cbv beta iota zeta fix delta
      [iterate chars update_keys getitem_value as_index is_Exception describe raise].
  all: cbn [trace record_call].
  all: match goal with |- context [outside ?a ?b] =>
         change (outside a b = Ok logged_as) in Hlog; by rewrite Hlog end.
Qed.

(** X3. Updating from the same file twice gives what updating once
    gives: the second pass writes the values the first one wrote. *)
Theorem UpdateConfig_twice (d content kv : gmap string value)
    (file_path : value) (key_name : string) (st : state) :
  outside (trace st) ("load_config", [file_path]) = Ok (VDict content) →
  outside (trace st ++ [("load_config", [file_path])]) ("load_config", [file_path])
    = Ok (VDict content) →
  content !! key_name = Some (VDict kv) →
  (config ← UpdateConfig outside (VDict d) file_path key_name;
   UpdateConfig outside config file_path key_name) st =
    (Ok (VDict (kv ∪ d)),
     record_call ("load_config", [file_path])
       (record_call ("load_config", [file_path]) st)).
Proof.
  intros H1 H2 Hsec.
  erewrite bind_ok by by eapply UpdateConfig_section.
  erewrite UpdateConfig_section; [|exact H2|exact Hsec].
  do 3 f_equal. apply map_eq. intros k. rewrite !lookup_union.
  by destruct (kv !! k), (d !! k).
Qed.

(** *** ShowConfig *)

(** One turn of the loop of [ShowConfig] (lines 49-50). *)
Lemma ShowConfig_row (d : gmap string value) (k : string) (v : value) (st : state) :
  printing → d !! k = Some v →
  ∃ row st',
    (ext outside "logger.info" [VStr (dashes 60)] ;;
     k' ← ext outside "str" [VStr k];
     kl ← lift (ljust k' 28);
     v' ← lift (getitem_value (VDict d) (VStr k));
     sv ← ext outside "str" [v'];
     vr ← lift (rjust sv 28);
     ext outside "logger.info" [VStr ("|" ++ kl ++ vr ++ "|")%string] ;;
     mret tt) st = (Ok tt, st') ∧
    attributes st' = attributes st ∧
    (58 ≤ String.length row)%nat ∧
    ∃ l, trace st' = trace st ++ l ∧ logged l = [[VStr (dashes 60)]; [VStr row]].
Proof.
  intros [Hstr Hlog] Hk.
  destruct (Hlog (trace st) (VStr (dashes 60))) as [r1 H1].
  erewrite bind_ok by by apply ext_ok.
  set (s1 := record_call _ st).
  destruct (Hstr (trace s1) (VStr k)) as [tk H2].
  erewrite bind_ok by by apply ext_ok.
  set (s2 := record_call _ s1).
  erewrite bind_ok by reflexivity.
  cbn [getitem_value getitem]. rewrite Hk.
  erewrite bind_ok by reflexivity.
  destruct (Hstr (trace s2) v) as [tv H3].
  erewrite bind_ok by by apply ext_ok.
  set (s3 := record_call _ s2).
  erewrite bind_ok by reflexivity.
  set (row := ("|" ++ _ ++ _ ++ "|")%string).
  destruct (Hlog (trace s3) (VStr row)) as [r4 H4].
  erewrite bind_ok by by apply ext_ok.
  exists row, (record_call ("logger.info", [VStr row]) s3).
  split; [done|]. split; [done|]. split.
  - subst row. rewrite !length_append, !length_spaces. cbn [String.length]. lia.
  - eexists. split.
    + subst s3 s2 s1. cbn [trace record_call]. rewrite <- !app_assoc. reflexivity.
    + reflexivity.
Qed.

Lemma ShowConfig_rows (d : gmap string value) (keys : list (string * value)) :
  printing → (∀ k v, (k, v) ∈ keys → d !! k = Some v) →
  ∀ st, ∃ rows st',
    for_each ((λ kv, VStr kv.1) <$> keys) (λ key,
      ext outside "logger.info" [VStr (dashes 60)] ;;
      k ← ext outside "str" [key];
      kl ← lift (ljust k 28);
      v ← lift (getitem_value (VDict d) key);
      sv ← ext outside "str" [v];
      vr ← lift (rjust sv 28);
      ext outside "logger.info" [VStr ("|" ++ kl ++ vr ++ "|")%string] ;;
      mret tt) st = (Ok tt, st') ∧
    attributes st' = attributes st ∧
    length rows = length keys ∧
    Forall (λ row, (58 ≤ String.length row)%nat) rows ∧
    ∃ l, trace st' = trace st ++ l ∧
         logged l = flat_map (λ row, [[VStr (dashes 60)]; [VStr row]]) rows.
Proof.
  intros Hp. induction keys as [|[k v] keys IH]; intros Hkeys st.
  - exists [], st. repeat split; [constructor|]. exists []. by rewrite app_nil_r.
  - destruct (ShowConfig_row d k v st Hp) as (row & s1 & Hrun & Ha & Hrow & l1 & Hl1 & Hlog1).
    { apply Hkeys. left. }
    destruct (IH (λ k v H, Hkeys k v (list_elem_of_further _ _ _ H)) s1)
      as (rows & s2 & Hrun2 & Ha2 & Hlen & Hrows & l2 & Hl2 & Hlog2).
    exists (row :: rows), s2. split; [|split; [|split; [|split]]].
    + cbn [fmap list_fmap for_each fst]. erewrite bind_ok by exact Hrun. exact Hrun2.
    + by rewrite Ha2.
    + cbn. by rewrite Hlen.
    + by constructor.
    + exists (l1 ++ l2). split; [by rewrite Hl2, Hl1, app_assoc|].
      unfold logged in *. rewrite omap_app, Hlog1, Hlog2. reflexivity.
Qed.

(** X4. [ShowConfig] on a dictionary prints a table: a rule of 60 dashes
    before the row of each entry and one at the end, each row at least 58
    characters wide; it returns and assigns nothing. *)
Theorem ShowConfig_prints_table (d : gmap string value) (st : state) :
  printing →
  ∃ rows st' l,
    ShowConfig outside (VDict d) st = (Ok tt, st') ∧
    attributes st' = attributes st ∧
    trace st' = trace st ++ l ∧
    logged l = table rows ∧
    length rows = size d ∧
    Forall (λ row, (58 ≤ String.length row)%nat) rows.
Proof.
  intros Hp. unfold ShowConfig.
  erewrite bind_ok by reflexivity.
  destruct (ShowConfig_rows d (map_to_list d) Hp) with (st := st)
    as (rows & s1 & Hrun & Ha & Hlen & Hrows & l & Hl & Hlog).
  { intros k v. apply elem_of_map_to_list. }
  erewrite bind_ok by exact Hrun.
  destruct Hp as [_ Hinfo].
  destruct (Hinfo (trace s1) (VStr (dashes 60))) as [r Hr].
  erewrite bind_ok by by apply ext_ok.
  exists rows, (record_call ("logger.info", [VStr (dashes 60)]) s1),
    (l ++ [("logger.info", [VStr (dashes 60)])]).
  split; [done|]. split; [by rewrite <- Ha|]. split.
  { cbn [trace record_call]. by rewrite Hl, app_assoc. }
  split.
  { unfold logged, table in *. by rewrite omap_app, Hlog. }
  split; [|done]. by rewrite Hlen, length_map_to_list.
Qed.

End functions.

(** ** Construction *)

Section construction.
Variable outside : list call → call → result value.

(** Lines 142-272: the three paths. *)
Definition choose_path (Model : value) : M unit :=
  ty ← item env_args "type";
  if eq_str ty "gym" then init_gym outside Model
  else
    multi ← attr multi_agents_training "multi_agents_training";
    if multi : bool then init_unity_multi outside Model
    else init_unity_single outside Model.

(** Lines 110-272: the choice of the buffer and the path. *)
Definition after_algorithm (Model _policy_mode : value) : M unit :=
  init_buffer outside _policy_mode ;; choose_path Model.

(** Lines 90-94, after the four arguments are bound. *)
Definition name_and_clock : M unit :=
  name ← item train_args "name";
  write (set_name name) ;;
  base_dir ← item train_args "base_dir";
  name ← item train_args "name";
  path ← ext outside "os.path.join" [base_dir; name];
  set_item model_args set_model_args "base_dir" path ;;
  now ← ext outside "time.time" [];
  write (set_start_time now) ;;
  allow ← item_default train_args "allow_print" (VBool false);
  write (set_allow_print (truthy allow)).

(** Lines 90-272. *)
Definition after_arguments : M unit :=
  name_and_clock ;;
  '(Model, _policy_mode) ← init_algorithm outside;
  after_algorithm Model _policy_mode.

Lemma init_after_arguments (e m b t : value) (st : state) :
  __init__ outside e m b t st = after_arguments (bound_arguments e m b t st).
Proof.
  unfold __init__, init_attributes, after_arguments, name_and_clock, after_algorithm,
    choose_path, bound_arguments.
  rewrite bind_assoc. erewrite bind_ok by reflexivity.
  rewrite bind_assoc. erewrite bind_ok by reflexivity.
  rewrite bind_assoc. erewrite bind_ok by reflexivity.
  rewrite bind_assoc. erewrite bind_ok by reflexivity.
  reflexivity.
Qed.

(** *** The keys of the buffer configuration that construction assigns *)

(** The keys of [buffer_args] that construction assigns: the type, the
    two sizes, and the sections of the variants that have settings. *)
Definition assigned_buffer_keys : list string :=
  ["type"; "batch_size"; "buffer_size"; "EpisodeER"; "NstepPER"; "PER"; "NstepER"].

(** The type is one of those the choice of the buffer assigns. *)
Definition chosen (s : state) : Prop :=
  ∃ ty, ty ∈ ["EpisodeER"; "NstepPER"; "PER"; "NstepER"; "ER"; "None"] ∧
        selected s = Ok (VStr ty).

Definition settled : relation state :=
  λ s s', chosen s → chosen s' ∧ untouched buffer_args assigned_buffer_keys s s'.

#[local] Instance settled_preorder : PreOrder settled.
Proof.
  split.
  - intros s Hs. split; [done|]. by intros k _.
  - intros s1 s2 s3 H12 H23 H1. destruct (H12 H1) as [H2 U12].
    destruct (H23 H2) as [H3 U23]. split; [done|]. by etrans.
Qed.

Lemma settled_same s s' : buffer_args s' = buffer_args s → settled s s'.
Proof.
  intros H Hs. split.
  - unfold chosen, selected in *. by rewrite H.
  - by apply untouched_same.
Qed.

Lemma settled_agents_num : moves settled agents_num_of_env_num.
Proof.
  intros s (ty & Hin & Hsel). unfold selected in Hsel.
  unfold agents_num_of_env_num, item, set_item2, read, write, lift, mbind, M_bind.
  rewrite Hsel.
  assert (ty ≠ "type" ∧
          (nstep_or_episode (VStr ty) = Ok true → ty ∈ assigned_buffer_keys) ∧
          ∃ c, nstep_or_episode (VStr ty) = Ok c) as (Hty & Hkey & c & Hc).
  { rewrite !elem_of_cons, elem_of_nil in Hin.
    destruct Hin as [->|[->|[->|[->|[->|[->|[]]]]]]];
      (split; [discriminate|]); (split; [|eexists; reflexivity]);
      intros H; first [discriminate H | key_in]. }
  rewrite Hc. destruct c.
  2:{ split; [by exists ty|]. by intros k _. }
  destruct (getitem (env_args s) "env_num") as [n|]; cbn [snd];
    [|split; [by exists ty|]; by intros k _].
  rewrite Hsel.
  destruct (setitem2 (buffer_args s) (VStr ty) "agents_num" n) as [o'|] eqn:Es; cbn [snd];
    [|split; [by exists ty|]; by intros k _].
  split.
  - exists ty. split; [done|]. unfold selected. cbn [buffer_args set_buffer_args].
    rewrite <- Hsel. eapply setitem2_keeps_type; [|exact Es]. congruence.
  - intros k Hk. cbn [buffer_args set_buffer_args].
    apply setitem2_agents_num in Es as (k0 & sub & b0 & [= <-] & Hb & Hsub & ->).
    rewrite Hb. cbn [getitem]. rewrite lookup_insert_ne; [done|].
    intros <-. by apply Hk, Hkey.
Qed.

Ltac settled_step :=
  first
    [ apply settled_agents_num
    | apply moves_write; intros; apply settled_same; reflexivity
    | apply moves_ext; intros; apply settled_same; reflexivity
    | moves_step
    | lazymatch goal with
      | |- moves _ ?m => let h := head_of m in unfold h
      end ].

Lemma choose_path_settled (Model : value) : moves settled (choose_path Model).
Proof. unfold choose_path. repeat settled_step. Qed.

Lemma moves_set_item2 (f : state → value) (setf : value → state → state)
    (keys : list string) (k k2 : string) (v : value) :
  (∀ o s, f (setf o s) = o) → k ∈ keys →
  moves (untouched f keys) (set_item2 f setf (VStr k) k2 v).
Proof.
  intros Hset Hk s k' Hk'. unfold set_item2, read, lift, write, mbind, M_bind.
  destruct (setitem2 (f s) (VStr k) k2 v) as [o'|] eqn:Es; cbn [snd]; [|done].
  rewrite Hset. revert Es. unfold setitem2. cbn [mbind result_bind].
  destruct (getitem_value (f s) (VStr k)) as [inner|]; cbn [mbind result_bind]; [|done].
  destruct (setitem inner k2 v) as [inner'|]; cbn [mbind result_bind]; [|done].
  intros [= <-].
  destruct (f s); cbn [put_back getitem]; try done.
  rewrite lookup_insert_ne; [done|]. by intros ->.
Qed.

Ltac buffer_frame_step :=
  first
    [ apply (moves_set_item buffer_args set_buffer_args); [intros; reflexivity | key_in]
    | apply (moves_set_item2 buffer_args set_buffer_args); [intros; reflexivity | key_in]
    | apply moves_write; intros; apply untouched_same; reflexivity
    | apply moves_ext; intros; apply untouched_same; reflexivity
    | moves_step
    | lazymatch goal with
      | |- moves _ ?m => let h := head_of m in unfold h
      end ].

Lemma init_buffer_buffer_args (pm : value) :
  moves (untouched buffer_args assigned_buffer_keys) (init_buffer outside pm).
Proof. unfold init_buffer. repeat buffer_frame_step. Qed.

Ltac keeps_selected_step :=
  first
    [ apply nstep_gamma_keeps_selected; discriminate
    | apply priority_budget_keeps_selected; discriminate
    | apply set_item_buffer_keeps_selected; discriminate
    | apply set_item2_buffer_keeps_selected; discriminate
    | apply set_algo_item_keeps_selected
    | apply keeps_write; intros; reflexivity
    | keeps_step
    | lazymatch goal with
      | |- keeps _ ?m => let h := head_of m in unfold h
      end ].

(** The type is assigned, and what follows in the choice keeps it. *)
Ltac type_assigned :=
  intros o' Hty%setitem_getitem; cbv beta;
  lazymatch goal with
  | |- _ _ (set_buffer_args ?o ?s0) =>
      change (getitem o "type") with (selected (set_buffer_args o s0)) in Hty;
      revert Hty; generalize (set_buffer_args o s0); intros ? Hty
  end.

Ltac type_kept :=
  apply (wp_keeps selected);
  [ repeat keeps_selected_step
  | intros ? ? Hkeep; rewrite <- Hkeep in *; eexists; split; [|eassumption]; key_in ].

(** Lines 110-140, when they return: the type is one of six. *)
Lemma init_buffer_chosen (pm : value) (s : state) :
  wp (init_buffer outside pm) (λ _ s', chosen s') s.
Proof.
  unfold init_buffer. destruct (eq_str pm "off-policy").
  - wp_forget; [|do 6 wp_forget;
                  repeat lazymatch goal with
                  | |- wp (if ?c then _ else _) _ _ => destruct c
                  end].
    all: first
      [ apply wp_bind, wp_set_item; type_assigned; type_kept
      | apply wp_set_item; intros o' Hty%setitem_getitem;
        eexists; split; [|exact Hty]; key_in ].
  - apply wp_bind, wp_set_item. type_assigned. type_kept.
Qed.

Lemma after_arguments_buffer_args :
  moves (untouched buffer_args assigned_buffer_keys) after_arguments.
Proof.
  unfold after_arguments.
  apply moves_bind; [apply _ | unfold name_and_clock; frame buffer_args set_buffer_args |].
  intros _.
  apply moves_bind; [apply _ | unfold init_algorithm; frame buffer_args set_buffer_args |].
  intros [Model pm] s. unfold after_algorithm.
  pose proof (init_buffer_buffer_args pm s) as H1.
  pose proof (init_buffer_chosen pm s) as H2.
  unfold mbind, M_bind.
  destruct (init_buffer outside pm s) as [[[]|x] s1] eqn:E; cbn [snd] in *; [|done].
  etrans; [exact H1|]. by apply (choose_path_settled Model s1), (H2 tt s1 E).
Qed.

(** *** The choice of the buffer at its edges *)

Lemma set_item2_buffer_missing s b k k2 v :
  buffer_args s = VDict b → b !! k = None →
  set_item2 buffer_args set_buffer_args (VStr k) k2 v s = (Raise (KeyError k), s).
Proof.
  intros Hb Hk. unfold set_item2, read, lift, write, mbind, M_bind.
  rewrite Hb. unfold setitem2. cbn. by rewrite Hk.
Qed.

Lemma variant_of_cases (a : gmap string value) (u : value) :
  a !! "use_rnn" = Some u →
  let use_priority := truthy (default (VBool false) (a !! "use_priority")) in
  let n_step := truthy (default (VBool false) (a !! "n_step")) in
  (eq_True u = true ∧ variant_of a = "EpisodeER") ∨
  (eq_True u = false ∧ use_priority = true ∧ n_step = true ∧ variant_of a = "NstepPER") ∨
  (eq_True u = false ∧ use_priority = true ∧ n_step = false ∧ variant_of a = "PER") ∨
  (eq_True u = false ∧ use_priority = false ∧ n_step = true ∧ variant_of a = "NstepER") ∨
  (eq_True u = false ∧ use_priority = false ∧ n_step = false ∧ variant_of a = "ER").
Proof.
  intros Hu. cbv zeta. unfold variant_of. rewrite Hu.
  change (default VNone (Some u)) with u.
  destruct (eq_True u); [by left|].
  destruct (truthy (default (VBool false) (a !! "use_priority"))),
           (truthy (default (VBool false) (a !! "n_step"))); cbn [andb]; tauto.
Qed.

(** X10. Plain ER asks nothing of the buffer configuration: for an
    off-policy algorithm with neither [use_rnn == True] nor [use_priority]
    nor [n_step], the choice returns without calling anything, having
    written [batch_size], [buffer_size] and the type 'ER', whether or not
    the buffer configuration has a section for any variant. *)
Theorem plain_ER_needs_no_section (st : state) (a b : gmap string value) :
  algo_args st = Some (VDict a) → buffer_args st = VDict b →
  is_Some (a !! "use_rnn") → variant_of a = "ER" →
  init_buffer outside (VStr "off-policy") st =
    (Ok tt,
     set_buffer_args
       (VDict (<["type" := VStr "ER"]>
                 (<["buffer_size" := default (VInt 0) (a !! "buffer_size")]>
                    (<["batch_size" := default (VInt 0) (a !! "batch_size")]> b)))) st).
Proof.
  intros Ha Hb [u Hu] Hv.
  destruct (variant_of_cases a u Hu) as
    [[_ H]|[(_ & _ & _ & H)|[(_ & _ & _ & H)|[(_ & _ & _ & H)|(Hrnn & Hp & Hn & _)]]]];
    try (rewrite Hv in H; discriminate).
  unfold init_buffer. cbn [eq_str String.eqb Ascii.eqb Bool.eqb].
  erewrite bind_ok by by eapply algo_item_ok.
  rewrite Hrnn. repeat exec. rewrite Hp, Hn. cbn [andb].
  erewrite set_item_buffer_ok by (cbn; reflexivity).
  by rewrite !set_buffer_args_twice.
Qed.

(** X11. Every other variant needs its section: when the buffer
    configuration has no section named after the selected variant (and
    the keys read before it, [max_train_step] and [gamma], are there), the
    choice raises [KeyError] with the variant's name, calls nothing, and
    leaves the type already set to that variant. *)
Theorem selected_variant_needs_its_section (st : state) (a b t : gmap string value) :
  algo_args st = Some (VDict a) → buffer_args st = VDict b → train_args st = VDict t →
  is_Some (a !! "use_rnn") → is_Some (a !! "gamma") → is_Some (t !! "max_train_step") →
  variant_of a ≠ "ER" → b !! variant_of a = None →
  let run := init_buffer outside (VStr "off-policy") st in
  run.1 = Raise (KeyError (variant_of a)) ∧
  selected run.2 = Ok (VStr (variant_of a)) ∧
  trace run.2 = trace st.
Proof.
  intros Ha Hb Ht [u Hu] [g Hg] [budget Hbudget] Hv Hnone run. subst run.
  unfold init_buffer. cbn [eq_str String.eqb Ascii.eqb Bool.eqb].
  erewrite bind_ok by by eapply algo_item_ok.
  destruct (variant_of_cases a u Hu) as
    [[Hrnn H]|[(Hrnn & Hp & Hn & H)|[(Hrnn & Hp & Hn & H)|[(Hrnn & Hp & Hn & H)|
     (_ & _ & _ & H)]]]]; [| | | |done]; rewrite H in Hnone |- *; clear H Hv;
    rewrite Hrnn; repeat exec; rewrite ?Hp, ?Hn; cbn [andb]; repeat exec.
  - rewrite !set_buffer_args_twice.
    erewrite bind_raise
      by (eapply set_item2_buffer_missing; [reflexivity | by simplify_map_eq]).
    unfold selected. cbn [fst snd buffer_args set_buffer_args trace getitem].
    by simplify_map_eq.
  - rewrite !set_buffer_args_twice. unfold priority_budget.
    erewrite bind_raise.
    2:{ erewrite bind_ok by (eapply item_ok; [exact Ht|exact Hbudget]).
        eapply set_item2_buffer_missing; [reflexivity | by simplify_map_eq]. }
    unfold selected. cbn [fst snd buffer_args set_buffer_args trace getitem].
    by simplify_map_eq.
  - rewrite !set_buffer_args_twice. unfold priority_budget.
    erewrite bind_ok by (eapply item_ok; [exact Ht|exact Hbudget]).
    erewrite set_item2_buffer_missing; [|reflexivity|by simplify_map_eq].
    unfold selected. cbn [fst snd buffer_args set_buffer_args trace getitem].
    by simplify_map_eq.
  - rewrite !set_buffer_args_twice. unfold nstep_gamma.
    erewrite bind_ok by by eapply algo_item_ok.
    erewrite bind_raise
      by (eapply set_item2_buffer_missing; [reflexivity | by simplify_map_eq]).
    unfold selected. cbn [fst snd buffer_args set_buffer_args trace getitem].
    by simplify_map_eq.
Qed.

(** *** The policy mode and the steps of prefill *)

(** Lines 100-103: the policy mode is recorded. *)
Lemma init_algorithm_policy_mode (s : state) :
  wp (init_algorithm outside)
    (λ r s', getitem (train_args s') "policy_mode" = Ok r.2) s.
Proof.
  unfold init_algorithm.
  do 11 wp_forget.
  apply wp_bind, wp_set_item. intros o' Hpm%setitem_getitem. cbv beta.
  lazymatch goal with
  | |- wp _ _ (set_train_args ?o ?s0) =>
      change o with (train_args (set_train_args o s0)) in Hpm;
      revert Hpm; generalize (set_train_args o s0); intros ? Hpm
  end.
  do 6 wp_over train_args.
  by apply wp_ret.
Qed.

(** Lines 110-140: the steps of prefill are kept for an off-policy
    algorithm and set to 0 for any other. *)
Lemma init_buffer_prefill (pm : value) (s : state) :
  wp (init_buffer outside pm)
    (λ _ s', getitem (train_args s') "pre_fill_steps" =
             if eq_str pm "off-policy" then getitem (train_args s) "pre_fill_steps"
             else Ok (VInt 0)) s.
Proof.
  unfold init_buffer. destruct (eq_str pm "off-policy").
  - apply (wp_keeps train_args); [repeat kept_step|].
    intros _ s' Hs'. by rewrite Hs'.
  - wp_forget. apply wp_set_item. by intros o' Hpre%setitem_getitem.
Qed.

Lemma construction_settles_prefill_run (t : value) (s : state) :
  getitem (train_args s) "pre_fill_steps" = getitem t "pre_fill_steps" →
  wp after_arguments
    (λ _ after,
       ∃ pm, getitem (train_args after) "policy_mode" = Ok pm ∧
             getitem (train_args after) "pre_fill_steps" =
               if eq_str pm "off-policy" then getitem t "pre_fill_steps"
               else Ok (VInt 0)) s.
Proof.
  intros Ht. unfold after_arguments.
  wp_over train_args.
  apply wp_bind.
  eapply wp_mono.
  { apply wp_and; [apply init_algorithm_policy_mode|].
    apply (wp_moves (untouched train_args ["policy_mode"])).
    - unfold init_algorithm. frame train_args set_train_args.
    - intros ? ? H. exact H. }
  intros [Model pm] s1 [Hpm Hun]. cbn [snd] in Hpm.
  rewrite <- (Hun "pre_fill_steps") in Ht by (by intros ?%list_elem_of_singleton).
  clear Hun. unfold after_algorithm.
  apply wp_bind.
  eapply wp_mono.
  { apply wp_and; [apply init_buffer_prefill|].
    apply (wp_moves (untouched train_args ["pre_fill_steps"])).
    - unfold init_buffer. frame train_args set_train_args.
    - intros ? ? H. exact H. }
  intros _ s2 [Hpre Hun].
  rewrite <- (Hun "policy_mode") in Hpm by (by intros ?%list_elem_of_singleton).
  rewrite Ht in Hpre. clear Hun Ht.
  apply (wp_moves
           (untouched train_args ["begin_train_step"; "begin_frame_step"; "begin_episode"])).
  { unfold choose_path. frame train_args set_train_args. }
  intros _ s3 Hun. exists pm.
  split; (rewrite Hun; [done|]); rewrite !elem_of_cons, elem_of_nil;
    intros ?; intuition discriminate.
Qed.

(** X12. Once [__init__] has returned, [train_args] holds the policy
    mode, and the steps of prefill are the caller's for an off-policy
    algorithm and 0 for any other. *)
Theorem construction_settles_prefill (e m b t : value) (st : state) :
  (__init__ outside e m b t st).1 = Ok tt →
  let after := (__init__ outside e m b t st).2 in
  ∃ pm, getitem (train_args after) "policy_mode" = Ok pm ∧
        getitem (train_args after) "pre_fill_steps" =
          if eq_str pm "off-policy" then getitem t "pre_fill_steps" else Ok (VInt 0).
Proof.
  rewrite init_after_arguments. intros Hret.
  by apply (wp_returned _ _ _ tt
              (construction_settles_prefill_run t (bound_arguments e m b t st) eq_refl)).
Qed.

(** *** The algorithm's configuration after lines 100-107 *)

(** [self.algo_args.update({...})] changes the keys of the dictionary it
    is given, and no other. *)
Lemma moves_algo_update (keys : list string) (entries : M (list (string * value))) :
  moves (untouched_algo keys) entries →
  (∀ s, wp entries (λ kvs _, ∀ k, k ∈ kvs.*1 → k ∈ keys) s) →
  moves (untouched_algo keys) (algo_update entries).
Proof.
  intros Hm Hret s k Hk. unfold algo_update.
  destruct (algo_args s) as [o|] eqn:Eo.
  2:{ erewrite bind_raise by (unfold attr; rewrite Eo; reflexivity). done. }
  erewrite bind_ok by (apply attr_ok; exact Eo).
  destruct (update o []) eqn:Eu0.
  2:{ erewrite bind_raise by reflexivity. done. }
  erewrite bind_ok by reflexivity.
  specialize (Hm s k Hk). specialize (Hret s).
  destruct (entries s) as [[kvs|e] s1] eqn:Ee; cbn [snd] in Hm.
  2:{ erewrite bind_raise by exact Ee. exact Hm. }
  erewrite bind_ok by exact Ee.
  specialize (Hret kvs s1 Ee). cbn beta in Hret.
  rewrite <- Hm. rewrite !algo_item_run.
  unfold attr, lift, write, mbind, M_bind.
  destruct (algo_args s1) as [o1|] eqn:E1; cbn [snd]; rewrite ?E1; [|done].
  destruct (update o1 kvs) as [o'|] eqn:Eu; cbn [snd]; rewrite ?E1; [|done].
  cbn [algo_args set_algo_args]. eapply update_other_keys; [exact Eu|].
  intros Hin. by apply Hk, Hret.
Qed.

Ltac algo_frame_step :=
  first
    [ apply moves_set_algo_item; key_in
    | apply moves_algo_update;
      [ | intros; repeat (apply wp_bind; intros ? ? _); apply wp_ret;
          cbn [fmap list_fmap fst]; intros ? ?;
          lazymatch goal with
          | H : ?k ∈ ?l |- ?k ∈ ?l' =>
              revert H; unfold assigned_algo_keys; rewrite !elem_of_cons, !elem_of_nil; tauto
          end ]
    | apply moves_write; intros; apply untouched_algo_same; reflexivity
    | apply moves_ext; intros; apply untouched_algo_same; reflexivity
    | moves_step
    | lazymatch goal with
      | |- moves _ ?m => let h := head_of m in unfold h
      end ].

Lemma after_algorithm_algo_args (Model pm : value) :
  moves (untouched_algo assigned_algo_keys) (after_algorithm Model pm).
Proof. unfold after_algorithm, choose_path. repeat algo_frame_step. Qed.

(** X13. After lines 100-107, construction assigns in [self.algo_args]
    only [gamma] and the keys handed to [update]: whether the rest of
    [__init__] returns or raises, every other key -- the algorithm's own
    settings -- reads as before. *)
Theorem rest_of_construction_keeps_algorithm_keys (Model pm : value) (st : state)
    (k : string) :
  k ∉ assigned_algo_keys →
  (algo_item k (after_algorithm Model pm st).2).1 = (algo_item k st).1.
Proof. intros Hk. by apply after_algorithm_algo_args. Qed.

(** Lines 106-107: [use_rnn] of the model's configuration goes into the
    algorithm's. *)
Lemma init_algorithm_use_rnn (s : state) :
  wp (init_algorithm outside)
    (λ _ s', (algo_item "use_rnn" s').1 = getitem (model_args s) "use_rnn") s.
Proof.
  unfold init_algorithm.
  do 14 wp_over model_args.
  apply wp_bind, wp_item. intros u Hu. rewrite Hu.
  apply wp_bind, wp_set_algo_item. intros o o' _ Hset%setitem_getitem. cbv beta.
  lazymatch goal with
  | |- wp _ _ (set_algo_args ?o ?s0) =>
      assert (algo_args (set_algo_args o s0) = Some o) as Ho by reflexivity;
      revert Ho; generalize (set_algo_args o s0); intros ? Ho
  end.
  do 2 wp_over algo_args.
  apply wp_ret. by rewrite algo_item_run, Ho.
Qed.

Lemma use_rnn_run (m : value) (s : state) :
  getitem (model_args s) "use_rnn" = getitem m "use_rnn" →
  wp after_arguments (λ _ after, (algo_item "use_rnn" after).1 = getitem m "use_rnn") s.
Proof.
  intros Hm. unfold after_arguments.
  apply wp_bind. apply (wp_moves (untouched model_args ["base_dir"])).
  { unfold name_and_clock. frame model_args set_model_args. }
  intros _ s1 Hun.
  rewrite <- (Hun "use_rnn") in Hm by (by intros ?%list_elem_of_singleton).
  clear Hun.
  apply wp_bind. eapply wp_mono; [apply init_algorithm_use_rnn|].
  intros [Model pm] s2 Hrnn. rewrite Hm in Hrnn. clear Hm.
  apply (wp_moves _ _ _ _ (after_algorithm_algo_args Model pm)).
  intros _ after Hun. rewrite Hun; [done|]. key_out assigned_algo_keys.
Qed.

(** X14. Once [__init__] has returned, [use_rnn] of the algorithm's
    configuration is the one of the model's configuration the caller
    gave, whatever the algorithm's own defaults and file say. *)
Theorem use_rnn_is_the_callers (e m b t : value) (st : state) :
  (__init__ outside e m b t st).1 = Ok tt →
  (algo_item "use_rnn" (__init__ outside e m b t st).2).1 = getitem m "use_rnn".
Proof.
  rewrite init_after_arguments. intros Hret.
  by apply (wp_returned _ _ _ tt (use_rnn_run m (bound_arguments e m b t st) eq_refl)).
Qed.

(** *** How a gym agent is put together *)

Ltac not_wiring_name :=
  unfold not_wiring, wiring; cbn [fst];
  lazymatch goal with
  | |- ?P => exact (@bool_decide_unpack P _ I)
  end.

Ltac wiring_name :=
  unfold wiring; cbn [fst];
  lazymatch goal with
  | |- ?P => exact (@bool_decide_unpack P _ I)
  end.

Ltac quiet_step :=
  first
    [ apply emits_write; intros; reflexivity
    | apply emits_ext; not_wiring_name
    | emits_step
    | lazymatch goal with
      | |- emits _ ?m => let h := head_of m in unfold h
      end ].








(** *** One model for each brain, when the loop returns *)

(** What one turn of the loop builds: the buffer configuration handed to
    [get_buffer], the buffer, the algorithm configuration handed to the
    model's class, the model, and the path it is restored from. *)
Record round : Type := mkRound {
  round_config : value;
  round_buffer : value;
  round_algo : value;
  round_model : value;
  round_path : value
}.

(** The wiring calls of one turn; only the first brain's model is asked
    where training begins (lines 258-262). *)
Definition round_calls (Model : value) (first : bool) (r : round) : list call :=
  [("get_buffer", [round_config r]); ("Model", [Model; round_algo r]);
   ("model.set_buffer", [round_model r; round_buffer r]);
   ("model.init_or_restore", [round_model r; round_path r])] ++
  (if first then [("model.get_init_training_info", [round_model r])] else []).

Fixpoint rounds_calls (Model : value) (i : nat) (rs : list round) : list call :=
  match rs with
  | [] => []
  | r :: rs' => round_calls Model (Nat.eqb i 0) r ++ rounds_calls Model (S i) rs'
  end.

(** The buffer and the model of a turn are what [get_buffer] and the
    model's class returned. *)
Definition built (Model : value) (r : round) : Prop :=
  (∃ h, outside h ("get_buffer", [round_config r]) = Ok (round_buffer r)) ∧
  (∃ h, outside h ("Model", [Model; round_algo r]) = Ok (round_model r)).

(** The seed of brain [i]: line 241. *)
Definition seed_of (model_args0 : value) (i : nat) : result value :=
  seed ← getitem model_args0 "seed"; add_nat seed (i * 10).

(** What the loop keeps outside its wiring. *)
Definition brain_held (s : state) : option (list value) * value := (models s, model_args s).

Ltac wp_brain_quietly Hw :=
  apply wp_bind; apply (wp_quiet not_wiring brain_held);
  [ repeat quiet_step
  | repeat kept_step
  | let a := fresh "a" in
    let s' := fresh "s" in
    let l := fresh "l" in
    let Htr := fresh "Htr" in
    let HP := fresh "HP" in
    let Hf := fresh "Hf" in
    let Hf1 := fresh "Hf" in
    let Hf2 := fresh "Hf" in
    intros a s' l Htr HP Hf;
    apply (λ H, wired_skip _ _ _ _ _ H Htr HP) in Hw;
    injection Hf as Hf1 Hf2; try rewrite <- Hf1 in *; try rewrite <- Hf2 in *;
    clear Htr HP Hf1 Hf2 l ].

Ltac wp_brain_call Hw r Hr :=
  apply wp_bind, wp_ext; intros r Hr;
  apply (ex_intro (λ h, outside h _ = Ok r) _) in Hr;
  lazymatch goal with
  | |- _ _ (record_call ?c ?s0) =>
      apply (λ H, wired_call _ _ _ c H ltac:(wiring_name)) in Hw;
      cbn [app] in Hw;
      change (models s0) with (models (record_call c s0)) in *;
      change (model_args s0) with (model_args (record_call c s0)) in *;
      generalize dependent (record_call c s0); intros ?; intros
  end.

Lemma setattr_other (o : value) (k k' : string) (v o' : value) :
  setattr o k v = Ok o' → k' ≠ k → getitem o' k' = getitem o k'.
Proof.
  destruct o; try done. intros [= <-] Hk. cbn. by rewrite lookup_insert_ne.
Qed.

Lemma setitem_getattr (o : value) (k : string) (v o' : value) :
  setitem o k v = Ok o' → getattr o' k = Ok v.
Proof. destruct o; try done. intros [= <-]. cbn. by rewrite lookup_insert_eq. Qed.

(** Lines 233-272, when they return. *)
Lemma init_brain_run (Model : value) (i : nat) (b : value) (st : state) :
  wp (init_brain outside Model i b)
    (λ _ after,
       ∃ r ms,
         wired st (round_calls Model (Nat.eqb i 0) r) after ∧
         models st = Some ms ∧ models after = Some (ms ++ [round_model r]) ∧
         model_args after = model_args st ∧
         built Model r ∧
         getitem (round_algo r) "seed" = seed_of (model_args st) i) st.
Proof.
  lazymatch goal with
  | |- wp ?m ?Q st =>
      enough (∀ s, wired st [] s → models s = models st → model_args s = model_args st →
                   wp m Q s) as H
        by (apply H; [apply wired_start | reflexivity | reflexivity])
  end.
  intros s Hw Hms Hma. unfold init_brain, deepcopy.
  apply wp_bind, wp_read. apply wp_bind, wp_read.
  wp_brain_quietly Hw.
  apply wp_bind, wp_lift. intros base_dir _.
  wp_brain_quietly Hw.
  apply wp_bind, wp_lift. intros margs1 E1.
  do 6 wp_brain_quietly Hw.
  wp_brain_call Hw buffer Hbuffer.
  apply wp_bind, wp_lift. intros seed E2.
  apply wp_bind, wp_lift. intros seed' E3.
  apply wp_bind, wp_lift. intros margs2 E4.
  do 8 wp_brain_quietly Hw.
  apply wp_bind, wp_lift. intros seed'' E5.
  wp_brain_quietly Hw.
  apply wp_bind, wp_lift. intros aargs' E6.
  wp_brain_call Hw mdl Hmdl.
  wp_brain_call Hw attached Hattached. clear Hattached.
  wp_brain_call Hw restored Hrestored. clear Hrestored.
  apply wp_bind, wp_attr. intros ms Hms'. rewrite Hms in Hms'. clear Hms.
  apply wp_bind, wp_write.
  lazymatch goal with
  | |- _ _ (set_models ?l ?s0) =>
      assert (models (set_models l s0) = Some l) as Hmodels by reflexivity;
      change (model_args s0) with (model_args (set_models l s0)) in * |-;
      change (wired st ?L s0) with (wired st L (set_models l s0)) in Hw;
      generalize dependent (set_models l s0); intros ?; intros
  end.
  assert (getitem aargs' "seed" = seed_of (model_args st) i) as Hseed.
  { unfold seed_of. rewrite Hma in E1.
    rewrite <- (setattr_other _ _ "seed" _ _ E1) by done. rewrite E2. cbn [mbind result_bind].
    rewrite E3. apply setitem_getattr in E4. rewrite E4 in E5. injection E5 as <-.
    destruct a; try done. injection E6 as <-.
    cbn [foldl fst snd getitem]. rewrite lookup_insert_ne by done.
    by rewrite lookup_insert_eq. }
  clear E1 E2 E3 E4 E5 E6.
  destruct (i =? 0)%nat.
  - apply wp_bind. unfold begin_from.
    wp_brain_call Hw info Hinfo. clear Hinfo.
    apply (wp_quiet not_wiring brain_held); [repeat quiet_step | repeat kept_step |].
    intros _ s' l Htr HP [= Hf1 Hf2].
    apply (λ H, wired_skip _ _ _ _ _ H Htr HP) in Hw.
    rewrite <- Hf1 in Hmodels. rewrite <- Hf2 in Hma. clear Htr HP Hf1 Hf2 l.
    apply (wp_quiet not_wiring brain_held); [repeat quiet_step | repeat kept_step |].
    intros _ after l Htr HP [= Hf1 Hf2].
    apply (λ H, wired_skip _ _ _ _ _ H Htr HP) in Hw.
    rewrite <- Hf1 in Hmodels. rewrite <- Hf2 in Hma.
    eexists (mkRound _ _ _ _ _), ms.
    split; [exact Hw|]. split; [done|]. split; [exact Hmodels|]. split; [done|].
    split; [split; [exact Hbuffer | exact Hmdl] | exact Hseed].
  - wp_brain_quietly Hw.
    apply (wp_quiet not_wiring brain_held); [repeat quiet_step | repeat kept_step |].
    intros _ after l Htr HP [= Hf1 Hf2].
    apply (λ H, wired_skip _ _ _ _ _ H Htr HP) in Hw.
    rewrite <- Hf1 in Hmodels. rewrite <- Hf2 in Hma.
    eexists (mkRound _ _ _ _ _), ms.
    split; [exact Hw|]. split; [done|]. split; [exact Hmodels|]. split; [done|].
    split; [split; [exact Hbuffer | exact Hmdl] | exact Hseed].
Qed.

(** Lines 232-272: the loop from brain [i] on, when it returns. *)
Lemma brains_run (Model : value) (brains : list value) :
  ∀ (i : nat) (st : state),
  wp (for_each (enumerate_from i brains) (λ ib, init_brain outside Model ib.1 ib.2))
    (λ _ after,
       ∃ rs,
         length rs = length brains ∧
         wired st (rounds_calls Model i rs) after ∧
         (∀ ms, models st = Some ms → models after = Some (ms ++ (round_model <$> rs))) ∧
         model_args after = model_args st ∧
         Forall (built Model) rs ∧
         ∀ j r, rs !! j = Some r →
                getitem (round_algo r) "seed" = seed_of (model_args st) (i + j)) st.
Proof.
  induction brains as [|b brains IH]; intros i st.
  - apply wp_ret. exists []. split; [done|]. split; [apply wired_start|].
    split; [by intros ms ->; rewrite app_nil_r|]. by repeat split.
  - cbn [enumerate_from for_each fst snd]. apply wp_bind.
    eapply wp_mono; [apply init_brain_run|].
    intros _ s1 (r & ms & Hw1 & Hms & Hms1 & Hma1 & Hb & Hs).
    eapply wp_mono; [apply (IH (S i) s1)|].
    intros _ after (rs & Hlen & Hw2 & Hms2 & Hma2 & Hbs & Hss).
    exists (r :: rs). split; [by cbn; rewrite Hlen|].
    split; [exact (wired_then _ _ _ _ _ Hw1 Hw2)|].
    split; [|split; [by rewrite Hma2|split; [by constructor|]]].
    + intros ms0 Hms0. rewrite Hms in Hms0. injection Hms0 as <-.
      rewrite (Hms2 _ Hms1). cbn [fmap list_fmap]. by rewrite <- app_assoc.
    + intros [|j] r' Hr'.
      * injection Hr' as <-. by rewrite Nat.add_0_r.
      * rewrite (Hss j r' Hr'), Hma1. f_equal. lia.
Qed.

(** Lines 230-272, when they return. *)
Lemma init_unity_single_run (Model : value) (st : state) :
  wp (init_unity_single outside Model)
    (λ _ after,
       ∃ rs,
         wired st (rounds_calls Model 0 rs) after ∧
         models after = Some (round_model <$> rs) ∧
         Forall (built Model) rs ∧
         (∀ i r, rs !! i = Some r →
                 getitem (round_algo r) "seed" = seed_of (model_args st) i) ∧
         ∃ h e names brains,
           outside h ("getattr", [e; VStr "fixed_brain_names"]) = Ok names ∧
           iterate names = Ok brains ∧ length rs = length brains) st.
Proof.
  unfold init_unity_single, env_attr.
  apply wp_bind, wp_write. apply wp_bind. apply wp_bind, wp_attr. intros e _.
  apply wp_ext. intros names Hnames. apply wp_bind, wp_lift. intros brains Hbrains.
  eapply wp_mono; [apply brains_run|].
  intros _ after (rs & Hlen & Hw & Hms & Hma & Hb & Hs).
  exists rs. split; [|split; [|split; [done|split; [exact Hs|]]]].
  - assert (wired st [] (record_call ("getattr", [e; VStr "fixed_brain_names"])
                           (set_models [] st))) as Hw0.
    { apply (wired_skip st [] st _ [("getattr", [e; VStr "fixed_brain_names"])]);
        [apply wired_start | reflexivity |].
      constructor; [not_wiring_name | constructor]. }
    exact (wired_then _ _ _ _ _ Hw0 Hw).
  - by rewrite (Hms [] eq_refl).
  - by exists (trace (set_models [] st)), e, names, brains.
Qed.

(** X17. With one model for each brain: when the loop over the brains
    returns, it has gone once through each brain the environment names,
    building for each a buffer, then a model, attaching the one to the
    other and restoring the model, in this order and brain after brain;
    only the first brain's model is asked where training begins;
    [self.models] lists the models in the order of the brains. *)
Theorem brains_wiring (Model : value) (st : state) :
  (init_unity_single outside Model st).1 = Ok tt →
  let after := (init_unity_single outside Model st).2 in
  ∃ l rs,
    trace after = trace st ++ l ∧
    filter wiring l = rounds_calls Model 0 rs ∧
    models after = Some (round_model <$> rs) ∧
    Forall (built Model) rs ∧
    ∃ h e names brains,
      outside h ("getattr", [e; VStr "fixed_brain_names"]) = Ok names ∧
      iterate names = Ok brains ∧ length rs = length brains.
Proof.
  intros Hret.
  destruct (wp_returned _ _ _ tt (init_unity_single_run Model st) Hret)
    as (rs & (l & Hl & HL) & Hms & Hb & _ & Hcount).
  by exists l, rs.
Qed.

(** X18. The seeds of the brains: when the loop over the brains
    returns, the model of brain [i] was built with the seed of the model's
    configuration plus [10 * i]. *)
Theorem brain_seeds (Model : value) (st : state) :
  (init_unity_single outside Model st).1 = Ok tt →
  let after := (init_unity_single outside Model st).2 in
  ∃ l rs,
    trace after = trace st ++ l ∧
    filter wiring l = rounds_calls Model 0 rs ∧
    ∀ i r, rs !! i = Some r →
           getitem (round_algo r) "seed" = seed_of (model_args st) i.
Proof.
  intros Hret.
  destruct (wp_returned _ _ _ tt (init_unity_single_run Model st) Hret)
    as (rs & (l & Hl & HL) & _ & _ & Hs & _).
  by exists l, rs.
Qed.

(** *** Several agents with fewer than two brains *)

Lemma env_attr_ok (name : string) (s : state) (e v : value) :
  env s = Some e → outside (trace s) ("getattr", [e; VStr name]) = Ok v →
  env_attr outside name s = (Ok v, record_call ("getattr", [e; VStr name]) s).
Proof.
  intros He Hv. unfold env_attr.
  erewrite bind_ok by (apply attr_ok; exact He). by apply ext_ok.
Qed.

(** X19. Training several agents at once needs more than one brain:
    when the environment reports one brain or none, the path raises
    [AssertionError] right after asking, before any buffer or model is
    built. *)
Theorem several_agents_need_two_brains (Model e : value) (n : Z) (st : state) :
  env st = Some e →
  outside (trace st) ("getattr", [e; VStr "brain_num"]) = Ok (VInt n) →
  n ≤ 1 →
  init_unity_multi outside Model st =
    (Raise (AssertionError "if using ma* algorithms, number of brains must larger than 1"),
     record_call ("getattr", [e; VStr "brain_num"]) st).
Proof.
  intros He Hn Hle. unfold init_unity_multi.
  erewrite bind_ok by by eapply env_attr_ok.
  cbn [gt_int]. replace (n >? 1) with false by lia.
  erewrite bind_ok by reflexivity.
  by erewrite bind_raise by reflexivity.
Qed.

(** *** Printing after construction *)

(** Line 94: whether the agent may print. *)
Lemma name_and_clock_allow (s : state) :
  wp name_and_clock
    (λ _ s', ∃ allow, get_default (train_args s) "allow_print" (VBool false) = Ok allow ∧
                      _allow_print s' = Some (truthy allow)) s.
Proof.
  unfold name_and_clock.
  do 8 wp_over train_args.
  apply wp_bind. unfold item_default. apply wp_bind, wp_read. apply wp_lift.
  intros allow Hallow. apply wp_write. by exists allow.
Qed.

Lemma allow_print_run (t : value) (s : state) :
  train_args s = t →
  wp after_arguments
    (λ _ after, ∃ allow, get_default t "allow_print" (VBool false) = Ok allow ∧
                         _allow_print after = Some (truthy allow)) s.
Proof.
  intros <-. unfold after_arguments. apply wp_bind.
  eapply wp_mono; [apply name_and_clock_allow|].
  intros _ s1 (allow & Hallow & Hprint).
  apply (wp_keeps _allow_print).
  { unfold after_algorithm, choose_path. repeat kept_step. }
  intros _ after Hkeep. exists allow. by rewrite Hkeep.
Qed.

(** X20. An agent built without [allow_print] in its training
    configuration, or with one that is false, prints nothing: once
    [__init__] has returned, every call of [pwi] returns without calling
    anything. *)
Theorem silent_unless_allowed (e m b t allow : value) (st : state)
    (args : list value) (out_time : bool) :
  (__init__ outside e m b t st).1 = Ok tt →
  get_default t "allow_print" (VBool false) = Ok allow → truthy allow = false →
  let after := (__init__ outside e m b t st).2 in
  pwi outside args out_time after = (Ok tt, after).
Proof.
  rewrite init_after_arguments. intros Hret Hallow Hfalse.
  destruct (wp_returned _ _ _ tt
              (allow_print_run t (bound_arguments e m b t st) eq_refl) Hret)
    as (allow' & Hallow' & Hprint).
  rewrite Hallow in Hallow'. injection Hallow' as <-. rewrite Hfalse in Hprint.
  cbv zeta. unfold pwi. by erewrite bind_ok by (apply attr_ok; exact Hprint).
Qed.

(** *** The algorithm's file *)

Definition not_load_config (c : call) : Prop := c.1 ≠ "load_config".

(** The model's configuration names no file for the algorithm, and none
    is loaded. *)
Definition fileless : relation state :=
  λ s s', getitem (model_args s) "algo_config" = Ok VNone →
          getitem (model_args s') "algo_config" = Ok VNone ∧
          ∃ l, trace s' = trace s ++ l ∧ Forall not_load_config l.

#[local] Instance fileless_preorder : PreOrder fileless.
Proof.
  split.
  - intros s Hs. split; [done|]. exists []. by rewrite app_nil_r.
  - intros s1 s2 s3 H12 H23 H1. destruct (H12 H1) as (H2 & l1 & Hl1 & HP1).
    destruct (H23 H2) as (H3 & l2 & Hl2 & HP2). split; [done|].
    exists (l1 ++ l2). split; [by rewrite Hl2, Hl1, app_assoc|]. by apply Forall_app.
Qed.

Lemma fileless_simple {A} (m : M A) :
  emits not_load_config m → moves (untouched model_args ["base_dir"]) m →
  moves fileless m.
Proof.
  intros He Hm s Hs. split.
  - rewrite Hm; [done|]. by intros ?%list_elem_of_singleton.
  - apply He.
Qed.

Lemma fileless_read {A} (K : value → M A) :
  moves fileless (K VNone) → moves fileless (item model_args "algo_config" ≫= K).
Proof.
  intros HK s Hs. erewrite bind_ok by (rewrite item_run, Hs; reflexivity). by apply HK.
Qed.

Ltac other_call_step :=
  first
    [ apply emits_write; intros; reflexivity
    | apply emits_ext; unfold not_load_config; cbn [fst]; discriminate
    | emits_step
    | lazymatch goal with
      | |- emits _ ?m => let h := head_of m in unfold h
      end ].

Ltac fileless_simply :=
  apply fileless_simple; [repeat other_call_step | frame model_args set_model_args].

Lemma after_arguments_fileless : moves fileless after_arguments.
Proof.
  unfold after_arguments.
  apply moves_bind; [apply _ | unfold name_and_clock; fileless_simply | intros _].
  apply moves_bind; [apply _ | | intros [Model pm]; unfold after_algorithm, choose_path;
                                 fileless_simply].
  unfold init_algorithm.
  do 8 (apply moves_bind; [apply _ | fileless_simply | intros ?]).
  apply moves_bind; [apply _ | fileless_simply | intros [[[Model algo_args0] pm] ty]].
  do 3 (apply moves_bind; [apply _ | fileless_simply | intros ?]).
  apply fileless_read. cbn [is_None]. fileless_simply.
Qed.

(** X21. No file is loaded for the algorithm unless the model's
    configuration names one: when [model_args['algo_config']] is [None],
    [__init__] never calls [load_config], whether it returns or raises. *)
Theorem no_algorithm_file_unless_named (e m b t : value) (st : state) :
  getitem m "algo_config" = Ok VNone →
  ∃ l, trace (__init__ outside e m b t st).2 = trace st ++ l ∧
       Forall not_load_config l.
Proof.
  intros Hm. rewrite init_after_arguments.
  by destruct (after_arguments_fileless (bound_arguments e m b t st) Hm) as [_ H].
Qed.


(** *** What the training configuration switches off *)

(** The key [key] of [train_args] reads [v], and every call satisfies
    [P]. *)
Definition reads (key : string) (v : value) (P : call → Prop) : relation state :=
  λ s s', getitem (train_args s) key = Ok v →
          getitem (train_args s') key = Ok v ∧
          ∃ l, trace s' = trace s ++ l ∧ Forall P l.

#[local] Instance reads_preorder key v P : PreOrder (reads key v P).
Proof.
  split.
  - intros s Hs. split; [done|]. exists []. by rewrite app_nil_r.
  - intros s1 s2 s3 H12 H23 H1. destruct (H12 H1) as (H2 & l1 & Hl1 & HP1).
    destruct (H23 H2) as (H3 & l2 & Hl2 & HP2). split; [done|].
    exists (l1 ++ l2). split; [by rewrite Hl2, Hl1, app_assoc|]. by apply Forall_app.
Qed.

Lemma reads_simple {A} key v P (m : M A) :
  key ∉ assigned_train_keys →
  emits P m → moves (untouched train_args assigned_train_keys) m →
  moves (reads key v P) m.
Proof.
  intros Hkey He Hm s Hs. split; [|apply He]. by rewrite Hm.
Qed.

Lemma reads_item {A} key v P (K : value → M A) :
  moves (reads key v P) (K v) → moves (reads key v P) (item train_args key ≫= K).
Proof.
  intros HK s Hs. erewrite bind_ok by (rewrite item_run, Hs; reflexivity). by apply HK.
Qed.

(** The calls that write the configuration out. *)
Definition recording_calls : list string := ["save_config"; "wandb.config.update"].

(** The calls made for wandb. *)
Definition wandb_calls : list string :=
  ["import"; "os.path.exists"; "os.makedirs"; "wandb.init"; "wandb.config.update"].

Definition none_of (names : list string) (c : call) : Prop := c.1 ∉ names.

Ltac none_of_step :=
  first
    [ apply emits_write; intros; reflexivity
    | apply emits_ext; unfold none_of; cbn [fst];
      lazymatch goal with
      | |- ?P => exact (@bool_decide_unpack P _ I)
      end
    | emits_step
    | lazymatch goal with
      | |- emits _ ?m => let h := head_of m in unfold h
      end ].

Ltac reads_simply :=
  apply reads_simple;
  [ key_out assigned_train_keys
  | repeat none_of_step
  | frame train_args set_train_args ].

(** Down a computation to the places where the key is read. *)
Ltac reads_walk Hv :=
  repeat first
    [ apply reads_item; rewrite ?Hv; cbv beta iota
    | apply moves_bind; [apply _ | solve [reads_simply] | intros]
    | apply moves_for_each; [apply _ | intros]
    | lazymatch goal with
      | |- moves _ (if ?c then _ else _) => destruct c
      | |- moves _ (let '_ := ?x in _) => destruct x
      end
    | solve [reads_simply]
    | lazymatch goal with
      | |- moves _ ?m => let h := head_of m in unfold h
      end ].

Lemma after_arguments_inference (v : value) :
  truthy v = true → moves (reads "inference" v (none_of recording_calls)) after_arguments.
Proof.
  intros Hv. unfold after_arguments, after_algorithm, choose_path.
  reads_walk Hv.
Qed.

Lemma after_arguments_wandb (v : value) :
  truthy v = false → moves (reads "use_wandb" v (none_of wandb_calls)) after_arguments.
Proof.
  intros Hv. unfold after_arguments, after_algorithm, choose_path.
  reads_walk Hv.
Qed.

(** X22. An agent built for inference writes no configuration out: when
    [train_args['inference']] is true in a condition, [__init__] calls
    neither [save_config] nor [wandb.config.update], on any path and
    whether it returns or raises. *)
Theorem inference_records_nothing (e m b t v : value) (st : state) :
  getitem t "inference" = Ok v → truthy v = true →
  ∃ l, trace (__init__ outside e m b t st).2 = trace st ++ l ∧
       Forall (none_of recording_calls) l.
Proof.
  intros Ht Hv. rewrite init_after_arguments.
  by destruct (after_arguments_inference v Hv (bound_arguments e m b t st) Ht) as [_ H].
Qed.

(** X23. Nothing is done for wandb unless it is asked for: when
    [train_args['use_wandb']] is false in a condition, [__init__] neither
    imports wandb nor looks for or makes its directory nor calls
    [wandb.init] or [wandb.config.update], on any path and whether it
    returns or raises. *)
Theorem no_wandb_unless_asked (e m b t v : value) (st : state) :
  getitem t "use_wandb" = Ok v → truthy v = false →
  ∃ l, trace (__init__ outside e m b t st).2 = trace st ++ l ∧
       Forall (none_of wandb_calls) l.
Proof.
  intros Ht Hv. rewrite init_after_arguments.
  by destruct (after_arguments_wandb v Hv (bound_arguments e m b t st) Ht) as [_ H].
Qed.

End construction.

(** ** Arguments that are one object

    Lines 85-88 bind the four attributes to the objects the caller passed,
    and nothing keeps a caller from passing one [Config] for two of them:
    what is then assigned through one attribute is read through the other.
    [state] keeps, under each attribute, the content of the object bound
    to it, and the embedding above assigns under one attribute at a time:
    it is the case of four separate objects.  Here every argument comes
    with the identity of its object, and an assignment into an object
    reaches every attribute bound to it.  ([self.algo_args] is made by
    [get_model_info] after the arguments, and the loop over the brains
    works on deep copies: these are objects of their own.  Inside a
    configuration, values are trees, as everywhere in this file.) *)

(** The four arguments of [__init__], by the attribute they are bound
    to. *)
Inductive argument : Type := EnvArgs | ModelArgs | BufferArgs | TrainArgs.

#[global] Instance argument_eq_dec : EqDecision argument.
Proof. solve_decision. Defined.

Definition arguments : list argument := [EnvArgs; ModelArgs; BufferArgs; TrainArgs].

(** [self.<attribute>] *)
Definition bound_to (a : argument) : state → value :=
  match a with
  | EnvArgs => env_args
  | ModelArgs => model_args
  | BufferArgs => buffer_args
  | TrainArgs => train_args
  end.

Definition bind_to (a : argument) : value → state → state :=
  match a with
  | EnvArgs => set_env_args
  | ModelArgs => set_model_args
  | BufferArgs => set_buffer_args
  | TrainArgs => set_train_args
  end.

Module Shared.
Section shared.

Variable outside : list call → call → result value.

(** The identity of the object passed for each argument (what [id]
    gives): two arguments with one identity are one object. *)
Variable ident : argument → nat.

(** The object bound to [a] becomes [o]: every attribute bound to that
    object shows it. *)
Definition store (a : argument) (o : value) (s : state) : state :=
  foldr (λ a' s', if decide (ident a' = ident a) then bind_to a' o s' else s') s arguments.

(** [self.<a>[k] = v] *)
Definition set_item (a : argument) (k : string) (v : value) : M unit :=
  o ← read (bound_to a); o' ← lift (setitem o k v); write (store a o').

(** [self.<a>[k1][k2] = v] *)
Definition set_item2 (a : argument) (k1 : value) (k2 : string) (v : value) : M unit :=
  o ← read (bound_to a); o' ← lift (setitem2 o k1 k2 v); write (store a o').

(** Lines 85-94 of [__init__]. *)
Definition init_attributes (env_args0 model_args0 buffer_args0 train_args0 : value) : M unit :=
  write (set_env_args env_args0) ;;
  write (set_model_args model_args0) ;;
  write (set_buffer_args buffer_args0) ;;
  write (set_train_args train_args0) ;;
  name ← item train_args "name";
  write (set_name name) ;;
  base_dir ← item train_args "base_dir";
  name ← item train_args "name";
  path ← ext outside "os.path.join" [base_dir; name];
  set_item ModelArgs "base_dir" path ;;
  now ← ext outside "time.time" [];
  write (set_start_time now) ;;
  allow ← item_default train_args "allow_print" (VBool false);
  write (set_allow_print (truthy allow)).

(** Lines 97-107: the environment and the algorithm's configuration.
    Returns the local names [Model] and [_policy_mode]. *)
Definition init_algorithm : M (value * value) :=
  global "make_env" ;;
  ea ← read env_args;
  d ← lift (to_dict ea);
  e ← ext outside "make_env" [d];
  write (set_env e) ;;
  global "get_model_info" ;;
  algo ← item model_args "algo";
  info ← ext outside "get_model_info" [algo];
  '(Model, algo_args0, _policy_mode, _policy_type) ← lift (unpack4 info);
  write (set_algo_args algo_args0) ;;
  write (set_multi_agents_training (eq_str _policy_type "multi")) ;;
  set_item TrainArgs "policy_mode" _policy_mode ;;
  algo_config ← item model_args "algo_config";
  (if is_None algo_config then mret tt
   else
     config ← attr algo_args "algo_args";
     file_path ← item model_args "algo_config";
     config' ← UpdateConfig outside config file_path "algo";
     write (set_algo_args config')) ;;
  use_rnn ← item model_args "use_rnn";
  set_algo_item "use_rnn" use_rnn ;;
  config ← attr algo_args "algo_args";
  ShowConfig outside config ;;
  mret (Model, _policy_mode).

(** Lines 124-128 and 132-135: the n-step branches, for the variant [ty]. *)
Definition nstep_gamma (ty : string) : M unit :=
  gamma ← algo_item "gamma";
  set_item2 BufferArgs (VStr ty) "gamma" gamma ;;
  gamma ← algo_item "gamma";
  sub ← item buffer_args ty;
  n ← lift (getitem sub "n");
  gamma_n ← ext outside "pow" [gamma; n];
  set_algo_item "gamma" gamma_n.

(** Lines 126 and 131: the priority branches, for the variant [ty]. *)
Definition priority_budget (ty : string) : M unit :=
  budget ← item train_args "max_train_step";
  set_item2 BufferArgs (VStr ty) "max_train_step" budget.

(** Lines 110-140: the choice of the replay buffer. *)
Definition init_buffer (_policy_mode : value) : M unit :=
  if eq_str _policy_mode "off-policy" then
    use_rnn ← algo_item "use_rnn";
    if eq_True use_rnn then
      set_item BufferArgs "type" (VStr "EpisodeER") ;;
      v ← algo_default "episode_batch_size" (VInt 0);
      set_item BufferArgs "batch_size" v ;;
      v ← algo_default "episode_buffer_size" (VInt 0);
      set_item BufferArgs "buffer_size" v ;;
      v ← algo_default "burn_in_time_step" (VInt 0);
      set_item2 BufferArgs (VStr "EpisodeER") "burn_in_time_step" v ;;
      v ← algo_default "train_time_step" (VInt 0);
      set_item2 BufferArgs (VStr "EpisodeER") "train_time_step" v
    else
      v ← algo_default "batch_size" (VInt 0);
      set_item BufferArgs "batch_size" v ;;
      v ← algo_default "buffer_size" (VInt 0);
      set_item BufferArgs "buffer_size" v ;;
      _use_priority ← algo_default "use_priority" (VBool false);
      _n_step ← algo_default "n_step" (VBool false);
      if truthy _use_priority && truthy _n_step then
        set_item BufferArgs "type" (VStr "NstepPER") ;;
        priority_budget "NstepPER" ;;
        nstep_gamma "NstepPER"
      else if truthy _use_priority then
        set_item BufferArgs "type" (VStr "PER") ;;
        priority_budget "PER"
      else if truthy _n_step then
        set_item BufferArgs "type" (VStr "NstepER") ;;
        nstep_gamma "NstepER"
      else
        set_item BufferArgs "type" (VStr "ER")
  else
    set_item BufferArgs "type" (VStr "None") ;;
    set_item TrainArgs "pre_fill_steps" (VInt 0).

(** Lines 152-153 and 195-196 *)
Definition agents_num_of_env_num : M unit :=
  ty ← item buffer_args "type";
  c ← lift (nstep_or_episode ty);
  if c : bool then
    n ← item env_args "env_num";
    ty ← item buffer_args "type";
    set_item2 BufferArgs ty "agents_num" n
  else mret tt.

(** Lines 174-177, 216-219 and 259-262 *)
Definition begin_from (m : value) : M unit :=
  _train_info ← ext outside "model.get_init_training_info" [m];
  v ← lift (getitem _train_info "train_step");
  set_item TrainArgs "begin_train_step" v ;;
  v ← lift (getitem _train_info "frame_step");
  set_item TrainArgs "begin_frame_step" v ;;
  v ← lift (getitem _train_info "episode");
  set_item TrainArgs "begin_episode" v.

(** Lines 142-188: a gym environment. *)
Definition init_gym (Model : value) : M unit :=
  use_wandb ← item train_args "use_wandb";
  (if truthy use_wandb then
     ext outside "import" [VStr "wandb"] ;;
     base_dir ← config_attr model_args "base_dir";
     wandb_path ← ext outside "os.path.join" [base_dir; VStr "wandb"];
     there ← ext outside "os.path.exists" [wandb_path];
     (if truthy there then mret tt
      else ext outside "os.makedirs" [wandb_path] ;; mret tt) ;;
     name ← item train_args "name";
     dir ← config_attr model_args "base_dir";
     project ← item train_args "wandb_project";
     ext outside "wandb.init" [kwargs [("sync_tensorboard", VBool true); ("name", name);
                               ("dir", dir); ("project", project)]] ;;
     mret tt
   else mret tt) ;;
  agents_num_of_env_num ;;
  global "get_buffer" ;;
  ba ← read buffer_args;
  buffer ← ext outside "get_buffer" [ba];
  algo_update
    (s_dim ← env_attr outside "s_dim";
     visual_sources ← env_attr outside "visual_sources";
     visual_resolution ← env_attr outside "visual_resolution";
     a_dim ← env_attr outside "a_dim";
     is_continuous ← env_attr outside "is_continuous";
     max_train_step ← config_attr train_args "max_train_step";
     base_dir ← config_attr model_args "base_dir";
     seed ← config_attr model_args "seed";
     n ← env_attr outside "n";
     mret [("s_dim", s_dim); ("visual_sources", visual_sources);
           ("visual_resolution", visual_resolution); ("a_dim", a_dim);
           ("is_continuous", is_continuous); ("max_train_step", max_train_step);
           ("base_dir", base_dir); ("seed", seed); ("n_agents", n)]) ;;
  aa ← attr algo_args "algo_args";
  m ← ext outside "Model" [Model; aa];
  write (set_model m) ;;
  m ← attr model "model";
  ext outside "model.set_buffer" [m; buffer] ;;
  m ← attr model "model";
  path ← item train_args "load_model_path";
  ext outside "model.init_or_restore" [m; path] ;;
  m ← attr model "model";
  begin_from m ;;
  inference ← item train_args "inference";
  if truthy inference then mret tt
  else
    e ← (o ← read env_args; lift (to_dict o));
    md ← (o ← read model_args; lift (to_dict o));
    b ← (o ← read buffer_args; lift (to_dict o));
    t ← (o ← read train_args; lift (to_dict o));
    a ← attr algo_args "algo_args";
    let records_dict :=
      kwargs [("env", e); ("model", md); ("buffer", b); ("train", t); ("algo", a)] in
    global "save_config" ;;
    base_dir ← config_attr model_args "base_dir";
    path ← ext outside "os.path.join" [base_dir; VStr "config"];
    ext outside "save_config" [path; records_dict] ;;
    use_wandb ← item train_args "use_wandb";
    if truthy use_wandb then
      ext outside "wandb.config.update" [records_dict] ;; mret tt
    else mret tt.

(** Lines 191-228: several agents in a Unity environment. *)
Definition init_unity_multi (Model : value) : M unit :=
  brain_num ← env_attr outside "brain_num";
  ok ← lift (gt_int brain_num 1);
  (if ok : bool then mret tt
   else raise (AssertionError
     "if using ma* algorithms, number of brains must larger than 1")) ;;
  agents_num_of_env_num ;;
  global "get_buffer" ;;
  ba ← read buffer_args;
  buffer ← ext outside "get_buffer" [ba];
  algo_update
    (s_dim ← env_attr outside "s_dim";
     a_dim ← env_attr outside "a_dim";
     visual_sources ← env_attr outside "visual_sources";
     visual_resolutions ← env_attr outside "visual_resolutions";
     is_continuous ← env_attr outside "is_continuous";
     max_train_step ← config_attr train_args "max_train_step";
     base_dir ← config_attr model_args "base_dir";
     seed ← config_attr model_args "seed";
     brain_agents ← env_attr outside "brain_agents";
     brain_controls ← env_attr outside "brain_controls";
     mret [("s_dim", s_dim); ("a_dim", a_dim); ("visual_sources", visual_sources);
           ("visual_resolution", visual_resolutions);
           ("is_continuous", is_continuous); ("max_train_step", max_train_step);
           ("base_dir", base_dir); ("seed", seed); ("n_agents", brain_agents);
           ("brain_controls", brain_controls)]) ;;
  aa ← attr algo_args "algo_args";
  m ← ext outside "Model" [Model; aa];
  write (set_model m) ;;
  m ← attr model "model";
  ext outside "model.set_buffer" [m; buffer] ;;
  m ← attr model "model";
  path ← item train_args "load_model_path";
  ext outside "model.init_or_restore" [m; path] ;;
  m ← attr model "model";
  begin_from m ;;
  inference ← item train_args "inference";
  if truthy inference then mret tt
  else
    e ← (o ← read env_args; lift (to_dict o));
    md ← (o ← read model_args; lift (to_dict o));
    b ← (o ← read buffer_args; lift (to_dict o));
    t ← (o ← read train_args; lift (to_dict o));
    a ← attr algo_args "algo_args";
    let records_dict :=
      kwargs [("env", e); ("model", md); ("buffer", b); ("train", t); ("algo", a)] in
    global "save_config" ;;
    base_dir ← config_attr model_args "base_dir";
    path ← ext outside "os.path.join" [base_dir; VStr "config"];
    ext outside "save_config" [path; records_dict] ;;
    mret tt.

(** Lines 233-272: the body of the loop over the brains of a Unity
    environment, for the brain [b] at position [i]. *)
Definition init_brain (Model : value) (i : nat) (b : value) : M unit :=
  _bargs ← read (fun s => deepcopy (buffer_args s));
  _margs ← read (fun s => deepcopy (model_args s));
  _aargs ← (o ← attr algo_args "algo_args"; mret (deepcopy o));
  base_dir ← lift (getattr _margs "base_dir");
  path ← ext outside "os.path.join" [base_dir; b];
  _margs ← lift (setattr _margs "base_dir" path);
  given ← item train_args "load_model_path";
  _load_model_path ←
    (if truthy given then
       given ← item train_args "load_model_path";
       ext outside "os.path.join" [given; b]
     else item train_args "load_model_path");
  ty ← lift (getitem _bargs "type");
  c ← lift (nstep_or_episode ty);
  _bargs ←
    (if c : bool then
       n ← env_attr_at outside "brain_agents" i;
       ty ← lift (getitem _bargs "type");
       lift (setitem2 _bargs ty "agents_num" n)
     else mret _bargs);
  global "get_buffer" ;;
  buffer ← ext outside "get_buffer" [_bargs];
  seed ← lift (getitem _margs "seed");
  seed ← lift (add_nat seed (i * 10));
  _margs ← lift (setitem _margs "seed" seed);
  lift (update _aargs []) ;;
  s_dim ← env_attr_at outside "s_dim" i;
  a_dim ← env_attr_at outside "a_dim" i;
  visual_sources ← env_attr_at outside "visual_sources" i;
  visual_resolutions ← env_attr_at outside "visual_resolutions" i;
  is_continuous ← env_attr_at outside "is_continuous" i;
  max_train_step ← config_attr train_args "max_train_step";
  base_dir ← lift (getattr _margs "base_dir");
  seed ← lift (getattr _margs "seed");
  brain_agents ← env_attr_at outside "brain_agents" i;
  _aargs ← lift (update _aargs
    [("s_dim", s_dim); ("a_dim", a_dim); ("visual_sources", visual_sources);
     ("visual_resolution", visual_resolutions); ("is_continuous", is_continuous);
     ("max_train_step", max_train_step); ("base_dir", base_dir); ("seed", seed);
     ("n_agents", brain_agents)]);
  m ← ext outside "Model" [Model; _aargs];
  ext outside "model.set_buffer" [m; buffer] ;;
  ext outside "model.init_or_restore" [m; _load_model_path] ;;
  ms ← attr models "models";
  write (set_models (ms ++ [m])) ;;
  (if Nat.eqb i 0 then begin_from m else mret tt) ;;
  inference ← item train_args "inference";
  if truthy inference then mret tt
  else
    e ← (o ← read env_args; lift (to_dict o));
    md ← lift (to_dict _margs);
    bd ← lift (to_dict _bargs);
    t ← (o ← read train_args; lift (to_dict o));
    let records_dict :=
      kwargs [("env", e); ("model", md); ("buffer", bd); ("train", t); ("algo", _aargs)] in
    global "save_config" ;;
    base_dir ← lift (getattr _margs "base_dir");
    path ← ext outside "os.path.join" [base_dir; VStr "config"];
    ext outside "save_config" [path; records_dict] ;;
    mret tt.

(** Lines 230-272: one model for each brain of a Unity environment. *)
Definition init_unity_single (Model : value) : M unit :=
  write (set_models []) ;;
  names ← env_attr outside "fixed_brain_names";
  brains ← lift (iterate names);
  for_each (enumerate_from 0 brains) (fun ib => init_brain Model ib.1 ib.2).

(** [Agent.__init__] (lines 76-273) *)
Definition __init__ (env_args0 model_args0 buffer_args0 train_args0 : value) : M unit :=
  init_attributes env_args0 model_args0 buffer_args0 train_args0 ;;
  '(Model, _policy_mode) ← init_algorithm;
  init_buffer _policy_mode ;;
  ty ← item env_args "type";
  if eq_str ty "gym" then init_gym Model
  else
    multi ← attr multi_agents_training "multi_agents_training";
    if multi : bool then init_unity_multi Model
    else init_unity_single Model.

End shared.
End Shared.

(** *** Four separate objects *)

(** Two computations that do the same from every state. *)
Definition alike {A} (m m' : M A) : Prop := ∀ s, m s = m' s.

Lemma alike_refl {A} (m : M A) : alike m m.
Proof. by intros s. Qed.

Lemma alike_bind {A B} (m m' : M A) (k k' : A → M B) :
  alike m m' → (∀ a, alike (k a) (k' a)) → alike (m ≫= k) (m' ≫= k').
Proof.
  intros Hm Hk s. unfold mbind, M_bind. rewrite (Hm s).
  destruct (m' s) as [[a|e] s1]; [apply Hk | done].
Qed.

Lemma alike_for_each {A} (l : list A) (body body' : A → M unit) :
  (∀ a, alike (body a) (body' a)) → alike (for_each l body) (for_each l body').
Proof.
  intros Hb. induction l as [|a l IH]; cbn [for_each]; [apply alike_refl|].
  apply alike_bind; [apply Hb | intros _; apply IH].
Qed.

Section separate.
Variable outside : list call → call → result value.
Variable ident : argument → nat.

(** The caller passed four different objects. *)
Hypothesis separate : ∀ a a', ident a = ident a' → a = a'.

Lemma store_separate (a : argument) (o : value) (s : state) :
  Shared.store ident a o s = bind_to a o s.
Proof.
  unfold Shared.store, arguments. cbn [foldr].
  destruct a; repeat case_decide;
    repeat lazymatch goal with
    | H : ident ?x = ident ?y |- _ => apply separate in H; try discriminate H; clear H
    end;
    try done; by destruct s.
Qed.

Lemma set_item_separate (a : argument) (k : string) (v : value) :
  alike (Shared.set_item ident a k v) (set_item (bound_to a) (bind_to a) k v).
Proof.
  intros s. unfold Shared.set_item, set_item, read, lift, write, mbind, M_bind.
  destruct (setitem (bound_to a s) k v); [|done]. by rewrite store_separate.
Qed.

Lemma set_item2_separate (a : argument) (k1 : value) (k2 : string) (v : value) :
  alike (Shared.set_item2 ident a k1 k2 v) (set_item2 (bound_to a) (bind_to a) k1 k2 v).
Proof.
  intros s. unfold Shared.set_item2, set_item2, read, lift, write, mbind, M_bind.
  destruct (setitem2 (bound_to a s) k1 k2 v); [|done]. by rewrite store_separate.
Qed.

(** One step through two computations of the same shape. *)
Ltac alike_step :=
  cbv beta;
  lazymatch goal with
  | |- alike ?m ?m' =>
      first
        [ constr_eq m m'; apply alike_refl
        | apply set_item_separate
        | apply set_item2_separate
        | apply alike_bind; [|intros ?]
        | apply alike_for_each; intros ?
        | lazymatch goal with
          | |- alike (if ?c then _ else _) (if ?c then _ else _) => destruct c
          | |- alike (match ?x with _ => _ end) (match ?x with _ => _ end) => destruct x
          end
        | let h := head_of m in
          let h' := head_of m' in
          unfold h, h' ]
  end.

(** With four separate objects, construction is the one embedded
    above. *)
Lemma init_separate (e m b t : value) :
  alike (Shared.__init__ outside ident e m b t) (__init__ outside e m b t).
Proof. repeat alike_step. Qed.

End separate.

(** *** Assignments into an object *)

Section store.
Variable ident : argument → nat.

Lemma store_bound_to (a0 a : argument) (o : value) (s : state) :
  bound_to a0 (Shared.store ident a o s) =
    if decide (ident a0 = ident a) then o else bound_to a0 s.
Proof.
  unfold Shared.store, arguments. cbn [foldr].
  destruct a0; cbn [bound_to]; repeat case_decide; try done; congruence.
Qed.

(** An attribute bound to another object keeps its content. *)
Lemma store_elsewhere (a0 a : argument) (o : value) (s : state) :
  ident a0 ≠ ident a → bound_to a0 (Shared.store ident a o s) = bound_to a0 s.
Proof. intros H. rewrite store_bound_to. by case_decide. Qed.

Lemma store_there (a : argument) (o : value) (s : state) :
  bound_to a (Shared.store ident a o s) = o.
Proof. rewrite store_bound_to. by case_decide. Qed.

(** What is not one of the four configurations stays as it is. *)
Definition beside (s : state) :=
  (algo_args s, _name s, start_time s, _allow_print s, env s,
   multi_agents_training s, model s, models s, trace s).

Lemma store_beside (a : argument) (o : value) (s : state) :
  beside (Shared.store ident a o s) = beside s.
Proof. unfold Shared.store, arguments. cbn [foldr]. by repeat case_decide. Qed.

(** Attributes bound to one object show one content. *)
Definition coherent (s : state) : Prop :=
  ∀ a a', ident a = ident a' → bound_to a s = bound_to a' s.

Lemma store_coherent (a : argument) (o : value) (s : state) :
  coherent s → coherent (Shared.store ident a o s).
Proof.
  intros H a1 a2 E. rewrite !store_bound_to, E. case_decide; [done|]. by apply H.
Qed.

Lemma moves_shared_set_item (a0 : argument) (keys : list string) (a : argument)
    (k : string) (v : value) :
  (a = a0 → k ∈ keys) → (a ≠ a0 → ident a0 ≠ ident a) →
  moves (untouched (bound_to a0) keys) (Shared.set_item ident a k v).
Proof.
  intros Hin Hout s k' Hk'. unfold Shared.set_item, read, lift, write, mbind, M_bind.
  destruct (setitem (bound_to a s) k v) as [o'|] eqn:E; cbn [snd]; [|done].
  destruct (decide (a = a0)) as [->|Hne].
  - rewrite store_there. eapply setitem_other; [exact E|]. intros ->. by apply Hk', Hin.
  - by rewrite store_elsewhere by by apply Hout.
Qed.

Lemma moves_shared_set_item2 (a0 : argument) (keys : list string) (a : argument)
    (k1 : value) (k2 : string) (v : value) :
  ident a0 ≠ ident a →
  moves (untouched (bound_to a0) keys) (Shared.set_item2 ident a k1 k2 v).
Proof.
  intros Hout s k' Hk'. unfold Shared.set_item2, read, lift, write, mbind, M_bind.
  destruct (setitem2 (bound_to a s) k1 k2 v) as [o'|] eqn:E; cbn [snd]; [|done].
  by rewrite store_elsewhere.
Qed.

End store.

(** *** What construction leaves of the caller's objects *)

Section sharing.
Variable outside : list call → call → result value.
Variable ident : argument → nat.

(** Lines 85-88 done, what follows starts from the arguments. *)
Ltac bind_arguments :=
  unfold Shared.__init__, Shared.init_attributes;
  do 4 (rewrite bind_assoc; erewrite bind_ok by reflexivity).

(** One step for an attribute that no assignment reaches. *)
Ltac shared_kept_step :=
  first
    [ apply keeps_write; intros;
      first [ reflexivity
            | lazymatch goal with
              | |- _ = ?f ?s =>
                  apply (store_elsewhere ident EnvArgs)
              end; assumption ]
    | keeps_step
    | lazymatch goal with
      | |- keeps _ ?m => let h := head_of m in unfold h
      end ].

(** X5.  When the object passed as [env_args] is none of the three
    others, then, whether [__init__] returns or raises, [self.env_args]
    shows what the caller passed. *)
Theorem construction_keeps_env_args (e m b t : value) (st : state) :
  ident EnvArgs ≠ ident ModelArgs → ident EnvArgs ≠ ident BufferArgs →
  ident EnvArgs ≠ ident TrainArgs →
  env_args (Shared.__init__ outside ident e m b t st).2 = e.
Proof.
  intros Hm Hb Ht. bind_arguments.
  lazymatch goal with
  | |- env_args (?rest ?s).2 = _ =>
      assert (keeps env_args rest) as H by repeat shared_kept_step;
      by rewrite (H s)
  end.
Qed.

(** One step for the attribute [a0], of which some keys are assigned. *)
Ltac shared_frame_step a0 :=
  first
    [ apply (moves_shared_set_item ident a0);
      [ intros ?; first [discriminate | key_in]
      | intros ?; first [done | assumption] ]
    | apply (moves_shared_set_item2 ident a0); assumption
    | apply moves_write; intros; apply untouched_same; reflexivity
    | apply moves_ext; intros; apply untouched_same; reflexivity
    | moves_step
    | lazymatch goal with
      | |- moves _ ?m => let h := head_of m in unfold h
      end ].

(** X6.  When the object passed as [model_args] is neither the one
    passed as [buffer_args] nor the one passed as [train_args], then,
    whether [__init__] returns or raises, every key of [self.model_args]
    but [base_dir] reads as the caller passed it. *)
Theorem construction_assigns_base_dir_only (e m b t : value) (st : state) (k : string) :
  ident ModelArgs ≠ ident BufferArgs → ident ModelArgs ≠ ident TrainArgs →
  k ≠ "base_dir" →
  getitem (model_args (Shared.__init__ outside ident e m b t st).2) k = getitem m k.
Proof.
  intros Hb Ht Hk. bind_arguments.
  lazymatch goal with
  | |- getitem (model_args (?rest ?s).2) k = _ =>
      assert (moves (untouched (bound_to ModelArgs) ["base_dir"]) rest) as H
        by repeat shared_frame_step ModelArgs;
      apply (H s)
  end.
  by intros ->%list_elem_of_singleton.
Qed.

(** X7.  When the object passed as [train_args] is neither the one
    passed as [model_args] nor the one passed as [buffer_args], then,
    whether [__init__] returns or raises, every key of [self.train_args]
    but [policy_mode], [pre_fill_steps] and the three [begin_] keys reads
    as the caller passed it. *)
Theorem construction_assigns_five_train_keys (e m b t : value) (st : state) (k : string) :
  ident TrainArgs ≠ ident ModelArgs → ident TrainArgs ≠ ident BufferArgs →
  k ∉ assigned_train_keys →
  getitem (train_args (Shared.__init__ outside ident e m b t st).2) k = getitem t k.
Proof.
  intros Hm Hb Hk. bind_arguments.
  lazymatch goal with
  | |- getitem (train_args (?rest ?s).2) k = _ =>
      assert (moves (untouched (bound_to TrainArgs) assigned_train_keys) rest) as H
        by repeat shared_frame_step TrainArgs;
      by apply (H s)
  end.
Qed.

(** X8.  When the caller passed four different objects, then, whether
    [__init__] returns or raises, every key of [self.buffer_args] but the
    type, the two sizes and the sections of the four variants that have
    settings reads as the caller passed it. *)
Theorem construction_assigns_seven_buffer_keys (e m b t : value) (st : state)
    (k : string) :
  (∀ a a', ident a = ident a' → a = a') →
  k ∉ assigned_buffer_keys →
  getitem (buffer_args (Shared.__init__ outside ident e m b t st).2) k = getitem b k.
Proof.
  intros Hsep Hk. rewrite (init_separate outside ident Hsep), init_after_arguments.
  by apply (after_arguments_buffer_args outside (bound_arguments e m b t st)).
Qed.

Lemma store_train_args_only (o : value) (s : state) :
  ident EnvArgs ≠ ident TrainArgs → ident ModelArgs ≠ ident TrainArgs →
  ident BufferArgs ≠ ident TrainArgs →
  let s' := Shared.store ident TrainArgs o s in
  (env_args s', model_args s', buffer_args s', algo_args s') =
  (env_args s, model_args s, buffer_args s, algo_args s).
Proof.
  intros He Hm Hb. cbv zeta.
  pose proof (store_elsewhere ident EnvArgs TrainArgs o s He) as H1.
  pose proof (store_elsewhere ident ModelArgs TrainArgs o s Hm) as H2.
  pose proof (store_elsewhere ident BufferArgs TrainArgs o s Hb) as H3.
  pose proof (store_beside ident TrainArgs o s) as H4.
  cbn [bound_to] in *. injection H4 as H4 _. congruence.
Qed.

(** X9.  When the object passed as [train_args] is none of the three
    others, the loop over the brains leaves [self.env_args],
    [self.model_args], [self.buffer_args] and [self.algo_args] as they
    were, whether it returns or raises: what it changes of them, it
    changes in copies. *)
Theorem brains_work_on_copies (Model : value) (st : state) :
  ident EnvArgs ≠ ident TrainArgs → ident ModelArgs ≠ ident TrainArgs →
  ident BufferArgs ≠ ident TrainArgs →
  let after := (Shared.init_unity_single outside ident Model st).2 in
  env_args after = env_args st ∧ model_args after = model_args st ∧
  buffer_args after = buffer_args st ∧ algo_args after = algo_args st.
Proof.
  intros He Hm Hb.
  assert (keeps (λ s, (env_args s, model_args s, buffer_args s, algo_args s))
            (Shared.init_unity_single outside ident Model)) as H.
  { repeat first
      [ apply keeps_write; intros;
        first [reflexivity | by apply store_train_args_only]
      | keeps_step
      | lazymatch goal with
        | |- keeps _ ?m => let h := head_of m in unfold h
        end ]. }
  specialize (H st). cbv zeta. by injection H as -> -> -> ->.
Qed.

(** The content of one object is one: attributes bound to one object
    show the same content all through construction. *)
Definition stays_coherent : relation state :=
  λ s s', coherent ident s → coherent ident s'.

#[local] Instance stays_coherent_preorder : PreOrder stays_coherent.
Proof.
  split.
  - intros s H. exact H.
  - intros s1 s2 s3 H12 H23 H. by apply H23, H12.
Qed.

Lemma coherent_same (s s' : state) :
  (∀ a, bound_to a s' = bound_to a s) → stays_coherent s s'.
Proof. intros H Hs a a' E. rewrite !H. by apply Hs. Qed.

Ltac coherent_step :=
  first
    [ apply moves_write; intros ?;
      first [ intros ?; by apply store_coherent
            | apply coherent_same; intros []; reflexivity ]
    | apply moves_ext; intros; apply coherent_same; intros []; reflexivity
    | moves_step
    | lazymatch goal with
      | |- moves _ ?m => let h := head_of m in unfold h
      end ].

Lemma construction_coherent (e m b t : value) (st : state) :
  coherent ident (bound_arguments e m b t st) →
  coherent ident (Shared.__init__ outside ident e m b t st).2.
Proof.
  intros Hargs. bind_arguments.
  lazymatch goal with
  | |- coherent ident (?rest ?s).2 =>
      assert (moves stays_coherent rest) as H by repeat coherent_step;
      by apply (H s)
  end.
Qed.

End sharing.

(** ** The methods *)

Section methods.
Variable outside : list call → call → result value.

(** *** Agent.pwi *)

(** X24. [pwi] assigns nothing and prints at most one line; when
    printing is not allowed it returns without calling anything. *)
Theorem pwi_prints_at_most_one_line (args : list value) (out_time : bool) (st : state) :
  ∃ l, trace (pwi outside args out_time st).2 = trace st ++ l ∧
       attributes (pwi outside args out_time st).2 = attributes st ∧
       (length (logged l) ≤ 1)%nat ∧
       (_allow_print st = Some false → pwi outside args out_time st = (Ok tt, st)).
Proof.
  unfold pwi. change (global "get_time_hhmmss") with (mret tt : M unit).
  unfold attr, ext, lift, mbind, M_bind, mret, M_ret.
  destruct (_allow_print st) as [[]|];
    [|exists []; rewrite app_nil_r; repeat split; first [done | cbn; lia]..].
  destruct (_name st) as [name|];
    [|exists []; rewrite app_nil_r; repeat split; first [done | cbn; lia]].
  cbn [_name _allow_print start_time record_call trace].
  repeat case_match; simplify_eq;
    cbn [snd trace record_call attributes env_args model_args buffer_args train_args
         algo_args _name start_time _allow_print env multi_agents_training model models];
    (eexists; split; [rewrite <- ?app_assoc; reflexivity|]);
    (split; [by destruct st|]); (split; [cbn; lia|done]).
Qed.

(** X25. When printing is allowed, an argument that is not a string
    makes [pwi] raise, and no line is printed. *)
Theorem pwi_rejects_non_strings (args : list value) (out_time : bool) (st : state) :
  _allow_print st = Some true → Exists (λ v, ∀ t, v ≠ VStr t) args →
  ∃ e l, (pwi outside args out_time st).1 = Raise e ∧
         trace (pwi outside args out_time st).2 = trace st ++ l ∧
         logged l = [].
Proof.
  intros Hallow Hargs. unfold pwi. change (global "get_time_hhmmss") with (mret tt : M unit).
  assert (∀ info, join (VStr info :: args) = Raise TypeError) as Hjoin.
  { intros info. apply join_not_strings. by right. }
  unfold attr, ext, lift, mbind, M_bind, mret, M_ret. rewrite Hallow.
  destruct (_name st) as [name|]; [|by exists (AttributeError "_name"), []; rewrite app_nil_r].
  cbn [_name _allow_print start_time record_call trace].
  repeat case_match; simplify_eq; try (rewrite Hjoin in *; discriminate);
    cbn [fst snd trace record_call];
    (eexists; eexists; split; [reflexivity|]);
    (split; [rewrite <- ?app_assoc; reflexivity|reflexivity]).
Qed.

(** *** Agent.train *)

Ltac loop_part_name :=
  unfold in_loop_part; cbn [fst];
  lazymatch goal with
  | |- ?x ∈ ?l => exact (@bool_decide_unpack (x ∈ l) _ I)
  end.

Lemma train_kwargs_in_loop_part specs : emits in_loop_part (train_kwargs outside specs).
Proof.
  induction specs as [|[[[kw c] key] dflt] specs IH]; cbn [train_kwargs].
  - apply emits_ret.
  - apply emits_bind; [|intros; apply emits_bind; [apply IH | intros; apply emits_ret]].
    unfold train_arg. open_reads. repeat emits_step; loop_part_name.
Qed.

Lemma call_loop_in_loop_part fn plural specs :
  fn ∈ loop_part → emits in_loop_part (call_loop outside fn plural specs).
Proof.
  intros Hfn. unfold call_loop.
  repeat first [apply train_kwargs_in_loop_part | emits_step]. done.
Qed.

Lemma try_finally_state {A} (body : M A) (fin : M unit) (s : state) :
  (try_finally body fin s).2 = (fin (body s).2).2.
Proof.
  unfold try_finally. destruct (body s) as [r s1]. cbn [snd].
  by destruct (fin s1) as [[[]|e] s2].
Qed.

Lemma try_finally_raises {A} (body : M A) (fin : M unit) (s : state) (e : exn) :
  (fin (body s).2).1 = Raise e → (try_finally body fin s).1 = Raise e.
Proof.
  unfold try_finally. destruct (body s) as [r s1]. cbn [snd].
  destruct (fin s1) as [[[]|e'] s2]; [done|]. by intros [= ->].
Qed.

(** The [finally] part of the paths with one model (lines 323-324 and
    354-355), after any [try] part. *)
Lemma finally_closes_both {A} (body : M A) (st : state) (m e : value) :
  keeps attributes body → emits in_loop_part body →
  model st = Some m → env st = Some e →
  (∀ h, ∃ r, outside h ("model.close", [m]) = Ok r) →
  ∃ l, trace (try_finally body (close_model outside ;; close_env outside) st).2 =
         trace st ++ l ++ [("model.close", [m]); ("env.close", [e])] ∧
       Forall in_loop_part l.
Proof.
  intros Hk He Hm Henv Hclose. rewrite try_finally_state.
  destruct (He st) as (l & Hl & HP). specialize (Hk st).
  set (s1 := (body st).2) in *.
  assert (model s1 = Some m) as Hm1 by (rewrite <- Hm; exact (f_equal model Hk)).
  assert (env s1 = Some e) as He1 by (rewrite <- Henv; exact (f_equal env Hk)).
  exists l. split; [|done].
  unfold close_model, close_env, attr, ext, mbind, M_bind, mret, M_ret.
  rewrite Hm1. destruct (Hclose (trace s1)) as [r ->].
  cbn [env record_call]. rewrite He1.
  destruct (outside _ ("env.close", [e])); cbn [snd trace record_call];
    by rewrite Hl, <- !app_assoc.
Qed.

Lemma finally_stops_at_model {A} (body : M A) (st : state) (m : value) (x : exn) :
  keeps attributes body → emits in_loop_part body →
  model st = Some m →
  (∀ h, outside h ("model.close", [m]) = Raise x) →
  (try_finally body (close_model outside ;; close_env outside) st).1 = Raise x ∧
  ∃ l, trace (try_finally body (close_model outside ;; close_env outside) st).2 =
         trace st ++ l ++ [("model.close", [m])] ∧
       Forall in_loop_part l.
Proof.
  intros Hk He Hm Hclose.
  destruct (He st) as (l & Hl & HP). specialize (Hk st).
  assert (model (body st).2 = Some m) as Hm1 by (rewrite <- Hm; exact (f_equal model Hk)).
  assert ((close_model outside ;; close_env outside) (body st).2 =
          (Raise x, record_call ("model.close", [m]) (body st).2)) as Hfin.
  { unfold close_model, close_env, attr, ext, mbind, M_bind, mret, M_ret.
    by rewrite Hm1, Hclose. }
  split.
  - apply try_finally_raises. by rewrite Hfin.
  - exists l. split; [|done]. rewrite try_finally_state, Hfin.
    cbn [snd trace record_call]. by rewrite Hl, <- app_assoc.
Qed.

Lemma train_one_model (st : state) :
  one_model st →
  ∃ body : M unit,
    keeps attributes body ∧ emits in_loop_part body ∧
    train outside st = try_finally body (close_model outside ;; close_env outside) st.
Proof.
  intros (ty & Hty & Hpath). unfold train.
  erewrite bind_ok by (rewrite item_run, Hty; reflexivity).
  destruct (eq_str ty "gym") eqn:Hgym.
  - eexists. split; [|split; [|reflexivity]].
    + repeat first [apply call_loop_keeps | keeps_step].
    + repeat first [apply call_loop_in_loop_part; loop_part_name | emits_step].
  - destruct Hpath as [?|Hmulti]; [done|].
    erewrite bind_ok by (apply attr_ok; exact Hmulti).
    eexists. split; [|split; [|reflexivity]].
    + repeat first [apply call_loop_keeps | keeps_step].
    + repeat first [apply call_loop_in_loop_part; loop_part_name | emits_step].
Qed.

(** X26. With one model, whatever the loops did, [train] ends by
    closing the model and then the environment, once each, provided
    closing the model returns. *)
Theorem train_closes_model_then_env (st : state) (m e : value) :
  one_model st → model st = Some m → env st = Some e →
  (∀ h, ∃ r, outside h ("model.close", [m]) = Ok r) →
  ∃ l, trace (train outside st).2 =
         trace st ++ l ++ [("model.close", [m]); ("env.close", [e])] ∧
       Forall in_loop_part l.
Proof.
  intros Hpath Hm He Hclose.
  destruct (train_one_model st Hpath) as (body & Hk & Hl & ->).
  by apply finally_closes_both.
Qed.

(** X27. When closing the model raises, [train] raises that exception,
    whatever the loops did, and the environment is not closed. *)
Theorem train_leaves_env_open (st : state) (m : value) (x : exn) :
  one_model st → model st = Some m →
  (∀ h, outside h ("model.close", [m]) = Raise x) →
  (train outside st).1 = Raise x ∧
  ∃ l, trace (train outside st).2 = trace st ++ l ++ [("model.close", [m])] ∧
       Forall in_loop_part l.
Proof.
  intros Hpath Hm Hclose.
  destruct (train_one_model st Hpath) as (body & Hk & Hl & ->).
  by apply finally_stops_at_model.
Qed.

Lemma close_each (ms : list value) :
  (∀ h m, m ∈ ms → ∃ r, outside h ("model.close", [m]) = Ok r) →
  ∀ s, ∃ s',
    for_each ms (λ m, ext outside "model.close" [m] ;; mret tt) s = (Ok tt, s') ∧
    attributes s' = attributes s ∧
    trace s' = trace s ++ ((λ m, ("model.close", [m])) <$> ms).
Proof.
  induction ms as [|m ms IH]; intros Hclose s.
  - exists s. by rewrite app_nil_r.
  - destruct (Hclose (trace s) m) as [r Hr]; [left|].
    destruct (IH (λ h m' H, Hclose h m' (list_elem_of_further _ _ _ H))
                (record_call ("model.close", [m]) s)) as (s' & Hrun & Ha & Ht).
    exists s'. split; [|split].
    + cbn [for_each]. erewrite bind_ok; [exact Hrun|].
      erewrite bind_ok by by apply ext_ok. reflexivity.
    + by rewrite Ha.
    + rewrite Ht. cbn [trace record_call fmap list_fmap]. by rewrite <- app_assoc.
Qed.

(** X28. With one model for each brain, [train] ends by closing every
    model, in the order of [self.models], and then the environment,
    provided closing the models returns. *)
Theorem train_closes_every_model (st : state) (ty e : value) (ms : list value) :
  getitem (env_args st) "type" = Ok ty → eq_str ty "gym" = false →
  multi_agents_training st = Some false →
  models st = Some ms → env st = Some e →
  (∀ h m, m ∈ ms → ∃ r, outside h ("model.close", [m]) = Ok r) →
  ∃ l, trace (train outside st).2 =
         trace st ++ l ++ ((λ m, ("model.close", [m])) <$> ms) ++ [("env.close", [e])] ∧
       Forall in_loop_part l.
Proof.
  intros Hty Hgym Hmulti Hms He Hclose. unfold train.
  erewrite bind_ok by (rewrite item_run, Hty; reflexivity). rewrite Hgym.
  erewrite bind_ok by (apply attr_ok; exact Hmulti). cbv beta iota.
  rewrite try_finally_state.
  lazymatch goal with
  | |- context [snd (?body st)] =>
      assert (keeps attributes body) as Hk
        by repeat first [apply call_loop_keeps | keeps_step];
      assert (emits in_loop_part body) as Hl
        by repeat first [apply call_loop_in_loop_part; loop_part_name | emits_step];
      set (s1 := snd (body st)) in *;
      destruct (Hl st) as (l & Hl1 & HP); specialize (Hk st); fold s1 in Hl1, Hk
  end.
  assert (models s1 = Some ms) as Hms1 by (rewrite <- Hms; exact (f_equal models Hk)).
  assert (env s1 = Some e) as He1 by (rewrite <- He; exact (f_equal env Hk)).
  exists l. split; [|done].
  destruct (close_each ms Hclose s1) as (s2 & Hrun & Ha & Ht).
  assert (close_models outside s1 = (Ok tt, s2)) as Hall.
  { unfold close_models. erewrite bind_ok by (apply attr_ok; exact Hms1). exact Hrun. }
  erewrite bind_ok by exact Hall.
  assert (env s2 = Some e) as He2 by (rewrite <- He1; exact (f_equal env Ha)).
  unfold close_env, attr, ext, mbind, M_bind, mret, M_ret. rewrite He2.
  destruct (outside _ ("env.close", [e])); cbn [snd trace record_call];
    by rewrite Ht, Hl1, <- !app_assoc.
Qed.

(** *** Agent.evaluate *)

(** X29. [evaluate] assigns nothing and calls nothing but one inference
    function, at most once -- it closes neither the models nor the
    environment; it returns only after that call. *)
Theorem evaluate_calls_inference_once (st : state) :
  ∃ l, trace (evaluate outside st).2 = trace st ++ l ∧
       attributes (evaluate outside st).2 = attributes st ∧
       (length l ≤ 1)%nat ∧
       Forall (λ c : call, c.1 ∈ inference_functions) l ∧
       ((evaluate outside st).1 = Ok tt → length l = 1%nat).
Proof.
  unfold evaluate, call_inference.
  change (global "gym_inference") with (mret tt : M unit).
  change (global "ma_unity_inference") with (mret tt : M unit).
  change (global "unity_inference") with (mret tt : M unit).
  unfold item, attr, read, ext, lift, mbind, M_bind, mret, M_ret.
  repeat case_match; simplify_eq;
    cbn [fst snd trace record_call attributes env_args model_args buffer_args train_args
         algo_args _name start_time _allow_print env multi_agents_training model models];
    first
      [ exists []; rewrite app_nil_r;
        split; [done|]; split; [done|]; split; [cbn; lia|]; split; [constructor|done]
      | eexists; split; [reflexivity|]; split; [done|]; split; [cbn; lia|];
        split; [|done]; constructor; [|constructor];
        cbn [fst]; unfold inference_functions; rewrite !elem_of_cons; tauto ].
Qed.

(** *** Agent.run *)

(** X30. [run] never returns: the three known modes name classes that
    no import of the file binds, so they raise [NameError] before
    anything is called, and every other mode is unknown; the agent is
    left as it was. *)
Theorem run_never_returns (mode : value) (st : state) :
  ∃ e, run outside mode st = (Raise e, st) ∧
       (e = NameError "ApexWorker" ∨ e = NameError "ApexLearner" ∨
        e = NameError "ApexBuffer" ∨ e = Exception "unknown mode").
Proof.
  unfold run.
  destruct (eq_str mode "worker"); [eexists; split; [reflexivity|tauto]|].
  destruct (eq_str mode "learner"); [eexists; split; [reflexivity|tauto]|].
  destruct (eq_str mode "buffer"); [eexists; split; [reflexivity|tauto]|].
  eexists; split; [reflexivity|tauto].
Qed.

End methods.

(** ** More runs on sample configurations *)

(** A file whose section 'algo' is a number. *)
Definition scalar_file : gmap string value := dict [("algo", VInt 3)].

(** An algorithm without recurrence, priorities or n-step returns. *)
Definition plain_algo : gmap string value :=
  dict [("use_rnn", VBool false); ("batch_size", VInt 32); ("buffer_size", VInt 1000)].

(** A buffer configuration with the section of plain ER only. *)
Definition bare_buffer : gmap string value := dict [("ER", VDict ∅)].

(** An agent after construction for a gym environment; it may print. *)
Definition gym_agent : state :=
  mkState (VDict gym_env) (VDict sample_model) (VDict zero_step_buffer) (VDict sample_train)
    (Some (VDict nstep_algo)) (Some (VStr "run")) (Some (VInt 0)) (Some true)
    (Some (VStr "env")) (Some false) (Some (VStr "model")) None [].

(** An agent with one model for each of two brains. *)
Definition brains_agent : state :=
  mkState (VDict (dict [("type", VStr "unity")])) (VDict sample_model)
    (VDict zero_step_buffer) (VDict sample_train)
    (Some (VDict nstep_algo)) (Some (VStr "run")) (Some (VInt 0)) (Some false)
    (Some (VStr "env")) (Some false) None (Some [VStr "model 0"; VStr "model 1"]) [].

(** An outside in which closing a model fails. *)
Definition failing_close : list call → call → result value :=
  fun h c =>
    if String.eqb c.1 "model.close" then Raise (UserError "close failed")
    else sample_outside ∅ ∅ "off-policy" h c.

(** A Unity environment with two brains: every attribute of the
    environment is a list of two. *)
Definition unity_outside : list call → call → result value :=
  fun h c =>
    if String.eqb c.1 "getattr" then Ok (VList [VStr "brain 0"; VStr "brain 1"])
    else sample_outside plain_algo ∅ "off-policy" h c.

(** An agent at line 230, about to build one model for each brain. *)
Definition brains_ready : state :=
  mkState (VDict (dict [("type", VStr "unity")]))
    (VDict (dict [("base_dir", VStr "out"); ("seed", VInt 7)]))
    (VDict (dict [("type", VStr "ER")])) (VDict sample_train)
    (Some (VDict plain_algo)) (Some (VStr "run")) (Some (VInt 0)) (Some false)
    (Some (VStr "env")) (Some false) None None [].

(** An environment that reports one brain. *)
Definition one_brain : list call → call → result value :=
  fun h c =>
    if String.eqb c.1 "getattr" then Ok (VInt 1)
    else sample_outside ∅ ∅ "off-policy" h c.

(** X1 on a file that has the section 'algo' only. *)
Lemma UpdateConfig_missing_section_witness :
  UpdateConfig (sample_outside ∅ sample_file "off-policy") (VDict sample_config)
    (VStr "algo.yaml") "buffer" (new_agent []) =
  (Raise (KeyError "buffer"),
   record_call ("load_config", [VStr "algo.yaml"]) (new_agent [])).
Proof.
  apply (UpdateConfig_missing_section (sample_outside ∅ sample_file "off-policy")
           (VDict sample_config) (VStr "algo.yaml") sample_file "buffer" (new_agent []));
    reflexivity.
Defined.

(** X2 on a file whose section is the number 3. *)
Lemma UpdateConfig_unusable_section_exits_witness :
  UpdateConfig (sample_outside ∅ scalar_file "off-policy") (VDict sample_config)
    (VStr "algo.yaml") "algo" (new_agent []) =
  (Raise SystemExit,
   record_call ("logger.info", [VStr "TypeError"])
     (record_call ("load_config", [VStr "algo.yaml"]) (new_agent []))).
Proof.
  apply (UpdateConfig_unusable_section_exits (sample_outside ∅ scalar_file "off-policy")
           (VDict sample_config) (VStr "algo.yaml") (VInt 3) VNone scalar_file "algo"
           (new_agent []));
    reflexivity.
Defined.

(** X3 on the file of the run for C9. *)
Lemma UpdateConfig_twice_witness :
  (config ← UpdateConfig (sample_outside ∅ sample_file "off-policy") (VDict sample_config)
              (VStr "algo.yaml") "algo";
   UpdateConfig (sample_outside ∅ sample_file "off-policy") config
     (VStr "algo.yaml") "algo") (new_agent []) =
  (Ok (VDict (dict [("gamma", VFloat 0.5%float); ("lr", VFloat 0.25%float)] ∪ sample_config)),
   record_call ("load_config", [VStr "algo.yaml"])
     (record_call ("load_config", [VStr "algo.yaml"]) (new_agent []))).
Proof.
  apply (UpdateConfig_twice (sample_outside ∅ sample_file "off-policy") sample_config
           sample_file (dict [("gamma", VFloat 0.5%float); ("lr", VFloat 0.25%float)])
           (VStr "algo.yaml") "algo" (new_agent []));
    reflexivity.
Defined.

(** X4 on a configuration of two entries: five lines. *)
Lemma ShowConfig_prints_table_witness :
  ∃ rows st' l,
    ShowConfig (sample_outside ∅ ∅ "off-policy") (VDict sample_config) (new_agent []) =
      (Ok tt, st') ∧
    attributes st' = attributes (new_agent []) ∧
    trace st' = trace (new_agent []) ++ l ∧
    logged l = table rows ∧
    length rows = size sample_config ∧
    Forall (λ row, (58 ≤ String.length row)%nat) rows.
Proof.
  apply (ShowConfig_prints_table (sample_outside ∅ ∅ "off-policy") sample_config
           (new_agent [])).
  split; intros; eexists; reflexivity.
Defined.

(** *** Runs with one and with several objects *)

(** Four different objects. *)
Definition four_objects (a : argument) : nat :=
  match a with
  | EnvArgs => 0
  | ModelArgs => 1
  | BufferArgs => 2
  | TrainArgs => 3
  end.

(** One [Config] passed both as [env_args] and as [train_args]. *)
Definition env_is_train (a : argument) : nat :=
  match a with
  | EnvArgs | TrainArgs => 0
  | ModelArgs => 1
  | BufferArgs => 2
  end.

(** A configuration that holds what both roles need. *)
Definition env_and_train : gmap string value := gym_env ∪ sample_train.

Definition one_config_run : result unit * state :=
  Shared.__init__ (sample_outside nstep_algo ∅ "off-policy") env_is_train
    (VDict env_and_train) (VDict sample_model) (VDict zero_step_buffer)
    (VDict env_and_train) (new_agent []).

(** With one [Config] in two roles, what lines 103 and 175-177 assign
    through [self.train_args] is read through [self.env_args]; with two
    objects of the same content it is not. *)
Example one_config_shows_assignments :
  one_config_run.1 = Ok tt ∧
  getitem (VDict env_and_train) "policy_mode" = Raise (KeyError "policy_mode") ∧
  getitem (env_args one_config_run.2) "policy_mode" = Ok (VStr "off-policy") ∧
  getitem (env_args one_config_run.2) "begin_episode" = Ok (VInt 0) ∧
  env_args one_config_run.2 = train_args one_config_run.2 ∧
  getitem
    (env_args
       (__init__ (sample_outside nstep_algo ∅ "off-policy")
          (VDict env_and_train) (VDict sample_model) (VDict zero_step_buffer)
          (VDict env_and_train) (new_agent [])).2) "policy_mode" =
    Raise (KeyError "policy_mode").
Proof. repeat split; vm_compute; reflexivity. Qed.

(** X5 on four objects. *)
Lemma construction_keeps_env_args_witness :
  env_args
    (Shared.__init__ (sample_outside nstep_algo ∅ "off-policy") four_objects
       (VDict gym_env) (VDict sample_model) (VDict zero_step_buffer) (VDict sample_train)
       (new_agent [])).2 = VDict gym_env.
Proof.
  apply (construction_keeps_env_args (sample_outside nstep_algo ∅ "off-policy")
           four_objects (VDict gym_env) (VDict sample_model) (VDict zero_step_buffer)
           (VDict sample_train) (new_agent []));
    vm_compute; discriminate.
Defined.

(** X6 on one [Config] passed as [env_args] and as [train_args]: the
    seed of the model's configuration is the caller's. *)
Lemma construction_assigns_base_dir_only_witness :
  getitem (model_args one_config_run.2) "seed" = getitem (VDict sample_model) "seed".
Proof.
  unfold one_config_run.
  apply (construction_assigns_base_dir_only (sample_outside nstep_algo ∅ "off-policy")
           env_is_train (VDict env_and_train) (VDict sample_model) (VDict zero_step_buffer)
           (VDict env_and_train) (new_agent []) "seed");
    [vm_compute; discriminate | vm_compute; discriminate | discriminate].
Defined.

(** X7 on the same run: the budget of training steps is the caller's. *)
Lemma construction_assigns_five_train_keys_witness :
  getitem (train_args one_config_run.2) "max_train_step" =
    getitem (VDict env_and_train) "max_train_step".
Proof.
  unfold one_config_run.
  apply (construction_assigns_five_train_keys (sample_outside nstep_algo ∅ "off-policy")
           env_is_train (VDict env_and_train) (VDict sample_model) (VDict zero_step_buffer)
           (VDict env_and_train) (new_agent []) "max_train_step");
    [vm_compute; discriminate | vm_compute; discriminate | key_out assigned_train_keys].
Defined.

(** X8 on four objects: the section of plain ER is the caller's. *)
Lemma construction_assigns_seven_buffer_keys_witness :
  getitem
    (buffer_args
       (Shared.__init__ (sample_outside nstep_algo ∅ "off-policy") four_objects
          (VDict gym_env) (VDict sample_model) (VDict zero_step_buffer)
          (VDict sample_train) (new_agent [])).2) "ER" =
  getitem (VDict zero_step_buffer) "ER".
Proof.
  apply (construction_assigns_seven_buffer_keys (sample_outside nstep_algo ∅ "off-policy")
           four_objects (VDict gym_env) (VDict sample_model) (VDict zero_step_buffer)
           (VDict sample_train) (new_agent []) "ER").
  - intros [] []; first [reflexivity | vm_compute; discriminate].
  - key_out assigned_buffer_keys.
Defined.

(** X9 on two brains and four objects. *)
Lemma brains_work_on_copies_witness :
  let after := (Shared.init_unity_single two_brains four_objects (VStr "Model")
                  nstep_brains_ready).2 in
  env_args after = env_args nstep_brains_ready ∧
  model_args after = model_args nstep_brains_ready ∧
  buffer_args after = buffer_args nstep_brains_ready ∧
  algo_args after = algo_args nstep_brains_ready.
Proof.
  apply (brains_work_on_copies two_brains four_objects (VStr "Model") nstep_brains_ready);
    vm_compute; discriminate.
Defined.

(** X10 on a buffer configuration without any section. *)
Lemma plain_ER_needs_no_section_witness :
  init_buffer (sample_outside plain_algo ∅ "off-policy") (VStr "off-policy")
    (configured plain_algo ∅ sample_budget) =
  (Ok tt,
   set_buffer_args
     (VDict (<["type" := VStr "ER"]>
               (<["buffer_size" := default (VInt 0) (plain_algo !! "buffer_size")]>
                  (<["batch_size" := default (VInt 0) (plain_algo !! "batch_size")]> ∅))))
     (configured plain_algo ∅ sample_budget)).
Proof.
  apply (plain_ER_needs_no_section (sample_outside plain_algo ∅ "off-policy")
           (configured plain_algo ∅ sample_budget) plain_algo ∅);
    [reflexivity | reflexivity | by eexists | reflexivity].
Defined.

(** X11 on a configuration that selects NstepPER and has the section of
    plain ER only. *)
Lemma selected_variant_needs_its_section_witness :
  let run :=
    init_buffer (sample_outside priority_nstep_algo ∅ "off-policy") (VStr "off-policy")
      (configured priority_nstep_algo bare_buffer sample_budget) in
  run.1 = Raise (KeyError (variant_of priority_nstep_algo)) ∧
  selected run.2 = Ok (VStr (variant_of priority_nstep_algo)) ∧
  trace run.2 = trace (configured priority_nstep_algo bare_buffer sample_budget).
Proof.
  apply (selected_variant_needs_its_section (sample_outside priority_nstep_algo ∅ "off-policy")
           (configured priority_nstep_algo bare_buffer sample_budget)
           priority_nstep_algo bare_buffer sample_budget);
    [reflexivity | reflexivity | reflexivity | by eexists | by eexists | by eexists
    | by vm_compute | reflexivity].
Defined.

(** X12 on the sample run, which is off-policy and has no steps of
    prefill configured. *)
Lemma construction_settles_prefill_witness :
  ∃ pm, getitem (train_args zero_step_run.2) "policy_mode" = Ok pm ∧
        getitem (train_args zero_step_run.2) "pre_fill_steps" =
          if eq_str pm "off-policy" then getitem (VDict sample_train) "pre_fill_steps"
          else Ok (VInt 0).
Proof.
  unfold zero_step_run.
  apply (construction_settles_prefill (sample_outside nstep_algo ∅ "off-policy")
           (VDict gym_env) (VDict sample_model) (VDict zero_step_buffer) (VDict sample_train)
           (new_agent [])).
  vm_compute. reflexivity.
Defined.

(** X13 for the batch size, on a configuration that selects NstepER. *)
Lemma rest_of_construction_keeps_algorithm_keys_witness :
  (algo_item "batch_size"
     (after_algorithm (sample_outside nstep_algo ∅ "off-policy") (VStr "Model")
        (VStr "off-policy") (configured nstep_algo zero_step_buffer sample_budget)).2).1 =
  (algo_item "batch_size" (configured nstep_algo zero_step_buffer sample_budget)).1.
Proof.
  apply (rest_of_construction_keeps_algorithm_keys (sample_outside nstep_algo ∅ "off-policy")
           (VStr "Model") (VStr "off-policy")
           (configured nstep_algo zero_step_buffer sample_budget) "batch_size").
  key_out assigned_algo_keys.
Defined.

(** X14 on the sample run. *)
Lemma use_rnn_is_the_callers_witness :
  (algo_item "use_rnn" zero_step_run.2).1 = getitem (VDict sample_model) "use_rnn".
Proof.
  unfold zero_step_run.
  apply (use_rnn_is_the_callers (sample_outside nstep_algo ∅ "off-policy")
           (VDict gym_env) (VDict sample_model) (VDict zero_step_buffer) (VDict sample_train)
           (new_agent [])).
  vm_compute. reflexivity.
Defined.



(** X17 on an environment with two brains. *)
Lemma brains_wiring_witness :
  let after := (init_unity_single unity_outside (VStr "Model") brains_ready).2 in
  ∃ l rs,
    trace after = trace brains_ready ++ l ∧
    filter wiring l = rounds_calls (VStr "Model") 0 rs ∧
    models after = Some (round_model <$> rs) ∧
    Forall (built unity_outside (VStr "Model")) rs ∧
    ∃ h e names brains,
      unity_outside h ("getattr", [e; VStr "fixed_brain_names"]) = Ok names ∧
      iterate names = Ok brains ∧ length rs = length brains.
Proof.
  apply (brains_wiring unity_outside (VStr "Model") brains_ready).
  vm_compute. reflexivity.
Defined.

(** X18 on an environment with two brains and the seed 7. *)
Lemma brain_seeds_witness :
  let after := (init_unity_single unity_outside (VStr "Model") brains_ready).2 in
  ∃ l rs,
    trace after = trace brains_ready ++ l ∧
    filter wiring l = rounds_calls (VStr "Model") 0 rs ∧
    ∀ i r, rs !! i = Some r →
           getitem (round_algo r) "seed" = seed_of (model_args brains_ready) i.
Proof.
  apply (brain_seeds unity_outside (VStr "Model") brains_ready).
  vm_compute. reflexivity.
Defined.

(** X19 on an environment with one brain. *)
Lemma several_agents_need_two_brains_witness :
  init_unity_multi one_brain (VStr "Model") gym_agent =
    (Raise (AssertionError "if using ma* algorithms, number of brains must larger than 1"),
     record_call ("getattr", [VStr "env"; VStr "brain_num"]) gym_agent).
Proof.
  apply (several_agents_need_two_brains one_brain (VStr "Model") (VStr "env") 1 gym_agent);
    [reflexivity | reflexivity | lia].
Defined.

(** X20 on the sample run, whose training configuration has no
    [allow_print]. *)
Lemma silent_unless_allowed_witness :
  let after :=
    (__init__ (sample_outside nstep_algo ∅ "off-policy")
       (VDict gym_env) (VDict sample_model) (VDict zero_step_buffer) (VDict sample_train)
       (new_agent [])).2 in
  pwi (sample_outside nstep_algo ∅ "off-policy") [VStr "step"] true after = (Ok tt, after).
Proof.
  apply (silent_unless_allowed (sample_outside nstep_algo ∅ "off-policy")
           (VDict gym_env) (VDict sample_model) (VDict zero_step_buffer) (VDict sample_train)
           (VBool false) (new_agent []) [VStr "step"] true);
    [vm_compute; reflexivity | reflexivity | reflexivity].
Defined.

(** X21 on the sample run, whose model configuration names no file. *)
Lemma no_algorithm_file_unless_named_witness :
  ∃ l, trace zero_step_run.2 = trace (new_agent []) ++ l ∧ Forall not_load_config l.
Proof.
  unfold zero_step_run.
  apply (no_algorithm_file_unless_named (sample_outside nstep_algo ∅ "off-policy")
           (VDict gym_env) (VDict sample_model) (VDict zero_step_buffer) (VDict sample_train)
           (new_agent [])).
  reflexivity.
Defined.

(** X22 on the sample run, which is built for inference. *)
Lemma inference_records_nothing_witness :
  ∃ l, trace zero_step_run.2 = trace (new_agent []) ++ l ∧
       Forall (none_of recording_calls) l.
Proof.
  unfold zero_step_run.
  apply (inference_records_nothing (sample_outside nstep_algo ∅ "off-policy")
           (VDict gym_env) (VDict sample_model) (VDict zero_step_buffer) (VDict sample_train)
           (VBool true) (new_agent []));
    reflexivity.
Defined.

(** X23 on the sample run, which does not ask for wandb. *)
Lemma no_wandb_unless_asked_witness :
  ∃ l, trace zero_step_run.2 = trace (new_agent []) ++ l ∧
       Forall (none_of wandb_calls) l.
Proof.
  unfold zero_step_run.
  apply (no_wandb_unless_asked (sample_outside nstep_algo ∅ "off-policy")
           (VDict gym_env) (VDict sample_model) (VDict zero_step_buffer) (VDict sample_train)
           (VBool false) (new_agent []));
    reflexivity.
Defined.

(** X25 on [pwi(3)]. *)
Lemma pwi_rejects_non_strings_witness :
  ∃ e l, (pwi (sample_outside ∅ ∅ "off-policy") [VInt 3] false gym_agent).1 = Raise e ∧
         trace (pwi (sample_outside ∅ ∅ "off-policy") [VInt 3] false gym_agent).2 =
           trace gym_agent ++ l ∧
         logged l = [].
Proof.
  apply (pwi_rejects_non_strings (sample_outside ∅ ∅ "off-policy") [VInt 3] false gym_agent);
    [reflexivity | by left].
Defined.

(** X26 on the gym agent. *)
Lemma train_closes_model_then_env_witness :
  ∃ l, trace (train (sample_outside ∅ ∅ "off-policy") gym_agent).2 =
         trace gym_agent ++ l ++ [("model.close", [VStr "model"]); ("env.close", [VStr "env"])] ∧
       Forall in_loop_part l.
Proof.
  apply (train_closes_model_then_env (sample_outside ∅ ∅ "off-policy") gym_agent
           (VStr "model") (VStr "env")).
  - exists (VStr "gym"). split; [reflexivity | left; reflexivity].
  - reflexivity.
  - reflexivity.
  - intros h. eexists. reflexivity.
Defined.

(** X27 on the gym agent, when closing the model fails. *)
Lemma train_leaves_env_open_witness :
  (train failing_close gym_agent).1 = Raise (UserError "close failed") ∧
  ∃ l, trace (train failing_close gym_agent).2 =
         trace gym_agent ++ l ++ [("model.close", [VStr "model"])] ∧
       Forall in_loop_part l.
Proof.
  apply (train_leaves_env_open failing_close gym_agent (VStr "model")
           (UserError "close failed")).
  - exists (VStr "gym"). split; [reflexivity | left; reflexivity].
  - reflexivity.
  - intros h. reflexivity.
Defined.

(** X28 on an agent with two models. *)
Lemma train_closes_every_model_witness :
  ∃ l, trace (train (sample_outside ∅ ∅ "off-policy") brains_agent).2 =
         trace brains_agent ++ l ++
         [("model.close", [VStr "model 0"]); ("model.close", [VStr "model 1"])] ++
         [("env.close", [VStr "env"])] ∧
       Forall in_loop_part l.
Proof.
  apply (train_closes_every_model (sample_outside ∅ ∅ "off-policy") brains_agent
           (VStr "unity") (VStr "env") [VStr "model 0"; VStr "model 1"]);
    [reflexivity | reflexivity | reflexivity | reflexivity | reflexivity |].
  intros h m _. eexists. reflexivity.
Defined.
